(** * RTS-AV: the ambient-backlight colour pipeline of backlight-integration.js

    A shallow embedding of [BacklightSystem] and of the recording optimiser
    [BacklightRecordingOptimizer] of [src/backlight-integration.js], with the
    parts of the browser they talk to (the canvas context, MediaRecorder,
    promises), and the properties of the design document stated and settled
    against them.

    Conventions of the embedding.
    - A JavaScript object that is mutated in place is a record threaded
      through a small state monad; [console.log] lines, canvas calls and timer
      registrations are collected in a trace of [event]s; a thrown exception
      is the [Throw] outcome.
    - Reading a property that was never written yields [JUndefined], so a
      record field holds what a read of that property yields.
    - Numeric literals are the rationals they denote.  Every arithmetic
      operation whose result JavaScript rounds to a double goes through the
      rounding function [fl], a parameter of the development. *)

From stdpp Require Import base list strings.
From Stdlib Require Import ZArith QArith Qround Lqa Lia.
From Equations Require Import Equations.

Set Default Proof Using "Type".
Local Open Scope Z_scope.

(** ** JavaScript values *)

Inductive jsval : Type :=
| JUndefined
| JNull
| JBool (b : bool)
| JNum (q : Q)
| JNaN
| JStr (s : string).

(** ToBoolean, as used by [if (v)] and [!v]. *)
Definition truthy (v : jsval) : bool :=
  match v with
  | JUndefined | JNull | JNaN => false
  | JBool b => b
  | JNum q => negb (Qeq_bool q 0)
  | JStr s => negb (String.eqb s EmptyString)
  end.

Inductive exn : Type :=
| TypeError
| IndexSizeError
| InvalidStateError
| Error (message : string).

Inductive outcome (A : Type) : Type :=
| Ret (a : A)
| Throw (e : exn).
Arguments Ret {A} a.
Arguments Throw {A} e.

(** A number as arithmetic produces it: a finite value or NaN. *)
Inductive num : Type :=
| Num (q : Q)
| NaN.

(** A colour string handed to the canvas: ['transparent'] or the template
    [rgba(r, g, b, alpha)] with the four interpolated numbers. *)
Inductive css : Type :=
| Transparent
| Rgba (r g b : num) (alpha : Q).

(** What the code does to the outside world, in program order. *)
Inductive event : Type :=
| ConsoleLog (msg : string)
| ConsoleError (msg : string)
| GetImageData (sx sy sw sh : Z)
| CreateLinearGradient (x0 y0 x1 y1 : Q)
| AddColorStop (offset : Q) (c : css)
| SetFillStyleGradient
| FillRect (x y w h : Q)
| SetTimeout (ms : Z)
| Call (method : string)
| CaptureStream (frameRate : Z)
| AddTrack (track : string).

(** ** The method monad: state, trace, exceptions

    A method is a function of the object's state that yields its result (or
    the exception it throws), the state it leaves and the events it caused. *)

Definition M (St A : Type) : Type := St -> outcome A * St * list event.

Definition ret {St A} (a : A) : M St A := fun s => (Ret a, s, []).
Definition bind {St A B} (m : M St A) (k : A -> M St B) : M St B := fun s =>
  match m s with
  | (Ret a, s1, tr1) =>
      match k a s1 with (r, s2, tr2) => (r, s2, tr1 ++ tr2) end
  | (Throw e, s1, tr1) => (Throw e, s1, tr1)
  end.
Definition gets {St A} (f : St -> A) : M St A := fun s => (Ret (f s), s, []).
Definition modify {St} (f : St -> St) : M St unit := fun s => (Ret tt, f s, []).
Definition emit {St} (e : event) : M St unit := fun s => (Ret tt, s, [e]).
Definition throw {St A} (e : exn) : M St A := fun s => (Throw e, s, []).
Definition lift {St A} (o : outcome A) : M St A := fun s => (o, s, []).

(** [try { m } catch (e) { h(e) }] *)
Definition catch {St A} (m : M St A) (h : exn -> M St A) : M St A := fun s =>
  match m s with
  | (Ret a, s1, tr1) => (Ret a, s1, tr1)
  | (Throw e, s1, tr1) =>
      match h e s1 with (r, s2, tr2) => (r, s2, tr1 ++ tr2) end
  end.

Notation "x <- m ;; k" := (bind m (fun x => k))
  (at level 100, m at next level, right associativity).
Notation "m ;;; k" := (bind m (fun _ => k))
  (at level 100, right associativity).

Definition state_of {St A} (r : outcome A * St * list event) : St := snd (fst r).
Definition trace_of {St A} (r : outcome A * St * list event) : list event := snd r.
Definition outcome_of {St A} (r : outcome A * St * list event) : outcome A :=
  fst (fst r).

(** [list.forEach(f)] *)
Fixpoint forEach {St A} (f : A -> M St unit) (l : list A) : M St unit :=
  match l with
  | [] => ret tt
  | x :: l' => f x ;;; forEach f l'
  end.

(** ** The visualizer's option bag *)

Module Visualizer.

Record options : Type := Options {
  colorIntensity : jsval;
  edgeFalloff : jsval;
  transitionSpeed : jsval;
  visualizationMode : jsval;
  colorSaturation : jsval;
  edgeEmphasis : jsval
}.

Definition set_colorIntensity (v : jsval) (o : options) : options :=
  Options v (edgeFalloff o) (transitionSpeed o) (visualizationMode o)
          (colorSaturation o) (edgeEmphasis o).
Definition set_edgeFalloff (v : jsval) (o : options) : options :=
  Options (colorIntensity o) v (transitionSpeed o) (visualizationMode o)
          (colorSaturation o) (edgeEmphasis o).
Definition set_transitionSpeed (v : jsval) (o : options) : options :=
  Options (colorIntensity o) (edgeFalloff o) v (visualizationMode o)
          (colorSaturation o) (edgeEmphasis o).
Definition set_visualizationMode (v : jsval) (o : options) : options :=
  Options (colorIntensity o) (edgeFalloff o) (transitionSpeed o) v
          (colorSaturation o) (edgeEmphasis o).
Definition set_colorSaturation (v : jsval) (o : options) : options :=
  Options (colorIntensity o) (edgeFalloff o) (transitionSpeed o)
          (visualizationMode o) v (edgeEmphasis o).
Definition set_edgeEmphasis (v : jsval) (o : options) : options :=
  Options (colorIntensity o) (edgeFalloff o) (transitionSpeed o)
          (visualizationMode o) (colorSaturation o) v.

(** The renderer parameter bag the backlight controller overrides. *)
Definition parameterBag (o : options) : jsval * jsval * jsval * jsval :=
  (colorIntensity o, edgeFalloff o, transitionSpeed o, visualizationMode o).

(** The three options the recording optimiser overrides. *)
Definition recordingBag (o : options) : jsval * jsval * jsval :=
  (colorSaturation o, visualizationMode o, edgeEmphasis o).

End Visualizer.

(** ** The canvas context

    [ctx] is an argument of the code; the only one of its methods whose
    result the code consumes is [getImageData], so that method is a field and
    the drawing calls are recorded as events.  [imageData] is the [data]
    array of the returned ImageData: bytes, four per pixel. *)

Record context : Type := Context {
  getImageData : Z -> Z -> Z -> Z -> outcome (list Z)
}.

(** A canvas 2D context as the HTML Standard defines [getImageData] on the
    arguments the code passes: a zero width or height is rejected with an
    IndexSizeError, otherwise the rectangle is copied out, transparent black
    where it leaves the canvas. *)
Definition canvasPixel (cw ch : Z) (pixels : list Z) (x y k : Z) : Z :=
  if (0 <=? x) && (x <? cw) && (0 <=? y) && (y <? ch)
  then default 0 (pixels !! Z.to_nat ((y * cw + x) * 4 + k))
  else 0.

Definition canvasRect (cw ch : Z) (pixels : list Z) (sx sy sw sh : Z) : list Z :=
  flat_map (fun row : nat =>
    flat_map (fun col : nat =>
      map (canvasPixel cw ch pixels (sx + Z.of_nat col) (sy + Z.of_nat row))
          [0; 1; 2; 3])
      (seq 0 (Z.to_nat sw)))
    (seq 0 (Z.to_nat sh)).

Definition canvasContext (cw ch : Z) (pixels : list Z) : context :=
  Context (fun sx sy sw sh =>
    if (sw =? 0) || (sh =? 0) then Throw IndexSizeError
    else Ret (canvasRect cw ch pixels
                (if sw <? 0 then sx + sw else sx)
                (if sh <? 0 then sy + sh else sy)
                (Z.abs sw) (Z.abs sh))).

(** ** BacklightSystem *)

Module BacklightSystem.

(** One entry of [supportedSystems]. *)
Record system : Type := System {
  name : string;
  connected : bool;
  apiKey : option string;
  ipAddress : option string
}.

(** A descriptor as the scan yields it and the dialog passes it. *)
Record descriptor : Type := Descriptor {
  d_type : string;
  d_id : string;
  d_ipAddress : string
}.

(** [data[k]]: a byte, or undefined ([None]) outside the array. *)
Definition channel : Type := option Z.
Definition color : Type := (channel * channel * channel)%type.

(** A zone array.  A slot is a colour triple, or a hole ([None]) such as
    an out-of-range write would leave behind. *)
Abbreviation zone := (list (option color)).

Record zones : Type := Zones {
  top : zone;
  right : zone;
  bottom : zone;
  left : zone
}.

(** [previousSettings], the snapshot taken by [applyOptimizedSettings]. *)
Record snapshot : Type := Snapshot {
  ps_colorIntensity : jsval;
  ps_edgeFalloff : jsval;
  ps_transitionSpeed : jsval;
  ps_visualizationMode : jsval
}.

Record t : Type := Make {
  visualizer : option Visualizer.options;
  isEnabled : bool;
  backlightMode : string;
  edgeEmphasis : Q;
  colorSaturation : Q;
  smoothingFactor : Q;
  transitionSpeed : string;
  supportedSystems : list system;
  edgeZones : zones;
  previousSettings : option snapshot;
  previousVisualizationMode : jsval
}.

Definition set_visualizer (v : option Visualizer.options) (s : t) : t :=
  Make v (isEnabled s) (backlightMode s) (edgeEmphasis s) (colorSaturation s)
       (smoothingFactor s) (transitionSpeed s) (supportedSystems s)
       (edgeZones s) (previousSettings s) (previousVisualizationMode s).
Definition set_isEnabled (b : bool) (s : t) : t :=
  Make (visualizer s) b (backlightMode s) (edgeEmphasis s) (colorSaturation s)
       (smoothingFactor s) (transitionSpeed s) (supportedSystems s)
       (edgeZones s) (previousSettings s) (previousVisualizationMode s).
Definition set_backlightMode (m : string) (s : t) : t :=
  Make (visualizer s) (isEnabled s) m (edgeEmphasis s) (colorSaturation s)
       (smoothingFactor s) (transitionSpeed s) (supportedSystems s)
       (edgeZones s) (previousSettings s) (previousVisualizationMode s).
Definition set_tuning (emphasis saturation smoothing : Q) (s : t) : t :=
  Make (visualizer s) (isEnabled s) (backlightMode s) emphasis saturation
       smoothing (transitionSpeed s) (supportedSystems s)
       (edgeZones s) (previousSettings s) (previousVisualizationMode s).
Definition set_transitionSpeed (v : string) (s : t) : t :=
  Make (visualizer s) (isEnabled s) (backlightMode s) (edgeEmphasis s)
       (colorSaturation s) (smoothingFactor s) v (supportedSystems s)
       (edgeZones s) (previousSettings s) (previousVisualizationMode s).
Definition set_supportedSystems (l : list system) (s : t) : t :=
  Make (visualizer s) (isEnabled s) (backlightMode s) (edgeEmphasis s)
       (colorSaturation s) (smoothingFactor s) (transitionSpeed s) l
       (edgeZones s) (previousSettings s) (previousVisualizationMode s).
Definition set_edgeZones (z : zones) (s : t) : t :=
  Make (visualizer s) (isEnabled s) (backlightMode s) (edgeEmphasis s)
       (colorSaturation s) (smoothingFactor s) (transitionSpeed s)
       (supportedSystems s) z (previousSettings s)
       (previousVisualizationMode s).
Definition set_previousSettings (p : option snapshot) (s : t) : t :=
  Make (visualizer s) (isEnabled s) (backlightMode s) (edgeEmphasis s)
       (colorSaturation s) (smoothingFactor s) (transitionSpeed s)
       (supportedSystems s) (edgeZones s) p (previousVisualizationMode s).
Definition set_previousVisualizationMode (v : jsval) (s : t) : t :=
  Make (visualizer s) (isEnabled s) (backlightMode s) (edgeEmphasis s)
       (colorSaturation s) (smoothingFactor s) (transitionSpeed s)
       (supportedSystems s) (edgeZones s) (previousSettings s) v.

Definition set_top (z : zone) (e : zones) : zones :=
  Zones z (right e) (bottom e) (left e).
Definition set_right (z : zone) (e : zones) : zones :=
  Zones (top e) z (bottom e) (left e).
Definition set_bottom (z : zone) (e : zones) : zones :=
  Zones (top e) (right e) z (left e).
Definition set_left (z : zone) (e : zones) : zones :=
  Zones (top e) (right e) (bottom e) z.

(** Writes to [this.visualizer.options.<field>]. *)
Definition modify_options (f : Visualizer.options -> Visualizer.options) : M t unit :=
  modify (fun s => set_visualizer (f <$> visualizer s) s).

(** *** constructor and initializeEdgeZones

    [Array(n).fill([0, 0, 0])] puts the same triple in every slot; no
    method mutates a triple in place (the sampler replaces whole slots), so
    the sharing is not observable and the slots are plain values. *)

Definition initializeEdgeZones : M t unit :=
  let topBottomCount := 16%nat in
  let leftRightCount := 9%nat in
  let zero : option color := Some (Some 0, Some 0, Some 0) in
  modify (fun s => set_edgeZones (set_top (replicate topBottomCount zero) (edgeZones s)) s) ;;;
  modify (fun s => set_edgeZones (set_bottom (replicate topBottomCount zero) (edgeZones s)) s) ;;;
  modify (fun s => set_edgeZones (set_left (replicate leftRightCount zero) (edgeZones s)) s) ;;;
  modify (fun s => set_edgeZones (set_right (replicate leftRightCount zero) (edgeZones s)) s).

Definition constructor (visualizer : option Visualizer.options) : t :=
  state_of (initializeEdgeZones
    (Make visualizer false "adaptive" (7 # 10) (12 # 10) (3 # 10) "medium"
      [ System "Govee" false (Some EmptyString) None;
        System "Philips Hue" false (Some EmptyString) None;
        System "WLED" false None (Some EmptyString);
        System "Hyperion" false None (Some EmptyString) ]
      (Zones [] [] [] [])
      None JUndefined)).

(** *** enableEdgeEmphasisMode, applyOptimizedSettings, restoreStandardSettings *)

Definition enableEdgeEmphasisMode : M t unit :=
  v <- gets visualizer ;;
  match v with
  | None => ret tt
  | Some o =>
      modify (set_previousVisualizationMode (Visualizer.visualizationMode o)) ;;;
      modify_options (Visualizer.set_visualizationMode (JStr "backlight"))
  end.

Definition applyOptimizedSettings : M t unit :=
  v <- gets visualizer ;;
  match v with
  | None => ret tt
  | Some o =>
      modify (set_previousSettings (Some
        (Snapshot (Visualizer.colorIntensity o) (Visualizer.edgeFalloff o)
                  (Visualizer.transitionSpeed o) (Visualizer.visualizationMode o)))) ;;;
      sat <- gets colorSaturation ;;
      modify_options (Visualizer.set_colorIntensity (JNum sat)) ;;;
      emphasis <- gets edgeEmphasis ;;
      modify_options (Visualizer.set_edgeFalloff (JNum emphasis)) ;;;
      speed <- gets transitionSpeed ;;
      modify_options (Visualizer.set_transitionSpeed (JStr speed)) ;;;
      mode <- gets backlightMode ;;
      if String.eqb mode "adaptive" then enableEdgeEmphasisMode else ret tt
  end.

Definition restoreStandardSettings : M t unit :=
  v <- gets visualizer ;;
  p <- gets previousSettings ;;
  match v, p with
  | Some _, Some prev =>
      modify_options (Visualizer.set_colorIntensity (ps_colorIntensity prev)) ;;;
      modify_options (Visualizer.set_edgeFalloff (ps_edgeFalloff prev)) ;;;
      modify_options (Visualizer.set_transitionSpeed (ps_transitionSpeed prev)) ;;;
      pvm <- gets previousVisualizationMode ;;
      if truthy pvm then
        modify_options (Visualizer.set_visualizationMode pvm) ;;;
        modify (set_previousVisualizationMode JNull)
      else ret tt
  | _, _ => ret tt
  end.

(** *** toggle *)

Definition toggle (enable : bool) : M t bool :=
  modify (set_isEnabled enable) ;;;
  en <- gets isEnabled ;;
  (if en then
     emit (ConsoleLog "Backlight enhancement enabled") ;;;
     applyOptimizedSettings
   else
     emit (ConsoleLog "Backlight enhancement disabled") ;;;
     restoreStandardSettings) ;;;
  gets isEnabled.

(** *** Device discovery and connection

    [scanForBacklightSystems] resolves from a timer; what runs at the call
    is the log line and the timer registration, and the [then] callback
    of [attemptDirectConnection] is the separate step [onScanResolved]
    that the event loop runs later. *)

Definition discovered : list descriptor :=
  [ Descriptor "Govee" "H6199" "192.168.1.100" ].

Definition scanForBacklightSystems : M t unit :=
  emit (ConsoleLog "Scanning for backlight systems...") ;;;
  emit (SetTimeout 1000).

Definition setupGoveeConnection (system : descriptor) : M t unit :=
  emit (ConsoleLog "Setting up Govee connection").
Definition setupPhilipsHueConnection (system : descriptor) : M t unit :=
  emit (ConsoleLog "Setting up Philips Hue connection").
Definition setupWLEDConnection (system : descriptor) : M t unit :=
  emit (ConsoleLog "Setting up WLED connection").

Definition set_connected (b : bool) (x : system) : system :=
  System (name x) b (apiKey x) (ipAddress x).

Definition connectToSystem (system : descriptor) : M t unit :=
  emit (ConsoleLog ("Attempting to connect to " +:+ d_type system +:+ " at "
                    +:+ d_ipAddress system)) ;;;
  systems <- gets supportedSystems ;;
  match list_find (fun x => name x = d_type system) systems with
  | Some (i, supportedSystem) =>
      modify (set_supportedSystems (<[i := set_connected true supportedSystem]> systems)) ;;;
      (if String.eqb (d_type system) "Govee" then setupGoveeConnection system
       else if String.eqb (d_type system) "Philips Hue" then setupPhilipsHueConnection system
       else if String.eqb (d_type system) "WLED" then setupWLEDConnection system
       else ret tt) ;;;
      emit (ConsoleLog ("Connected to " +:+ d_type system))
  | None => ret tt
  end.

Definition attemptDirectConnection : M t unit :=
  scanForBacklightSystems.

Definition onScanResolved : M t unit :=
  emit (ConsoleLog "Available backlight systems:") ;;;
  forEach connectToSystem discovered.

(** *** setMode *)

Definition setMode (mode : string) : M t unit :=
  modify (set_backlightMode mode) ;;;
  (if String.eqb mode "adaptive" then
     modify (set_tuning (7 # 10) (12 # 10) (3 # 10))
   else if String.eqb mode "direct" then
     attemptDirectConnection
   else if String.eqb mode "ambilight" then
     modify (set_tuning (9 # 10) (14 # 10) (2 # 10))
   else ret tt) ;;;
  emit (ConsoleLog ("Backlight mode set to: " +:+ mode)).

(** *** Dispatch to connected systems *)

Record goveeData : Type := GoveeData {
  device : string;
  model : string;
  cmd_name : string;
  cmd_r : channel;
  cmd_g : channel;
  cmd_b : channel
}.

(** [this.edgeZones.top[Math.floor(this.edgeZones.top.length / 2)][k]]:
    indexing into a missing slot is a TypeError. *)
Definition formatDataForGovee : M t goveeData :=
  e <- gets edgeZones ;;
  match top e !! (length (top e) / 2)%nat with
  | Some (Some (r, g, b)) => ret (GoveeData "H6199" "H6199" "color" r g b)
  | _ => throw TypeError
  end.

Definition sendToGovee (system : system) : M t unit :=
  emit (ConsoleLog "Sending color data to Govee") ;;;
  goveeData <- formatDataForGovee ;;
  ret tt.

Definition sendToPhilipsHue (system : system) : M t unit :=
  emit (ConsoleLog "Sending color data to Philips Hue").

Definition sendToWLED (system : system) : M t unit :=
  emit (ConsoleLog "Sending color data to WLED").

Definition sendColorDataToConnectedSystems : M t unit :=
  systems <- gets supportedSystems ;;
  let connectedSystems := filter (fun x => connected x = true) systems in
  forEach (fun system =>
    if String.eqb (name system) "Govee" then sendToGovee system
    else if String.eqb (name system) "Philips Hue" then sendToPhilipsHue system
    else if String.eqb (name system) "WLED" then sendToWLED system
    else ret tt) connectedSystems.

(** *** Array writes

    [a[i] = v] replaces the slot when [i] is inside the array and
    otherwise grows the array to [i + 1] slots, leaving holes between. *)

Definition array_set {A} (i : nat) (v : A) (a : list (option A)) : list (option A) :=
  if decide (i < length a)%nat then <[i := Some v]> a
  else a ++ replicate (i - length a) None ++ [Some v].

(** [for (let i = 0; i < zone.length; i++) zone[i] = pixel(i, zone.length)]
    with the bound read again at every turn, as the source has it. *)
Equations? sampleLoop (pixel : nat -> nat -> color) (i : nat) (z : zone) : zone
  by wf (length z - i)%nat lt :=
  sampleLoop pixel i z with decide (i < length z)%nat := {
    | Specif.left _ => sampleLoop pixel (S i) (array_set i (pixel i (length z)) z)
    | Specif.right _ => z }.
Proof.
  unfold array_set. rewrite decide_True by assumption.
  rewrite length_insert. lia.
Defined.

(** [data[k]] on the pixel array. *)
Definition dataAt (data : list Z) (k : Z) : channel :=
  if 0 <=? k then data !! Z.to_nat k else None.

Definition pixelAt (data : list Z) (pixelIndex : Z) : color :=
  (dataAt data pixelIndex, dataAt data (pixelIndex + 1), dataAt data (pixelIndex + 2)).

Section Rounding.

(** Rounding of a real result to the nearest double. *)
Variable fl : Q -> Q.

(** [Math.floor((i / length) * extent)] *)
Definition along (i len : nat) (extent : Z) : Z :=
  Qfloor (fl (fl (inject_Z (Z.of_nat i) / inject_Z (Z.of_nat len)) * inject_Z extent)).

Definition topPixel (width : Z) (data : list Z) (i len : nat) : color :=
  let x := along i len width in
  let pixelIndex := (x + 2 * width) * 4 in
  pixelAt data pixelIndex.

Definition bottomPixel (width height : Z) (data : list Z) (i len : nat) : color :=
  let x := along i len width in
  let pixelIndex := (x + (height - 3) * width) * 4 in
  pixelAt data pixelIndex.

Definition leftPixel (width height : Z) (data : list Z) (i len : nat) : color :=
  let y := along i len height in
  let pixelIndex := (2 + y * width) * 4 in
  pixelAt data pixelIndex.

Definition rightPixel (width height : Z) (data : list Z) (i len : nat) : color :=
  let y := along i len height in
  let pixelIndex := (width - 3 + y * width) * 4 in
  pixelAt data pixelIndex.

Definition modify_zones (f : zones -> zones) : M t unit :=
  modify (fun s => set_edgeZones (f (edgeZones s)) s).

Definition sampleEdgeColors (ctx : context) (width height : Z) : M t unit :=
  emit (GetImageData 0 0 width height) ;;;
  data <- lift (getImageData ctx 0 0 width height) ;;
  modify_zones (fun e => set_top (sampleLoop (topPixel width data) 0 (top e)) e) ;;;
  modify_zones (fun e => set_bottom (sampleLoop (bottomPixel width height data) 0 (bottom e)) e) ;;;
  modify_zones (fun e => set_left (sampleLoop (leftPixel width height data) 0 (left e)) e) ;;;
  modify_zones (fun e => set_right (sampleLoop (rightPixel width height data) 0 (right e)) e).

(** *** getAverageColorString *)

Definition num_of_channel (c : channel) : num :=
  match c with
  | Some z => Num (inject_Z z)
  | None => NaN
  end.

Definition num_add (a b : num) : num :=
  match a, b with
  | Num x, Num y => Num (fl (x + y))
  | _, _ => NaN
  end.

Definition num_mul (a : num) (y : Q) : num :=
  match a with
  | Num x => Num (fl (x * y))
  | NaN => NaN
  end.

(** [total / colorArray.length].  The one division by zero that can
    occur is [0 / 0] (the totals of an empty array), which is NaN. *)
Definition num_div_length (a : num) (len : nat) : num :=
  match a, len with
  | Num x, S _ => Num (fl (x / inject_Z (Z.of_nat len)))
  | _, _ => NaN
  end.

Definition math_floor (a : num) : num :=
  match a with
  | Num x => Num (inject_Z (Qfloor x))
  | NaN => NaN
  end.

(** [Math.min(255, a)] *)
Definition math_min_255 (a : num) : num :=
  match a with
  | Num x => if Qle_bool 255 x then Num 255 else Num x
  | NaN => NaN
  end.

(** The [forEach] accumulation; [forEach] does not visit holes. *)
Fixpoint totals (colorArray : zone) (acc : num * num * num) : num * num * num :=
  match colorArray with
  | [] => acc
  | None :: rest => totals rest acc
  | Some (c0, c1, c2) :: rest =>
      let '(totalR, totalG, totalB) := acc in
      totals rest (num_add totalR (num_of_channel c0),
                   num_add totalG (num_of_channel c1),
                   num_add totalB (num_of_channel c2))
  end.

Definition getAverageColorString (colorArray : zone) (alpha : Q) : M t css :=
  let '(totalR, totalG, totalB) := totals colorArray (Num 0, Num 0, Num 0) in
  let avgR := math_floor (num_div_length totalR (length colorArray)) in
  let avgG := math_floor (num_div_length totalG (length colorArray)) in
  let avgB := math_floor (num_div_length totalB (length colorArray)) in
  saturation <- gets colorSaturation ;;
  let satR := math_min_255 (math_floor (num_mul avgR saturation)) in
  let satG := math_min_255 (math_floor (num_mul avgG saturation)) in
  let satB := math_min_255 (math_floor (num_mul avgB saturation)) in
  ret (Rgba satR satG satB alpha).

(** *** applyEdgeEmphasis *)

Definition times (n : Z) (y : Q) : Q := fl (inject_Z n * y).

Definition applyEdgeEmphasis (ctx : context) (width height : Z) : M t unit :=
  (* top edge glow *)
  emit (CreateLinearGradient 0 0 0 (times height (1 # 10))) ;;;
  e <- gets edgeZones ;;
  c <- getAverageColorString (top e) (1 # 2) ;;
  emit (AddColorStop 0 c) ;;;
  emit (AddColorStop 1 Transparent) ;;;
  emit SetFillStyleGradient ;;;
  emit (FillRect 0 0 (inject_Z width) (times height (1 # 10))) ;;;
  (* bottom edge glow *)
  emit (CreateLinearGradient 0 (times height (9 # 10)) 0 (inject_Z height)) ;;;
  emit (AddColorStop 0 Transparent) ;;;
  e <- gets edgeZones ;;
  c <- getAverageColorString (bottom e) (1 # 2) ;;
  emit (AddColorStop 1 c) ;;;
  emit SetFillStyleGradient ;;;
  emit (FillRect 0 (times height (9 # 10)) (inject_Z width) (times height (1 # 10))) ;;;
  (* left edge glow *)
  emit (CreateLinearGradient 0 0 (times width (1 # 10)) 0) ;;;
  e <- gets edgeZones ;;
  c <- getAverageColorString (left e) (1 # 2) ;;
  emit (AddColorStop 0 c) ;;;
  emit (AddColorStop 1 Transparent) ;;;
  emit SetFillStyleGradient ;;;
  emit (FillRect 0 0 (times width (1 # 10)) (inject_Z height)) ;;;
  (* right edge glow *)
  emit (CreateLinearGradient (times width (9 # 10)) 0 (inject_Z width) 0) ;;;
  emit (AddColorStop 0 Transparent) ;;;
  e <- gets edgeZones ;;
  c <- getAverageColorString (right e) (1 # 2) ;;
  emit (AddColorStop 1 c) ;;;
  emit SetFillStyleGradient ;;;
  emit (FillRect (times width (9 # 10)) 0 (times width (1 # 10)) (inject_Z height)).

(** *** processFrame *)

Definition processFrame (ctx : context) (width height : Z) : M t unit :=
  enabled <- gets isEnabled ;;
  if negb enabled then ret tt
  else
    sampleEdgeColors ctx width height ;;;
    mode <- gets backlightMode ;;
    (if String.eqb mode "direct" then sendColorDataToConnectedSystems
     else ret tt) ;;;
    mode <- gets backlightMode ;;
    (if String.eqb mode "adaptive" || String.eqb mode "ambilight"
     then applyEdgeEmphasis ctx width height
     else ret tt).

End Rounding.

End BacklightSystem.

(** ** BacklightRecordingOptimizer *)

Module BacklightRecordingOptimizer.

(** [originalSettings] *)
Record saved : Type := Saved {
  os_colorSaturation : jsval;
  os_visualizationMode : jsval;
  os_edgeEmphasis : jsval
}.

(** A MediaRecorder as the browser keeps it: its state, the handlers the
    code installed ([onstop] resolves the promise it names) and whether a
    [stop] event is queued for dispatch. *)
Inductive recorderState : Type := Inactive | Recording.

Record mediaRecorder : Type := MediaRecorder {
  state : recorderState;
  ondataavailable : bool;
  onstop : option nat;
  stopQueued : bool
}.

(** A recorded chunk is its [data.size]; a Blob is the chunks it was
    built from. *)
Definition chunk : Type := Z.
Definition blob : Type := list chunk.

Inductive settlement : Type :=
| Pending
| Resolved (b : blob)
| Rejected (e : exn).

(** The object's fields, and the two kinds of heap objects it creates:
    [recorder] refers into [recorders], the value of [stopRecording]
    refers into [promises]. *)
Record t : Type := Make {
  visualizer : option Visualizer.options;
  isEnabled : bool;
  originalSettings : option saved;
  recorder : option nat;
  recordedChunks : list chunk;
  recorders : list mediaRecorder;
  promises : list settlement
}.

Definition set_visualizer (v : option Visualizer.options) (s : t) : t :=
  Make v (isEnabled s) (originalSettings s) (recorder s) (recordedChunks s)
       (recorders s) (promises s).
Definition set_isEnabled (b : bool) (s : t) : t :=
  Make (visualizer s) b (originalSettings s) (recorder s) (recordedChunks s)
       (recorders s) (promises s).
Definition set_originalSettings (o : option saved) (s : t) : t :=
  Make (visualizer s) (isEnabled s) o (recorder s) (recordedChunks s)
       (recorders s) (promises s).
Definition set_recorder (r : option nat) (s : t) : t :=
  Make (visualizer s) (isEnabled s) (originalSettings s) r (recordedChunks s)
       (recorders s) (promises s).
Definition set_recordedChunks (l : list chunk) (s : t) : t :=
  Make (visualizer s) (isEnabled s) (originalSettings s) (recorder s) l
       (recorders s) (promises s).
Definition set_recorders (l : list mediaRecorder) (s : t) : t :=
  Make (visualizer s) (isEnabled s) (originalSettings s) (recorder s)
       (recordedChunks s) l (promises s).
Definition set_promises (l : list settlement) (s : t) : t :=
  Make (visualizer s) (isEnabled s) (originalSettings s) (recorder s)
       (recordedChunks s) (recorders s) l.

Definition constructor (visualizer : option Visualizer.options) : t :=
  Make visualizer false None None [] [] [].

Definition modify_options (f : Visualizer.options -> Visualizer.options) : M t unit :=
  modify (fun s => set_visualizer (f <$> visualizer s) s).

(** *** enable, disable

    Entering either method is recorded in the trace, so that calls can be
    counted. *)

Definition enable : M t bool :=
  emit (Call "enable") ;;;
  v <- gets visualizer ;;
  match v with
  | None => ret false
  | Some o =>
      modify (set_originalSettings (Some
        (Saved (Visualizer.colorSaturation o) (Visualizer.visualizationMode o)
               (Visualizer.edgeEmphasis o)))) ;;;
      modify_options (Visualizer.set_colorSaturation (JNum (13 # 10))) ;;;
      modify_options (Visualizer.set_visualizationMode (JStr "backlight")) ;;;
      modify_options (Visualizer.set_edgeEmphasis (JNum (9 # 10))) ;;;
      modify (set_isEnabled true) ;;;
      ret true
  end.

Definition disable : M t bool :=
  emit (Call "disable") ;;;
  v <- gets visualizer ;;
  o <- gets originalSettings ;;
  match v, o with
  | Some _, Some orig =>
      modify_options (Visualizer.set_colorSaturation (os_colorSaturation orig)) ;;;
      modify_options (Visualizer.set_visualizationMode (os_visualizationMode orig)) ;;;
      modify_options (Visualizer.set_edgeEmphasis (os_edgeEmphasis orig)) ;;;
      modify (set_isEnabled false) ;;;
      ret true
  | _, _ => ret false
  end.

(** *** The MediaRecorder and Promise objects *)

(** [new MediaRecorder(stream, options)] *)
Definition newMediaRecorder : M t nat :=
  l <- gets recorders ;;
  modify (set_recorders (l ++ [MediaRecorder Inactive false None false])) ;;;
  ret (length l).

Definition update_recorder (r : nat) (f : mediaRecorder -> mediaRecorder) : M t unit :=
  modify (fun s => set_recorders (alter f r (recorders s)) s).

Definition set_state (v : recorderState) (m : mediaRecorder) : mediaRecorder :=
  MediaRecorder v (ondataavailable m) (onstop m) (stopQueued m).
Definition set_ondataavailable (v : bool) (m : mediaRecorder) : mediaRecorder :=
  MediaRecorder (state m) v (onstop m) (stopQueued m).
Definition set_onstop (v : option nat) (m : mediaRecorder) : mediaRecorder :=
  MediaRecorder (state m) (ondataavailable m) v (stopQueued m).
Definition set_stopQueued (v : bool) (m : mediaRecorder) : mediaRecorder :=
  MediaRecorder (state m) (ondataavailable m) (onstop m) v.

(** [recorder.start()]: only an inactive recorder can be started. *)
Definition recorder_start (r : nat) : M t unit :=
  l <- gets recorders ;;
  match l !! r with
  | Some m =>
      match state m with
      | Inactive => update_recorder r (set_state Recording)
      | Recording => throw InvalidStateError
      end
  | None => throw TypeError
  end.

(** [recorder.stop()]: the recorder becomes inactive at once and its
    [stop] event is queued; an inactive recorder cannot be stopped. *)
Definition recorder_stop (r : nat) : M t unit :=
  l <- gets recorders ;;
  match l !! r with
  | Some m =>
      match state m with
      | Recording =>
          update_recorder r (set_state Inactive) ;;;
          update_recorder r (set_stopQueued true)
      | Inactive => throw InvalidStateError
      end
  | None => throw TypeError
  end.

(** [new Promise(...)], and [resolve]/[reject], which settle a promise
    once. *)
Definition newPromise : M t nat :=
  l <- gets promises ;;
  modify (set_promises (l ++ [Pending])) ;;;
  ret (length l).

Definition settle (p : nat) (v : settlement) : M t unit :=
  modify (fun s => set_promises
    (alter (fun old => match old with Pending => v | _ => old end) p (promises s)) s).

(** *** startRecording *)

Inductive canvasElement : Type := Canvas.

(** [audioContext.destination.stream], when there is one, with its audio
    tracks. *)
Record audioContext : Type := AudioContext {
  destination_stream : option (list string)
}.

Definition startRecording (canvas : option canvasElement)
    (audioContext : option audioContext) : M t bool :=
  match canvas with
  | None => ret false
  | Some _ =>
      enable ;;;
      emit (CaptureStream 60) ;;;
      (match audioContext with
       | Some a =>
           match destination_stream a with
           | Some audioTracks => forEach (fun track => emit (AddTrack track)) audioTracks
           | None => ret tt
           end
       | None => ret tt
       end) ;;;
      r <- newMediaRecorder ;;
      modify (set_recorder (Some r)) ;;;
      modify (set_recordedChunks []) ;;;
      update_recorder r (set_ondataavailable true) ;;;
      recorder_start r ;;;
      ret true
  end.

(** *** stopRecording

    The call runs the promise executor and yields the promise; an
    exception in the executor rejects the promise.  The [onstop] handler
    it installs runs when the browser dispatches the recorder's [stop]
    event, which is the step [dispatchStop]. *)

Definition stopRecording : M t nat :=
  p <- newPromise ;;
  catch
    (rec <- gets recorder ;;
     match rec with
     | None => settle p (Rejected (Error "No recording in progress"))
     | Some r =>
         update_recorder r (set_onstop (Some p)) ;;;
         recorder_stop r
     end)
    (fun e => settle p (Rejected e)) ;;;
  ret p.

(** The [onstop] handler installed for promise [p]. *)
Definition onstopHandler (p : nat) : M t unit :=
  disable ;;;
  chunks <- gets recordedChunks ;;
  let blob := chunks in
  settle p (Resolved blob).

(** The [ondataavailable] handler. *)
Definition ondataavailableHandler (size : chunk) : M t unit :=
  if 0 <? size then
    modify (fun s => set_recordedChunks (recordedChunks s ++ [size]) s)
  else ret tt.

(** The browser dispatches [dataavailable] on recorder [r]. *)
Definition dispatchDataAvailable (r : nat) (size : chunk) : M t unit :=
  l <- gets recorders ;;
  match l !! r with
  | Some m => if ondataavailable m then ondataavailableHandler size else ret tt
  | None => ret tt
  end.

(** The browser dispatches the queued [stop] event of recorder [r]. *)
Definition dispatchStop (r : nat) : M t unit :=
  l <- gets recorders ;;
  match l !! r with
  | Some m =>
      if stopQueued m then
        update_recorder r (set_stopQueued false) ;;;
        match onstop m with
        | Some p => onstopHandler p
        | None => ret tt
        end
      else ret tt
  | None => ret tt
  end.

(** *** A recording session

    [startRecording], the data the browser delivers while recording,
    [stopRecording], the data delivered on stopping, and the dispatch of
    the [stop] event of the session's recorder; the value is the promise
    that [stopRecording] returned. *)
Definition session (canvas : canvasElement) (audioContext : option audioContext)
    (during final : list chunk) : M t nat :=
  startRecording (Some canvas) audioContext ;;;
  rec <- gets recorder ;;
  let r := default 0%nat rec in
  forEach (dispatchDataAvailable r) during ;;;
  p <- stopRecording ;;
  forEach (dispatchDataAvailable r) final ;;;
  dispatchStop r ;;;
  ret p.

(** How often [method] was entered in a trace. *)
Definition is_call (method : string) (e : event) : bool :=
  match e with
  | Call m => String.eqb m method
  | _ => false
  end.

Definition calls (method : string) (tr : list event) : nat :=
  length (filter (fun e => is_call method e = true) tr).

End BacklightRecordingOptimizer.

(** ** BacklightVisualizer *)

Module BacklightVisualizer.

(** An entry of [edgePoints]: [{y, height, color}] on the left and right
    edges, [{x, width, color}] on the top and bottom ones. *)
Record edgePoint : Type := EdgePoint {
  position : num;
  extent : num;
  color : list num
}.

Record edgePoints : Type := EdgePoints {
  top : list edgePoint;
  right : list edgePoint;
  bottom : list edgePoint;
  left : list edgePoint
}.

(** The options after the constructor has merged its argument over the
    defaults. *)
Record options : Type := Options {
  edgeIntensity : Q;
  colorSaturation : Q;
  useHighContrast : bool;
  mirrorMode : bool
}.

(** [colorPalette] is set by the constructor and assigned nowhere else. *)
Definition colorPalette : list (list Z) :=
  [ [255; 0; 0]; [0; 255; 0]; [0; 0; 255]; [255; 255; 0];
    [255; 0; 255]; [0; 255; 255]; [255; 255; 255] ].

Record t : Type := Make {
  visualizerOptions : options;
  points : edgePoints
}.

Definition constructor (options : options) : t :=
  Make options (EdgePoints [] [] [] []).

Definition set_points (p : edgePoints) (s : t) : t :=
  Make (visualizerOptions s) p.

Definition push_top (x : edgePoint) (p : edgePoints) : edgePoints :=
  EdgePoints (top p ++ [x]) (right p) (bottom p) (left p).
Definition push_right (x : edgePoint) (p : edgePoints) : edgePoints :=
  EdgePoints (top p) (right p ++ [x]) (bottom p) (left p).
Definition push_bottom (x : edgePoint) (p : edgePoints) : edgePoints :=
  EdgePoints (top p) (right p) (bottom p ++ [x]) (left p).
Definition push_left (x : edgePoint) (p : edgePoints) : edgePoints :=
  EdgePoints (top p) (right p) (bottom p) (left p ++ [x]).

(** The canvas calls of [drawCenterVisualization]. *)
Inductive call : Type :=
| FillStyleRgb (channels : list num)
| FillRect (x y w h : num).

Section Rounding.

Variable fl : Q -> Q.

Definition arith (f : Q -> Q -> Q) (a b : num) : num :=
  match a, b with
  | Num x, Num y => Num (fl (f x y))
  | _, _ => NaN
  end.

Definition number (z : Z) : num := Num (inject_Z z).

(** [a > b]; false when either is NaN. *)
Definition greater (a b : num) : bool :=
  match a, b with
  | Num x, Num y => negb (Qle_bool x y)
  | _, _ => false
  end.

(** [Math.floor((i / 16) * length)] *)
Definition bin (i : nat) (len : nat) : Z :=
  Qfloor (fl (fl (inject_Z (Z.of_nat i) / 16) * inject_Z (Z.of_nat len))).

(** [frequencyData[j]]; an index outside the array reads undefined. *)
Definition sample (frequencyData : list Z) (j : Z) : num :=
  if 0 <=? j then
    match frequencyData !! Z.to_nat j with
    | Some v => number v
    | None => NaN
    end
  else NaN.

(** [sum / (endBin - startBin)].  Over an empty range the sum is 0 and the
    quotient is [0 / 0], which is NaN. *)
Definition average (frequencyData : list Z) (startBin endBin : Z) : num :=
  let sum := fold_left (fun sum j => arith Qplus sum (sample frequencyData j))
               (map (fun k => startBin + Z.of_nat k) (seq 0 (Z.to_nat (endBin - startBin))))
               (number 0) in
  if endBin - startBin =? 0 then NaN
  else arith Qdiv sum (number (endBin - startBin)).

(** [color.map(c => Math.min(255, Math.floor(c * saturation)))] *)
Definition saturate (saturation : Q) (c : Z) : num :=
  match arith Qmult (number c) (Num saturation) with
  | Num x => let f := inject_Z (Qfloor x) in if Qle_bool 255 f then Num 255 else Num f
  | NaN => NaN
  end.

(** One turn of the loop of [drawCenterVisualization], for band [i]. *)
Definition drawBar (frequencyData : list Z) (width height : nat) (i : nat)
    (acc : t * list call) : t * list call :=
  let '(s, calls) := acc in
  let barWidth := arith Qdiv (number (Z.of_nat width)) (number 16) in
  let centerHeight := arith Qmult (number (Z.of_nat height)) (Num (6 # 10)) in
  let centerY := arith Qmult (number (Z.of_nat height)) (Num (5 # 10)) in
  let startBin := bin i (length frequencyData) in
  let endBin := bin (S i) (length frequencyData) in
  let average := average frequencyData startBin endBin in
  let barHeight := arith Qmult (arith Qdiv average (number 255)) centerHeight in
  let colorIndex := (i mod length colorPalette)%nat in
  let color := default [] (colorPalette !! colorIndex) in
  let satColor := map (saturate (colorSaturation (visualizerOptions s))) color in
  let barTop := arith Qminus centerY (arith Qdiv barHeight (number 2)) in
  let barBody := arith Qminus barWidth (number 4) in
  let barLeft := arith Qmult (number (Z.of_nat i)) barWidth in
  let calls := calls ++ [FillStyleRgb satColor; FillRect barLeft barTop barBody barHeight] in
  let p := points s in
  let p := if (i <? 4)%nat then push_left (EdgePoint barTop barHeight satColor) p
           else if (12 <=? i)%nat then push_right (EdgePoint barTop barHeight satColor) p
           else p in
  let p := if greater barHeight (arith Qmult (Num (4 # 10)) centerHeight) then
             let p := if (i mod 4 =? 0)%nat
                      then push_top (EdgePoint barLeft barBody satColor) p else p in
             if (i mod 4 =? 2)%nat
             then push_bottom (EdgePoint barLeft barBody satColor) p else p
           else p in
  (set_points p s, calls).

Definition drawCenterVisualization (frequencyData timeData : list Z) (width height : nat)
    (s : t) : t * list call :=
  fold_left (fun acc i => drawBar frequencyData width height i acc) (seq 0 16) (s, []).

End Rounding.

(** *** applyMirrorEffect

    The pixel array is a Uint8ClampedArray: a read outside it is undefined,
    a write outside it is dropped, and what is written is clamped to a
    byte, NaN becoming 0.  Sums of two bytes and their halves are exact. *)

Definition clamp (v : Z) : Z := Z.max 0 (Z.min 255 v).

(** [Math.floor((data[l] + data[r]) / 2)] as the array will store it. *)
Definition pairValue (data : list Z) (l r : nat) : Z :=
  match data !! l, data !! r with
  | Some a, Some b => clamp ((a + b) / 2)
  | _, _ => 0
  end.

(** [data[l] = data[r] = Math.floor((data[l] + data[r]) / 2)] *)
Definition averagePair (data : list Z) (l r : nat) : list Z :=
  let v := pairValue data l r in
  <[l := v]> (<[r := v]> data).

Definition mirrorPixel (width : nat) (data : list Z) (y x : nat) : list Z :=
  let leftIndex := ((y * width + x) * 4)%nat in
  let rightIndex := ((y * width + (width - 1 - x)) * 4)%nat in
  let data := averagePair data leftIndex rightIndex in
  let data := averagePair data (leftIndex + 1) (rightIndex + 1) in
  averagePair data (leftIndex + 2) (rightIndex + 2).

(** The values of [x] with [x < width / 2]. *)
Definition columns (width : nat) : list nat :=
  filter (fun x => (2 * x < width)%nat) (seq 0 width).

Definition mirrorRow (width : nat) (data : list Z) (y : nat) : list Z :=
  fold_left (fun data x => mirrorPixel width data y x) (columns width) data.

Definition mirrorPixels (width height : nat) (data : list Z) : list Z :=
  fold_left (mirrorRow width) (seq 0 height) data.

(** The method, on the context [this.ctx]; its value is the pixel array it
    hands to [putImageData]. *)
Definition applyMirrorEffect (ctx : context) (width height : nat) : outcome (list Z) :=
  match getImageData ctx 0 0 (Z.of_nat width) (Z.of_nat height) with
  | Ret data => Ret (mirrorPixels width height data)
  | Throw e => Throw e
  end.

End BacklightVisualizer.

(** ** BacklightConfigDialog: applying a configuration *)

Module BacklightConfigDialog.

Record config : Type := Config {
  enabled : bool;
  mode : string;
  edgeEmphasis : Q;
  colorSaturation : Q;
  smoothingFactor : Q;
  transitionSpeed : string;
  detectDevices : bool;
  mirrorMode : bool;
  optimizeRecording : bool
}.

Definition defaultConfig : config :=
  Config true "adaptive" (7 # 10) (12 # 10) (3 # 10) "medium" true false true.

(** The body of [applyConfig] on the controller it drives.  Its last
    statement tests [this.backlightSystem.visualization], a property no
    code gives the controller, so the branch is never taken. *)
Definition applyConfigTo (c : config) : M BacklightSystem.t unit :=
  BacklightSystem.toggle (enabled c) ;;;
  BacklightSystem.setMode (mode c) ;;;
  modify (fun s => BacklightSystem.set_tuning (edgeEmphasis c)
                     (BacklightSystem.colorSaturation s)
                     (BacklightSystem.smoothingFactor s) s) ;;;
  modify (fun s => BacklightSystem.set_tuning (BacklightSystem.edgeEmphasis s)
                     (colorSaturation c)
                     (BacklightSystem.smoothingFactor s) s) ;;;
  modify (fun s => BacklightSystem.set_tuning (BacklightSystem.edgeEmphasis s)
                     (BacklightSystem.colorSaturation s)
                     (smoothingFactor c) s) ;;;
  modify (BacklightSystem.set_transitionSpeed (transitionSpeed c)).

(** [applyConfig()], with [this.backlightSystem] possibly missing. *)
Definition applyConfig (backlightSystem : option BacklightSystem.t) (c : config)
    : outcome unit * option BacklightSystem.t * list event :=
  match backlightSystem with
  | None => (Ret tt, None, [])
  | Some b =>
      match applyConfigTo c b with
      | (r, b', tr) => (r, Some b', tr)
      end
  end.

End BacklightConfigDialog.

(** * Properties of BacklightSystem *)

Module BacklightSystemProperties.

Import BacklightSystem.

(** The visualizer a page creates: only [visualizationMode] is among the
    options this code touches. *)
Definition spectrumOptions : Visualizer.options :=
  Visualizer.Options JUndefined JUndefined JUndefined (JStr "spectrum")
                     JUndefined JUndefined.

(** A visualizer whose options do not set [visualizationMode]. *)
Definition unsetOptions : Visualizer.options :=
  Visualizer.Options (JNum 1) (JNum (1 # 2)) (JStr "fast") JUndefined
                     JUndefined JUndefined.

Definition snapshot_of (o : Visualizer.options) : snapshot :=
  Snapshot (Visualizer.colorIntensity o) (Visualizer.edgeFalloff o)
           (Visualizer.transitionSpeed o) (Visualizer.visualizationMode o).

(** The parameter bag of a controller's visualizer. *)
Definition bag (s : t) : option (jsval * jsval * jsval * jsval) :=
  Visualizer.parameterBag <$> visualizer s.

Ltac run := cbv [bind gets modify emit ret throw lift catch state_of trace_of outcome_of
                 modify_options modify_zones fmap option_fmap option_map].

(** The scenario of the design document: [toggle(true)] then
    [toggle(false)] on the page's visualizer. *)
Example toggle_pair_on_spectrum :
  bag (state_of ((toggle true ;;; toggle false) (constructor (Some spectrumOptions))))
  = Some (JUndefined, JUndefined, JUndefined, JStr "spectrum").
Proof. reflexivity. Qed.

Example toggle_true_on_spectrum :
  toggle true (constructor (Some spectrumOptions)) =
    (Ret true,
     Make (Some (Visualizer.Options (JNum (12 # 10)) (JNum (7 # 10)) (JStr "medium")
                   (JStr "backlight") JUndefined JUndefined))
          true "adaptive" (7 # 10) (12 # 10) (3 # 10) "medium"
          (supportedSystems (constructor None)) (edgeZones (constructor None))
          (Some (Snapshot JUndefined JUndefined JUndefined (JStr "spectrum")))
          (JStr "spectrum"),
     [ConsoleLog "Backlight enhancement enabled"]).
Proof. reflexivity. Qed.

(** ** Snapshot and restore *)

(** What [applyOptimizedSettings] leaves behind, field by field. *)
Lemma applyOptimizedSettings_spec (s : t) (o : Visualizer.options) :
  visualizer s = Some o ->
  applyOptimizedSettings s =
    (Ret tt,
     (if String.eqb (backlightMode s) "adaptive" then
        set_visualizer (Some (Visualizer.Options
            (JNum (colorSaturation s)) (JNum (edgeEmphasis s))
            (JStr (transitionSpeed s)) (JStr "backlight")
            (Visualizer.colorSaturation o) (Visualizer.edgeEmphasis o)))
          (set_previousVisualizationMode (Visualizer.visualizationMode o)
            (set_previousSettings (Some (snapshot_of o)) s))
      else
        set_visualizer (Some (Visualizer.Options
            (JNum (colorSaturation s)) (JNum (edgeEmphasis s))
            (JStr (transitionSpeed s)) (Visualizer.visualizationMode o)
            (Visualizer.colorSaturation o) (Visualizer.edgeEmphasis o)))
          (set_previousSettings (Some (snapshot_of o)) s)),
     []).
Proof.
  intros Hv. destruct s as [v en mode em sat sm sp sys ez ps pvm].
  simpl in Hv. subst v. unfold applyOptimizedSettings, enableEdgeEmphasisMode.
  run. simpl. destruct (String.eqb mode "adaptive"); reflexivity.
Qed.

(** What [restoreStandardSettings] leaves behind when a snapshot exists. *)
Lemma restoreStandardSettings_spec (s : t) (o : Visualizer.options) (p : snapshot) :
  visualizer s = Some o ->
  previousSettings s = Some p ->
  restoreStandardSettings s =
    (Ret tt,
     (if truthy (previousVisualizationMode s) then
        set_previousVisualizationMode JNull
          (set_visualizer (Some (Visualizer.Options
              (ps_colorIntensity p) (ps_edgeFalloff p) (ps_transitionSpeed p)
              (previousVisualizationMode s)
              (Visualizer.colorSaturation o) (Visualizer.edgeEmphasis o))) s)
      else
        set_visualizer (Some (Visualizer.Options
            (ps_colorIntensity p) (ps_edgeFalloff p) (ps_transitionSpeed p)
            (Visualizer.visualizationMode o)
            (Visualizer.colorSaturation o) (Visualizer.edgeEmphasis o))) s),
     []).
Proof.
  intros Hv Hp. destruct s as [v en mode em sat sm sp sys ez ps pvm].
  simpl in Hv, Hp. subst v ps. unfold restoreStandardSettings.
  run. simpl. destruct (truthy pvm); reflexivity.
Qed.

Lemma restoreStandardSettings_without_snapshot (s : t) :
  previousSettings s = None ->
  restoreStandardSettings s = (Ret tt, s, []).
Proof.
  intros Hp. destruct s as [v en mode em sat sm sp sys ez ps pvm].
  simpl in Hp. subst ps. unfold restoreStandardSettings. run. simpl.
  destruct v; reflexivity.
Qed.

Lemma restoreStandardSettings_without_visualizer (s : t) :
  visualizer s = None ->
  restoreStandardSettings s = (Ret tt, s, []).
Proof.
  intros Hv. destruct s as [v en mode em sat sm sp sys ez ps pvm].
  simpl in Hv. subst v. reflexivity.
Qed.

(** The option fields of a controller's visualizer. *)
Definition option_field (f : Visualizer.options -> jsval) (s : t) : option jsval :=
  f <$> visualizer s.

(** Where the round trip does hold: no visualization mode is on record
    from an earlier override, and the mode that [applyOptimizedSettings]
    replaces (it does so in adaptive mode only) is a truthy value. *)
Lemma apply_restore_round_trip (s : t) (o : Visualizer.options) :
  visualizer s = Some o ->
  truthy (previousVisualizationMode s) = false ->
  String.eqb (backlightMode s) "adaptive" = false
    \/ truthy (Visualizer.visualizationMode o) = true ->
  visualizer (state_of ((applyOptimizedSettings ;;; restoreStandardSettings) s))
    = Some o.
Proof.
  intros Hv Hpvm Hmode. unfold bind.
  rewrite (applyOptimizedSettings_spec s o Hv).
  destruct s as [v en mode em sat sm sp sys ez ps pvm]. simpl in *. subst v.
  destruct (String.eqb mode "adaptive") eqn:Hm.
  - destruct Hmode as [Hmode | Hmode]; [discriminate |].
    erewrite restoreStandardSettings_spec by reflexivity.
    simpl. rewrite Hmode. destruct o; reflexivity.
  - erewrite restoreStandardSettings_spec by reflexivity.
    simpl. rewrite Hpvm. destruct o; reflexivity.
Qed.

(** The same through [toggle(true)] and [toggle(false)]. *)
Lemma toggle_round_trip (s : t) (o : Visualizer.options) :
  visualizer s = Some o ->
  truthy (previousVisualizationMode s) = false ->
  String.eqb (backlightMode s) "adaptive" = false
    \/ truthy (Visualizer.visualizationMode o) = true ->
  bag (state_of ((toggle true ;;; toggle false) s)) = bag s.
Proof.
  intros Hv Hpvm Hmode.
  destruct s as [v en mode em sat sm sp sys ez ps pvm]. simpl in *. subst v.
  unfold toggle, applyOptimizedSettings, restoreStandardSettings,
    enableEdgeEmphasisMode, bag.
  run. simpl.
  destruct (String.eqb mode "adaptive") eqn:Hm; simpl.
  - destruct Hmode as [Hmode | Hmode]; [discriminate |].
    rewrite Hmode. simpl. destruct o; reflexivity.
  - rewrite Hpvm. simpl. destruct o; reflexivity.
Qed.

(** Where it does not: in adaptive mode, whatever falsy visualization mode
    the visualizer starts with is replaced by ['backlight'] for good. *)
Lemma toggle_pair_loses_falsy_mode (s : t) (o : Visualizer.options) :
  visualizer s = Some o ->
  String.eqb (backlightMode s) "adaptive" = true ->
  truthy (Visualizer.visualizationMode o) = false ->
  option_field Visualizer.visualizationMode
    (state_of ((toggle true ;;; toggle false) s))
    = Some (JStr "backlight").
Proof.
  intros Hv Hm Hvm.
  destruct s as [v en mode em sat sm sp sys ez ps pvm]. simpl in *. subst v.
  unfold toggle, applyOptimizedSettings, restoreStandardSettings,
    enableEdgeEmphasisMode, option_field.
  run. simpl. rewrite Hm. simpl. rewrite Hvm. reflexivity.
Qed.

(** C2 (the round trip of the parameter bag), evaluated where the code
    breaks it.  On a new controller (adaptive mode) over a visualizer whose
    [visualizationMode] is unset, [toggle(true)] followed by
    [toggle(false)] restores colour intensity, edge falloff and transition
    speed but leaves [visualizationMode] at ['backlight']: the mode that
    [enableEdgeEmphasisMode] put on record is undefined, and
    [restoreStandardSettings] takes a falsy record for no record. *)
Theorem toggle_pair_keeps_backlight_mode :
  let s0 := constructor (Some unsetOptions) in
  let s2 := state_of ((toggle true ;;; toggle false) s0) in
  backlightMode s0 = "adaptive"
  /\ bag s0 = Some (JNum 1, JNum (1 # 2), JStr "fast", JUndefined)
  /\ bag s2 = Some (JNum 1, JNum (1 # 2), JStr "fast", JStr "backlight")
  /\ bag s2 <> bag s0.
Proof.
  vm_compute. repeat split; discriminate.
Qed.

(** C3, as amended.  A controller holds one snapshot, in one field, and
    [applyOptimizedSettings] overwrites it on every call, whether or not
    one is outstanding: without restoring first and without a diagnostic,
    the snapshot becomes the parameters as they are at this call, and those
    are the colour intensity, edge falloff and transition speed that the
    next [restoreStandardSettings] writes back. *)
Theorem applyOptimizedSettings_replaces_snapshot (s : t) (o : Visualizer.options) :
  visualizer s = Some o ->
  let r := applyOptimizedSettings s in
  let s' := state_of (restoreStandardSettings (state_of r)) in
  outcome_of r = Ret tt
  /\ trace_of r = []
  /\ previousSettings (state_of r) = Some (snapshot_of o)
  /\ option_field Visualizer.colorIntensity s' = Some (Visualizer.colorIntensity o)
  /\ option_field Visualizer.edgeFalloff s' = Some (Visualizer.edgeFalloff o)
  /\ option_field Visualizer.transitionSpeed s' = Some (Visualizer.transitionSpeed o).
Proof.
  intros Hv. cbv zeta. rewrite (applyOptimizedSettings_spec s o Hv).
  destruct s as [v en mode em sat sm sp sys ez ps pvm]. simpl in *. subst v.
  destruct (String.eqb mode "adaptive");
    (erewrite restoreStandardSettings_spec by reflexivity); simpl;
    match goal with |- context [truthy ?x] => destruct (truthy x) end;
    repeat split; reflexivity.
Qed.

Lemma applyOptimizedSettings_replaces_snapshot_witness :
  previousSettings
    (state_of (applyOptimizedSettings
      (state_of (applyOptimizedSettings (constructor (Some spectrumOptions))))))
  = Some (Snapshot (JNum (12 # 10)) (JNum (7 # 10)) (JStr "medium") (JStr "backlight")).
Proof.
  exact (proj1 (proj2 (proj2
    (applyOptimizedSettings_replaces_snapshot
       (state_of (applyOptimizedSettings (constructor (Some spectrumOptions))))
       (Visualizer.Options (JNum (12 # 10)) (JNum (7 # 10)) (JStr "medium")
          (JStr "backlight") JUndefined JUndefined)
       eq_refl)))).
Defined.

(** C3 as stated fails: after [toggle(true)] a snapshot of the standard
    parameters is outstanding; a second [toggle(true)] replaces it by a
    snapshot of the overridden parameters, logging nothing but the usual
    line, and [toggle(false)] then restores the overridden parameters, not
    the standard ones. *)
Lemma second_toggle_replaces_snapshot :
  let s0 := constructor (Some spectrumOptions) in
  let s1 := state_of (toggle true s0) in
  let r2 := toggle true s1 in
  let s3 := state_of (toggle false (state_of r2)) in
  previousSettings s1 = Some (snapshot_of spectrumOptions)
  /\ previousSettings (state_of r2) <> previousSettings s1
  /\ trace_of r2 = [ConsoleLog "Backlight enhancement enabled"]
  /\ bag s3 = Some (JNum (12 # 10), JNum (7 # 10), JStr "medium", JStr "backlight")
  /\ bag s3 <> bag s0.
Proof.
  vm_compute. repeat split; discriminate.
Qed.

(** C4, as amended.  With a snapshot on record, [restoreStandardSettings]
    writes colour intensity, edge falloff and transition speed back from it
    verbatim and keeps the snapshot on record; the visualization mode is
    not taken from the snapshot but from [previousVisualizationMode]: a
    truthy one is written back and reset to null, an undefined or null one
    leaves the mode alone.  With no snapshot on record the call changes
    nothing and raises nothing. *)
Theorem restoreStandardSettings_writes_back (s : t) (o : Visualizer.options) (p : snapshot) :
  visualizer s = Some o ->
  previousSettings s = Some p ->
  let r := restoreStandardSettings s in
  let s' := state_of r in
  (outcome_of r = Ret tt
   /\ option_field Visualizer.colorIntensity s' = Some (ps_colorIntensity p)
   /\ option_field Visualizer.edgeFalloff s' = Some (ps_edgeFalloff p)
   /\ option_field Visualizer.transitionSpeed s' = Some (ps_transitionSpeed p)
   /\ previousSettings s' = Some p
   /\ (truthy (previousVisualizationMode s) = true ->
       option_field Visualizer.visualizationMode s' = Some (previousVisualizationMode s)
       /\ previousVisualizationMode s' = JNull)
   /\ (previousVisualizationMode s = JUndefined \/ previousVisualizationMode s = JNull ->
       option_field Visualizer.visualizationMode s' = Some (Visualizer.visualizationMode o)
       /\ previousVisualizationMode s' = previousVisualizationMode s))
  /\ (forall s0 : t, previousSettings s0 = None ->
        restoreStandardSettings s0 = (Ret tt, s0, [])).
Proof.
  intros Hv Hp. cbv zeta. split.
  - rewrite (restoreStandardSettings_spec s o p Hv Hp).
    destruct s as [v en mode em sat sm sp sys ez ps pvm]. simpl in *. subst v ps.
    destruct (truthy pvm) eqn:Ht; simpl;
      (repeat (split; [reflexivity |])); split.
    + intros _. split; reflexivity.
    + intros [-> | ->]; discriminate Ht.
    + intros Hf. discriminate Hf.
    + intros _. split; reflexivity.
  - exact restoreStandardSettings_without_snapshot.
Qed.

Lemma restoreStandardSettings_writes_back_witness :
  let s1 := state_of (toggle true (constructor (Some spectrumOptions))) in
  previousSettings (state_of (restoreStandardSettings s1))
    = Some (snapshot_of spectrumOptions)
  /\ restoreStandardSettings (constructor (Some spectrumOptions))
      = (Ret tt, constructor (Some spectrumOptions), []).
Proof.
  pose proof (restoreStandardSettings_writes_back
    (state_of (toggle true (constructor (Some spectrumOptions))))
    (Visualizer.Options (JNum (12 # 10)) (JNum (7 # 10)) (JStr "medium")
       (JStr "backlight") JUndefined JUndefined)
    (snapshot_of spectrumOptions) eq_refl eq_refl) as [H1 H2].
  split.
  - exact (proj1 (proj2 (proj2 (proj2 (proj2 H1))))).
  - exact (H2 (constructor (Some spectrumOptions)) eq_refl).
Defined.

(** C4 as stated fails: the snapshot is still on record after the
    restore. *)
Lemma restore_keeps_snapshot :
  let s1 := state_of (toggle true (constructor (Some spectrumOptions))) in
  previousSettings (state_of (restoreStandardSettings s1))
    = Some (snapshot_of spectrumOptions)
  /\ previousSettings (state_of (restoreStandardSettings s1)) <> None.
Proof.
  vm_compute. split; [reflexivity | discriminate].
Qed.

(** ** Array writes and the sampling loop *)

Lemma length_array_set_inside {A} (i : nat) (v : A) (a : list (option A)) :
  (i < length a)%nat -> length (array_set i v a) = length a.
Proof.
  intros Hi. unfold array_set. rewrite decide_True by exact Hi.
  apply length_insert.
Qed.

(** A write past the end does grow the array. *)
Lemma length_array_set_outside {A} (i : nat) (v : A) (a : list (option A)) :
  (length a <= i)%nat -> length (array_set i v a) = S i.
Proof.
  intros Hi. unfold array_set. rewrite decide_False by lia.
  rewrite !length_app, length_replicate. simpl. lia.
Qed.

Lemma lookup_array_set_inside {A} (i j : nat) (v : A) (a : list (option A)) :
  (i < length a)%nat ->
  array_set i v a !! j = if decide (j = i) then Some (Some v) else a !! j.
Proof.
  intros Hi. unfold array_set. rewrite decide_True by exact Hi.
  destruct (decide (j = i)) as [-> | Hne].
  - apply list_lookup_insert_eq. exact Hi.
  - apply list_lookup_insert_ne. congruence.
Qed.

(** The loop guard keeps every write inside the array, so the loop leaves
    the length alone. *)
Lemma length_sampleLoop (pixel : nat -> nat -> color) (i : nat) (z : zone) :
  length (sampleLoop pixel i z) = length z.
Proof.
  funelim (sampleLoop pixel i z).
  - match goal with IH : length (sampleLoop _ _ _) = _ |- _ => rewrite IH end.
    apply length_array_set_inside. assumption.
  - reflexivity.
Qed.

(** Slots below the starting index are kept, every slot from it on is
    overwritten with the pixel sampled for it. *)
Lemma lookup_sampleLoop (pixel : nat -> nat -> color) (i : nat) (z : zone) (j : nat) :
  (j < length z)%nat ->
  sampleLoop pixel i z !! j =
    if decide (j < i)%nat then z !! j else Some (Some (pixel j (length z))).
Proof.
  funelim (sampleLoop pixel i z); intros Hj.
  - match goal with
    | IH : forall k : nat, (k < length ?a)%nat -> _ |- _ =>
        rewrite (IH j) by (rewrite length_array_set_inside; assumption)
    end.
    rewrite length_array_set_inside by assumption.
    destruct (decide (j < S i)%nat) as [Hlt | Hge].
    + rewrite lookup_array_set_inside by assumption.
      destruct (decide (j = i)) as [-> | Hne].
      * rewrite decide_False by lia. reflexivity.
      * rewrite decide_True by lia. reflexivity.
    + rewrite decide_False by lia. reflexivity.
  - rewrite decide_True by lia. reflexivity.
Qed.

(** ** Quantities a method leaves alone

    [keeps f m]: whatever [m] does, [f] of the state is afterwards what it
    was before.  The combinators of the method monad preserve the
    property, which settles most methods by their shape. *)

Definition keeps {X A} (f : t -> X) (m : M t A) : Prop :=
  forall s, f (state_of (m s)) = f s.

Lemma keeps_ret {X A} (f : t -> X) (a : A) : keeps f (ret a).
Proof. intros s. reflexivity. Qed.

Lemma keeps_gets {X A} (f : t -> X) (g : t -> A) : keeps f (gets g).
Proof. intros s. reflexivity. Qed.

Lemma keeps_emit {X} (f : t -> X) (e : event) : keeps f (emit e).
Proof. intros s. reflexivity. Qed.

Lemma keeps_throw {X A} (f : t -> X) (e : exn) : keeps f (throw (A := A) e).
Proof. intros s. reflexivity. Qed.

Lemma keeps_lift {X A} (f : t -> X) (o : outcome A) : keeps f (lift o).
Proof. intros s. reflexivity. Qed.

Lemma keeps_modify {X} (f : t -> X) (g : t -> t) :
  (forall s, f (g s) = f s) -> keeps f (modify g).
Proof. intros Hg s. apply Hg. Qed.

Lemma keeps_bind {X A B} (f : t -> X) (m : M t A) (k : A -> M t B) :
  keeps f m -> (forall a, keeps f (k a)) -> keeps f (bind m k).
Proof.
  intros Hm Hk s. unfold bind. specialize (Hm s).
  destruct (m s) as [[[a | e] s1] tr1]; unfold state_of in *; simpl in *.
  - specialize (Hk a s1). destruct (k a s1) as [[r s2] tr2].
    unfold state_of in Hk. simpl in *. congruence.
  - exact Hm.
Qed.

Lemma keeps_forEach {X A} (f : t -> X) (g : A -> M t unit) (l : list A) :
  (forall a, keeps f (g a)) -> keeps f (forEach g l).
Proof.
  intros Hg. induction l as [| a l IH]; simpl.
  - apply keeps_ret.
  - apply keeps_bind; [apply Hg | intros _; exact IH].
Qed.

Create HintDb keeps.
#[local] Hint Resolve keeps_ret keeps_gets keeps_emit keeps_throw keeps_lift
  keeps_forEach : keeps.

(** Peel a method along its binds and its case distinctions. *)
Ltac keeps_step :=
  match goal with
  | |- keeps _ (bind _ _) => apply keeps_bind; [| intros ?]
  | |- keeps _ (if ?b then _ else _) => destruct b
  | |- keeps _ (match ?x with _ => _ end) => destruct x
  | |- keeps _ (modify _) => apply keeps_modify; intros ?; reflexivity
  | |- keeps _ (modify_options _) => apply keeps_modify; intros ?; reflexivity
  | |- keeps _ (forEach _ _) => apply keeps_forEach; intros ?
  | |- keeps _ _ => solve [auto with keeps]
  end.
Ltac keeps_tac := repeat keeps_step.

(** The four zone arrays as a whole, and their lengths. *)
Definition lengths (s : t) : nat * nat * nat * nat :=
  (length (top (edgeZones s)), length (bottom (edgeZones s)),
   length (left (edgeZones s)), length (right (edgeZones s))).

Lemma keeps_lengths_of_zones {A} (m : M t A) : keeps edgeZones m -> keeps lengths m.
Proof. intros H s. unfold lengths. rewrite (H s). reflexivity. Qed.

Lemma toggle_keeps_zones (enable : bool) : keeps edgeZones (toggle enable).
Proof.
  unfold toggle, applyOptimizedSettings, restoreStandardSettings,
    enableEdgeEmphasisMode.
  keeps_tac.
Qed.

Lemma applyOptimizedSettings_keeps_zones : keeps edgeZones applyOptimizedSettings.
Proof. unfold applyOptimizedSettings, enableEdgeEmphasisMode. keeps_tac. Qed.

Lemma restoreStandardSettings_keeps_zones : keeps edgeZones restoreStandardSettings.
Proof. unfold restoreStandardSettings. keeps_tac. Qed.

Lemma enableEdgeEmphasisMode_keeps_zones : keeps edgeZones enableEdgeEmphasisMode.
Proof. unfold enableEdgeEmphasisMode. keeps_tac. Qed.

Lemma connectToSystem_keeps_zones (d : descriptor) : keeps edgeZones (connectToSystem d).
Proof.
  unfold connectToSystem, setupGoveeConnection, setupPhilipsHueConnection,
    setupWLEDConnection.
  keeps_tac.
Qed.

Lemma onScanResolved_keeps_zones : keeps edgeZones onScanResolved.
Proof.
  unfold onScanResolved. keeps_tac. apply connectToSystem_keeps_zones.
Qed.

Lemma setMode_keeps_zones (mode : string) : keeps edgeZones (setMode mode).
Proof.
  unfold setMode, attemptDirectConnection, scanForBacklightSystems. keeps_tac.
Qed.

Lemma formatDataForGovee_keeps_zones : keeps edgeZones formatDataForGovee.
Proof. unfold formatDataForGovee. keeps_tac. Qed.

Lemma sendColorDataToConnectedSystems_keeps_zones :
  keeps edgeZones sendColorDataToConnectedSystems.
Proof.
  unfold sendColorDataToConnectedSystems, sendToGovee, sendToPhilipsHue,
    sendToWLED, formatDataForGovee.
  keeps_tac.
Qed.

(** ** Frames *)

Section Frames.

Variable fl : Q -> Q.

(** The zone arrays after a sampling pass over the pixel array [data]. *)
Definition sampled (width height : Z) (data : list Z) (e : zones) : zones :=
  Zones (sampleLoop (topPixel fl width data) 0 (top e))
        (sampleLoop (rightPixel fl width height data) 0 (right e))
        (sampleLoop (bottomPixel fl width height data) 0 (bottom e))
        (sampleLoop (leftPixel fl width height data) 0 (left e)).

Lemma sampleEdgeColors_spec (ctx : context) (width height : Z) (s : t) :
  sampleEdgeColors fl ctx width height s =
    match getImageData ctx 0 0 width height with
    | Ret data =>
        (Ret tt, set_edgeZones (sampled width height data (edgeZones s)) s,
         [GetImageData 0 0 width height])
    | Throw e => (Throw e, s, [GetImageData 0 0 width height])
    end.
Proof.
  unfold sampleEdgeColors. run.
  destruct (getImageData ctx 0 0 width height) as [data | e]; reflexivity.
Qed.

Lemma sampleEdgeColors_keeps_lengths (ctx : context) (width height : Z) :
  keeps lengths (sampleEdgeColors fl ctx width height).
Proof.
  intros s. rewrite sampleEdgeColors_spec.
  destruct (getImageData ctx 0 0 width height) as [data | e]; [| reflexivity].
  unfold lengths, sampled, state_of. simpl.
  rewrite !length_sampleLoop. reflexivity.
Qed.

Lemma getAverageColorString_keeps_zones (colorArray : zone) (alpha : Q) :
  keeps edgeZones (getAverageColorString fl colorArray alpha).
Proof.
  unfold getAverageColorString.
  destruct (totals fl colorArray (Num 0, Num 0, Num 0)) as [[totalR totalG] totalB].
  keeps_tac.
Qed.

Lemma applyEdgeEmphasis_keeps_zones (ctx : context) (width height : Z) :
  keeps edgeZones (applyEdgeEmphasis fl ctx width height).
Proof.
  unfold applyEdgeEmphasis.
  repeat first
    [ apply getAverageColorString_keeps_zones
    | apply keeps_emit
    | apply keeps_gets
    | apply keeps_bind; [| intros ?] ].
Qed.

Lemma processFrame_keeps_lengths (ctx : context) (width height : Z) :
  keeps lengths (processFrame fl ctx width height).
Proof.
  unfold processFrame.
  apply keeps_bind; [apply keeps_gets | intros enabled].
  destruct (negb enabled); [apply keeps_ret |].
  apply keeps_bind; [apply sampleEdgeColors_keeps_lengths | intros _].
  apply keeps_bind; [apply keeps_gets | intros mode].
  apply keeps_bind.
  - destruct (String.eqb mode "direct"); [| apply keeps_ret].
    apply keeps_lengths_of_zones, sendColorDataToConnectedSystems_keeps_zones.
  - intros _. apply keeps_bind; [apply keeps_gets | intros mode'].
    destruct (String.eqb mode' "adaptive" || String.eqb mode' "ambilight");
      [| apply keeps_ret].
    apply keeps_lengths_of_zones, applyEdgeEmphasis_keeps_zones.
Qed.

(** Everything that can happen to a controller: its methods, the callback
    of the device scan, and the configuration dialog's direct writes of the
    tuning fields. *)
Inductive op : Type :=
| InitializeEdgeZones
| Toggle (enable : bool)
| SetMode (mode : string)
| ApplyOptimizedSettings
| RestoreStandardSettings
| EnableEdgeEmphasisMode
| AttemptDirectConnection
| OnScanResolved
| ConnectToSystem (system : descriptor)
| ProcessFrame (ctx : context) (width height : Z)
| SampleEdgeColors (ctx : context) (width height : Z)
| SendColorDataToConnectedSystems
| FormatDataForGovee
| ApplyEdgeEmphasis (ctx : context) (width height : Z)
| GetAverageColorString (colorArray : zone) (alpha : Q)
| WriteTuning (emphasis saturation smoothing : Q) (speed : string).

Definition perform (o : op) (s : t) : t :=
  match o with
  | InitializeEdgeZones => state_of (initializeEdgeZones s)
  | Toggle enable => state_of (toggle enable s)
  | SetMode mode => state_of (setMode mode s)
  | ApplyOptimizedSettings => state_of (applyOptimizedSettings s)
  | RestoreStandardSettings => state_of (restoreStandardSettings s)
  | EnableEdgeEmphasisMode => state_of (enableEdgeEmphasisMode s)
  | AttemptDirectConnection => state_of (attemptDirectConnection s)
  | OnScanResolved => state_of (onScanResolved s)
  | ConnectToSystem system => state_of (connectToSystem system s)
  | ProcessFrame ctx width height => state_of (processFrame fl ctx width height s)
  | SampleEdgeColors ctx width height => state_of (sampleEdgeColors fl ctx width height s)
  | SendColorDataToConnectedSystems => state_of (sendColorDataToConnectedSystems s)
  | FormatDataForGovee => state_of (formatDataForGovee s)
  | ApplyEdgeEmphasis ctx width height => state_of (applyEdgeEmphasis fl ctx width height s)
  | GetAverageColorString colorArray alpha =>
      state_of (getAverageColorString fl colorArray alpha s)
  | WriteTuning emphasis saturation smoothing speed =>
      set_transitionSpeed speed (set_tuning emphasis saturation smoothing s)
  end.

Definition initialLengths : nat * nat * nat * nat := (16, 16, 9, 9)%nat.

Lemma perform_lengths (o : op) (s : t) :
  lengths (perform o s) =
    match o with
    | InitializeEdgeZones => initialLengths
    | _ => lengths s
    end.
Proof.
  destruct o; simpl; try reflexivity.
  - apply keeps_lengths_of_zones, toggle_keeps_zones.
  - apply keeps_lengths_of_zones, setMode_keeps_zones.
  - apply keeps_lengths_of_zones, applyOptimizedSettings_keeps_zones.
  - apply keeps_lengths_of_zones, restoreStandardSettings_keeps_zones.
  - apply keeps_lengths_of_zones, enableEdgeEmphasisMode_keeps_zones.
  - apply keeps_lengths_of_zones, onScanResolved_keeps_zones.
  - apply keeps_lengths_of_zones, connectToSystem_keeps_zones.
  - apply processFrame_keeps_lengths.
  - apply sampleEdgeColors_keeps_lengths.
  - apply keeps_lengths_of_zones, sendColorDataToConnectedSystems_keeps_zones.
  - apply keeps_lengths_of_zones, formatDataForGovee_keeps_zones.
  - apply keeps_lengths_of_zones, applyEdgeEmphasis_keeps_zones.
  - apply keeps_lengths_of_zones, getAverageColorString_keeps_zones.
Qed.

Lemma run_lengths (ops : list op) (s : t) :
  lengths s = initialLengths ->
  lengths (fold_left (fun s o => perform o s) ops s) = initialLengths.
Proof.
  revert s. induction ops as [| o ops IH]; intros s Hs; simpl.
  - exact Hs.
  - apply IH. rewrite perform_lengths. destruct o; first [reflexivity | exact Hs].
Qed.

(** C9.  The constructor gives the four zone arrays the lengths 16, 16, 9
    and 9; every operation on a controller leaves the four lengths as they
    are ([initializeEdgeZones] sets them to the same 16, 16, 9 and 9), so
    they stay fixed along every sequence of operations; and a call of
    [sampleEdgeColors], for a frame of any width and height, leaves all four
    lengths unchanged. *)
Theorem edge_zone_lengths_fixed :
  (forall v, lengths (constructor v) = initialLengths)
  /\ (forall o s, lengths (perform o s) =
        match o with InitializeEdgeZones => initialLengths | _ => lengths s end)
  /\ (forall v ops,
        lengths (fold_left (fun s o => perform o s) ops (constructor v)) = initialLengths)
  /\ (forall ctx width height s,
        lengths (state_of (sampleEdgeColors fl ctx width height s)) = lengths s).
Proof.
  split; [| split; [| split]].
  - intros v. reflexivity.
  - exact perform_lengths.
  - intros v ops. apply run_lengths. reflexivity.
  - intros ctx width height s. apply sampleEdgeColors_keeps_lengths.
Qed.

(** C10.  While the system is disabled, [processFrame] returns at once: the
    state (the zone arrays with it) is untouched and nothing is asked of the
    canvas or sent to a device, whatever the mode. *)
Theorem processFrame_disabled (ctx : context) (width height : Z) (s : t) :
  isEnabled s = false ->
  processFrame fl ctx width height s = (Ret tt, s, []).
Proof.
  intros Hen. unfold processFrame. run. rewrite Hen. reflexivity.
Qed.

End Frames.

Lemma processFrame_disabled_witness :
  processFrame (fun q => q) (canvasContext 8 8 []) 8 8
    (set_backlightMode "direct" (constructor (Some spectrumOptions)))
  = (Ret tt, set_backlightMode "direct" (constructor (Some spectrumOptions)), []).
Proof.
  apply (processFrame_disabled (fun q => q)). reflexivity.
Defined.

(** ** Degenerate frames *)

(** C7, as amended.  [sampleEdgeColors] has no short-circuit for a frame of
    zero width or height: it asks the canvas for the frame's pixels first,
    the canvas rejects the empty rectangle with an IndexSizeError, and the
    error leaves [sampleEdgeColors], and [processFrame] when the system is
    enabled, as an exception.  The sampling loops are not reached, so every
    slot of the four zone arrays is left as it was. *)
Theorem sampleEdgeColors_degenerate_frame
    (fl : Q -> Q) (cw ch : Z) (pixels : list Z) (width height : Z) (s : t) :
  width = 0 \/ height = 0 ->
  sampleEdgeColors fl (canvasContext cw ch pixels) width height s
    = (Throw IndexSizeError, s, [GetImageData 0 0 width height])
  /\ (isEnabled s = true ->
      processFrame fl (canvasContext cw ch pixels) width height s
        = (Throw IndexSizeError, s, [GetImageData 0 0 width height])).
Proof.
  intros Hdeg.
  assert (Hget : getImageData (canvasContext cw ch pixels) 0 0 width height
                 = Throw IndexSizeError).
  { simpl. destruct Hdeg as [-> | ->]; [reflexivity |].
    rewrite orb_true_r. reflexivity. }
  assert (Hsample : sampleEdgeColors fl (canvasContext cw ch pixels) width height s
                    = (Throw IndexSizeError, s, [GetImageData 0 0 width height])).
  { rewrite sampleEdgeColors_spec, Hget. reflexivity. }
  split; [exact Hsample |].
  intros Hen. unfold processFrame, bind at 1, gets at 1. rewrite Hen. simpl.
  unfold bind at 1. rewrite Hsample. reflexivity.
Qed.

Lemma sampleEdgeColors_degenerate_frame_witness :
  sampleEdgeColors (fun q => q) (canvasContext 8 8 []) 0 8 (constructor None)
    = (Throw IndexSizeError, constructor None, [GetImageData 0 0 0 8]).
Proof.
  exact (proj1 (sampleEdgeColors_degenerate_frame
                  (fun q => q) 8 8 [] 0 8 (constructor None) (or_introl eq_refl))).
Defined.

(** A context that answers a degenerate request with an empty pixel array
    instead of rejecting it. *)
Definition lenientContext : context :=
  Context (fun sx sy sw sh => Ret []).

(** C7 as stated fails.  On a frame of width 0 the call on a canvas raises
    an IndexSizeError; and were the request answered with an empty pixel
    array, the loops would run and overwrite every slot with undefined
    channels. *)
Lemma degenerate_frame_raises :
  let s := constructor None in
  outcome_of (sampleEdgeColors (fun q => q) (canvasContext 8 8 []) 0 8 s)
    = Throw IndexSizeError
  /\ outcome_of (sampleEdgeColors (fun q => q) (canvasContext 8 8 []) 0 8 s) <> Ret tt
  /\ top (edgeZones (state_of (sampleEdgeColors (fun q => q) lenientContext 0 8 s)))
     = replicate 16 (Some (None, None, None))
  /\ edgeZones (state_of (sampleEdgeColors (fun q => q) lenientContext 0 8 s))
     <> edgeZones s.
Proof.
  vm_compute. repeat split; discriminate.
Qed.

(** ** Dispatch in direct mode *)

Section Dispatch.

Variable fl : Q -> Q.

(** C5, as amended.  In a frame's dispatch the Govee payload carries the raw
    sample of one zone, the middle one of the top edge (index
    [floor(length / 2)]), exactly as the sampling pass has just read it from
    the pixel array: it is not averaged over the zone array and the
    saturation is not applied.  For Philips Hue and WLED no payload is built
    at all, only a log line is written. *)
Theorem govee_payload_is_raw_sample
    (ctx : context) (width height : Z) (data : list Z) (s : t) :
  getImageData ctx 0 0 width height = Ret data ->
  (0 < length (top (edgeZones s)))%nat ->
  let n := length (top (edgeZones s)) in
  let s1 := state_of (sampleEdgeColors fl ctx width height s) in
  let pixelIndex := (along fl (n / 2) n width + 2 * width) * 4 in
  formatDataForGovee s1
    = (Ret (GoveeData "H6199" "H6199" "color"
              (dataAt data pixelIndex) (dataAt data (pixelIndex + 1))
              (dataAt data (pixelIndex + 2))),
       s1, [])
  /\ (forall x s', sendToPhilipsHue x s'
         = (Ret tt, s', [ConsoleLog "Sending color data to Philips Hue"]))
  /\ (forall x s', sendToWLED x s'
         = (Ret tt, s', [ConsoleLog "Sending color data to WLED"])).
Proof.
  intros Hget Hlen. cbv zeta. split; [| split; reflexivity].
  rewrite sampleEdgeColors_spec, Hget.
  assert (Hmid : (length (top (edgeZones s)) / 2 < length (top (edgeZones s)))%nat)
    by (apply Nat.div_lt; lia).
  unfold formatDataForGovee. run. cbn -[Nat.div].
  rewrite length_sampleLoop.
  rewrite lookup_sampleLoop by exact Hmid.
  rewrite decide_False by lia.
  reflexivity.
Qed.

End Dispatch.

Definition gradient : list Z := map Z.of_nat (seq 0 (4 * 8 * 8)).

Lemma govee_payload_is_raw_sample_witness :
  let s := constructor None in
  let s1 := state_of (sampleEdgeColors (fun q => q) (canvasContext 8 8 gradient) 8 8 s) in
  formatDataForGovee s1
    = (Ret (GoveeData "H6199" "H6199" "color" (Some 80) (Some 81) (Some 82)), s1, []).
Proof.
  exact (proj1 (govee_payload_is_raw_sample (fun q => q)
                  (canvasContext 8 8 gradient) 8 8
                  (canvasRect 8 8 gradient 0 0 8 8) (constructor None)
                  eq_refl (Nat.lt_0_succ 15))).
Defined.

(** A sampling pass over an 8 by 8 frame whose bytes count up from 0: the
    third zone of the left edge reads the pixel at column 2 of row
    [floor(2 / 9 * 8) = 1]. *)
Example sampleEdgeColors_gradient_left :
  left (edgeZones (state_of
    (sampleEdgeColors (fun q => q) (canvasContext 8 8 gradient) 8 8 (constructor None))))
    !! 2%nat
  = Some (Some (Some 40, Some 41, Some 42)).
Proof. reflexivity. Qed.

(** A frame in direct mode once the scan has connected the Govee device:
    the pixels are read, the Govee branch runs, nothing is drawn. *)
Example processFrame_direct_trace :
  trace_of ((toggle true ;;; setMode "direct" ;;; onScanResolved ;;;
             processFrame (fun q => q) (canvasContext 8 8 gradient) 8 8)
            (constructor None))
  = [ ConsoleLog "Backlight enhancement enabled";
      ConsoleLog "Scanning for backlight systems...";
      SetTimeout 1000;
      ConsoleLog "Backlight mode set to: direct";
      ConsoleLog "Available backlight systems:";
      ConsoleLog "Attempting to connect to Govee at 192.168.1.100";
      ConsoleLog "Setting up Govee connection";
      ConsoleLog "Connected to Govee";
      GetImageData 0 0 8 8;
      ConsoleLog "Sending color data to Govee" ].
Proof. reflexivity. Qed.

(** Two controllers whose top zones hold the same colours in a different
    order. *)
Definition zonesWith (a b : Z) : zones :=
  let zero : option color := Some (Some 0, Some 0, Some 0) in
  Zones (<[7%nat := Some (Some a, Some 0, Some 0)]>
           (<[8%nat := Some (Some b, Some 0, Some 0)]> (replicate 16 zero)))
        (replicate 9 zero) (replicate 16 zero) (replicate 9 zero).

(** C5 as stated fails: the two controllers agree on the aggregated colour
    of every edge, yet the Govee payloads built from them differ, and
    neither is the aggregated colour of the top edge. *)
Lemma govee_payload_not_aggregated :
  let sA := set_edgeZones (zonesWith 20 10) (constructor None) in
  let sB := set_edgeZones (zonesWith 10 20) (constructor None) in
  let aggregate (s : t) (edge : zones -> zone) :=
    outcome_of (getAverageColorString (fun q => q) (edge (edgeZones s)) 1 s) in
  aggregate sA top = aggregate sB top
  /\ aggregate sA right = aggregate sB right
  /\ aggregate sA bottom = aggregate sB bottom
  /\ aggregate sA left = aggregate sB left
  /\ aggregate sA top = Ret (Rgba (Num 1) (Num 0) (Num 0) 1)
  /\ outcome_of (formatDataForGovee sA)
     = Ret (GoveeData "H6199" "H6199" "color" (Some 10) (Some 0) (Some 0))
  /\ outcome_of (formatDataForGovee sB)
     = Ret (GoveeData "H6199" "H6199" "color" (Some 20) (Some 0) (Some 0))
  /\ outcome_of (formatDataForGovee sA) <> outcome_of (formatDataForGovee sB).
Proof.
  vm_compute. repeat split; discriminate.
Qed.

(** ** The aggregated colour *)

(** A slot holding a triple of bytes. *)
Definition byte_valued (slot : option color) : Prop :=
  match slot with
  | Some (Some r, Some g, Some b) =>
      (0 <= r <= 255) /\ (0 <= g <= 255) /\ (0 <= b <= 255)
  | _ => False
  end.

(** A finite number between 0 and 255. *)
Definition in_byte_range (a : num) : Prop :=
  match a with
  | Num q => (0 <= q)%Q /\ (q <= 255)%Q
  | NaN => False
  end.

Definition nonnegative (a : num) : Prop :=
  match a with
  | Num q => (0 <= q)%Q
  | NaN => False
  end.

Section Aggregate.

Variable fl : Q -> Q.

(** Rounding to the nearest double does not turn a non-negative real into
    a negative one. *)
Hypothesis fl_nonneg : forall x : Q, (0 <= x)%Q -> (0 <= fl x)%Q.

Lemma num_add_nonneg (a : num) (z : Z) :
  nonnegative a -> 0 <= z -> nonnegative (num_add fl a (num_of_channel (Some z))).
Proof using fl_nonneg.
  destruct a as [x |]; simpl; [| tauto].
  intros Hx Hz. apply fl_nonneg.
  assert (Hq : (inject_Z 0 <= inject_Z z)%Q) by (rewrite <- Zle_Qle; exact Hz).
  change (inject_Z 0) with 0%Q in Hq. lra.
Qed.

Lemma totals_nonneg (colorArray : zone) (accR accG accB : num) :
  Forall byte_valued colorArray ->
  nonnegative accR -> nonnegative accG -> nonnegative accB ->
  match totals fl colorArray (accR, accG, accB) with
  | (totalR, totalG, totalB) =>
      nonnegative totalR /\ nonnegative totalG /\ nonnegative totalB
  end.
Proof using fl_nonneg.
  intros Hall. revert accR accG accB.
  induction Hall as [| slot rest Hslot _ IH]; intros accR accG accB HR HG HB.
  - simpl. auto.
  - destruct slot as [[[[r |] [g |]] [b |]] |]; simpl in Hslot; try contradiction.
    destruct Hslot as [[Hr _] [[Hg _] [Hb _]]].
    simpl. apply IH; apply num_add_nonneg; assumption.
Qed.

Lemma math_floor_nonneg (a : num) : nonnegative a -> nonnegative (math_floor a).
Proof.
  destruct a as [x |]; simpl; [| tauto].
  intros Hx. change (inject_Z 0 <= inject_Z (Qfloor x))%Q.
  rewrite <- Zle_Qle. change 0 with (Qfloor 0).
  apply Qfloor_resp_le. exact Hx.
Qed.

Lemma num_div_length_nonneg (a : num) (len : nat) :
  nonnegative a -> (0 < len)%nat -> nonnegative (num_div_length fl a len).
Proof using fl_nonneg.
  destruct a as [x |]; simpl; [| tauto].
  intros Hx Hlen. destruct len as [| len']; [lia |]. simpl.
  apply fl_nonneg. apply Qle_shift_div_l.
  - change 0%Q with (inject_Z 0). rewrite <- Zlt_Qlt. lia.
  - lra.
Qed.

Lemma num_mul_nonneg (a : num) (y : Q) :
  nonnegative a -> (0 <= y)%Q -> nonnegative (num_mul fl a y).
Proof using fl_nonneg.
  destruct a as [x |]; simpl; [| tauto].
  intros Hx Hy. apply fl_nonneg. apply Qmult_le_0_compat; assumption.
Qed.

Lemma math_min_255_in_range (a : num) : nonnegative a -> in_byte_range (math_min_255 a).
Proof.
  destruct a as [x |]; simpl; [| tauto].
  intros Hx. destruct (Qle_bool 255 x) eqn:Hle; simpl.
  - split; lra.
  - split; [exact Hx |].
    destruct (Qlt_le_dec x 255) as [Hlt | Hge]; [lra |].
    apply Qle_bool_iff in Hge. congruence.
Qed.

(** One channel of the result, from its total. *)
Lemma saturated_channel_in_range (total : num) (len : nat) (saturation : Q) :
  nonnegative total -> (0 < len)%nat -> (0 <= saturation)%Q ->
  in_byte_range
    (math_min_255 (math_floor (num_mul fl (math_floor (num_div_length fl total len))
                                       saturation))).
Proof using fl_nonneg.
  intros Ht Hlen Hsat.
  apply math_min_255_in_range, math_floor_nonneg, num_mul_nonneg; [| exact Hsat].
  apply math_floor_nonneg, num_div_length_nonneg; assumption.
Qed.

(** C8.  For a non-empty zone array of byte-valued triples and a saturation
    between 0.5 and 1.5, [getAverageColorString] returns, without touching
    the state, a colour whose three channels are finite numbers between 0
    and 255. *)
Theorem getAverageColorString_channels_in_range
    (colorArray : zone) (alpha : Q) (s : t) :
  colorArray <> [] ->
  Forall byte_valued colorArray ->
  (1 # 2 <= colorSaturation s)%Q ->
  (colorSaturation s <= 3 # 2)%Q ->
  exists satR satG satB : num,
    getAverageColorString fl colorArray alpha s
      = (Ret (Rgba satR satG satB alpha), s, [])
    /\ in_byte_range satR /\ in_byte_range satG /\ in_byte_range satB.
Proof using fl_nonneg.
  intros Hne Hall Hlo Hhi.
  assert (Hlen : (0 < length colorArray)%nat)
    by (destruct colorArray; [congruence | simpl; lia]).
  assert (Hsat : (0 <= colorSaturation s)%Q) by lra.
  pose proof (totals_nonneg colorArray (Num 0) (Num 0) (Num 0) Hall) as Htot.
  unfold getAverageColorString.
  destruct (totals fl colorArray (Num 0, Num 0, Num 0)) as [[totalR totalG] totalB].
  destruct Htot as [HR [HG HB]]; try (simpl; lra).
  eexists _, _, _. split; [reflexivity |].
  repeat split; apply saturated_channel_in_range; assumption.
Qed.

End Aggregate.

Lemma getAverageColorString_channels_in_range_witness :
  exists satR satG satB : num,
    getAverageColorString (fun q => q)
      [Some (Some 255, Some 10, Some 0); Some (Some 255, Some 20, Some 0)]
      (1 # 2) (constructor None)
    = (Ret (Rgba satR satG satB (1 # 2)), constructor None, [])
    /\ in_byte_range satR /\ in_byte_range satG /\ in_byte_range satB.
Proof.
  apply (getAverageColorString_channels_in_range (fun q => q)).
  - intros x Hx. exact Hx.
  - discriminate.
  - repeat constructor; simpl; lia.
  - vm_compute. discriminate.
  - vm_compute. discriminate.
Defined.

(** The colour of a two-slot array, computed: the red channel is clamped. *)
Example getAverageColorString_clamps :
  outcome_of (getAverageColorString (fun q => q)
    [Some (Some 255, Some 10, Some 0); Some (Some 255, Some 20, Some 0)]
    (1 # 2) (constructor None))
  = Ret (Rgba (Num 255) (Num 18) (Num 0) (1 # 2)).
Proof. reflexivity. Qed.

End BacklightSystemProperties.

(** * Properties of BacklightRecordingOptimizer *)

Module RecordingProperties.

Import BacklightRecordingOptimizer.

Ltac run := cbv [bind gets modify emit ret throw lift catch state_of trace_of outcome_of
                 modify_options update_recorder fmap option_fmap option_map].

(** A visualizer with its own values for the three options a recording
    overrides. *)
Definition studioOptions : Visualizer.options :=
  Visualizer.Options JUndefined JUndefined JUndefined (JStr "spectrum")
                     (JNum 1) (JNum (1 # 2)).

Definition saved_of (o : Visualizer.options) : saved :=
  Saved (Visualizer.colorSaturation o) (Visualizer.visualizationMode o)
        (Visualizer.edgeEmphasis o).

(** The options as [enable] leaves them. *)
Definition recordingOptions (o : Visualizer.options) : Visualizer.options :=
  Visualizer.Options (Visualizer.colorIntensity o) (Visualizer.edgeFalloff o)
    (Visualizer.transitionSpeed o) (JStr "backlight") (JNum (13 # 10)) (JNum (9 # 10)).

(** The audio tracks that [startRecording] adds to the stream. *)
Definition audioTracks (a : option audioContext) : list string :=
  match a with
  | Some ac => default [] (destination_stream ac)
  | None => []
  end.

(** ** Heap bookkeeping *)

Lemma lookup_new {A} (l : list A) (x : A) : (l ++ [x]) !! length l = Some x.
Proof. apply list_lookup_middle. reflexivity. Qed.

Lemma alter_new {A} (f : A -> A) (l : list A) (x : A) :
  alter f (length l) (l ++ [x]) = l ++ [f x].
Proof.
  rewrite alter_app_r_alt by lia. rewrite Nat.sub_diag. reflexivity.
Qed.

Lemma lookup_old {A} (l : list A) (x y : A) (i : nat) :
  l !! i = Some y -> (l ++ [x]) !! i = Some y.
Proof. intros H. apply lookup_app_l_Some. exact H. Qed.

Lemma bind_Ret {St A B} (m : M St A) (k : A -> M St B) s a s1 tr1 r s2 tr2 :
  m s = (Ret a, s1, tr1) -> k a s1 = (r, s2, tr2) ->
  bind m k s = (r, s2, tr1 ++ tr2).
Proof. intros Hm Hk. unfold bind. rewrite Hm, Hk. reflexivity. Qed.

Lemma forEach_AddTrack (tracks : list string) (s : t) :
  forEach (fun track => emit (AddTrack track)) tracks s
    = (Ret tt, s, map AddTrack tracks).
Proof.
  induction tracks as [| x l IH]; [reflexivity |].
  cbn [forEach]. unfold bind at 1. unfold emit at 1. rewrite IH. reflexivity.
Qed.

Lemma calls_AddTrack (method : string) (tracks : list string) :
  calls method (map AddTrack tracks) = 0%nat.
Proof.
  unfold calls. induction tracks as [| x l IH]; simpl; [reflexivity |].
  rewrite filter_cons_False by (simpl; discriminate). exact IH.
Qed.

Lemma calls_cons (method : string) (e : event) (tr : list event) :
  calls method (e :: tr)
    = ((if is_call method e then 1 else 0) + calls method tr)%nat.
Proof.
  unfold calls. destruct (is_call method e) eqn:He.
  - rewrite filter_cons_True by exact He. reflexivity.
  - rewrite filter_cons_False by (rewrite He; discriminate). reflexivity.
Qed.

Lemma calls_app (method : string) (tr1 tr2 : list event) :
  calls method (tr1 ++ tr2) = (calls method tr1 + calls method tr2)%nat.
Proof. unfold calls. rewrite filter_app, length_app. reflexivity. Qed.

(** ** The steps of a session *)

Lemma startRecording_spec (c : canvasElement) (a : option audioContext)
    (s : t) (o : Visualizer.options) :
  visualizer s = Some o ->
  startRecording (Some c) a s =
    (Ret true,
     Make (Some (recordingOptions o)) true (Some (saved_of o))
          (Some (length (recorders s))) []
          (recorders s ++ [MediaRecorder Recording true None false])
          (promises s),
     Call "enable" :: CaptureStream 60 :: map AddTrack (audioTracks a)).
Proof.
  intros Hv. destruct s as [v en os rec chunks recs proms]. simpl in Hv. subst v.
  unfold startRecording, enable, newMediaRecorder, recorder_start.
  assert (Htracks : forall s0 : t,
    match a with
    | Some a0 =>
        match destination_stream a0 with
        | Some audioTracks => forEach (fun track => emit (AddTrack track)) audioTracks
        | None => ret tt
        end
    | None => ret tt
    end s0 = (Ret tt, s0, map AddTrack (audioTracks a))).
  { intros s0. destruct a as [[[l |]] |]; simpl; try reflexivity.
    apply forEach_AddTrack. }
  run. simpl. rewrite Htracks. simpl.
  rewrite alter_new, lookup_new. simpl. rewrite alter_new. simpl.
  rewrite app_nil_r. reflexivity.
Qed.

(** Deliveries of data change the recorded chunks and nothing else. *)
Lemma deliveries_spec (r : nat) (sizes : list chunk) (s : t) :
  exists chunks,
    forEach (dispatchDataAvailable r) sizes s
      = (Ret tt, set_recordedChunks chunks s, []).
Proof.
  revert s. induction sizes as [| size l IH]; intros s; simpl.
  - exists (recordedChunks s). destruct s; reflexivity.
  - assert (Hstep : exists chunks,
      dispatchDataAvailable r size s = (Ret tt, set_recordedChunks chunks s, [])).
    { unfold dispatchDataAvailable, ondataavailableHandler. run.
      destruct (recorders s !! r) as [m |];
        [destruct (ondataavailable m); [destruct (0 <? size) |] |];
        first [ exists (recordedChunks s ++ [size]); reflexivity
              | exists (recordedChunks s); destruct s; reflexivity ]. }
    destruct Hstep as [chunks1 Hstep].
    destruct (IH (set_recordedChunks chunks1 s)) as [chunks2 Hrest].
    exists chunks2. erewrite bind_Ret by eassumption. reflexivity.
Qed.

Lemma stopRecording_spec (s : t) (r : nat) :
  recorder s = Some r ->
  recorders s !! r = Some (MediaRecorder Recording true None false) ->
  stopRecording s =
    (Ret (length (promises s)),
     set_promises (promises s ++ [Pending])
       (set_recorders
          (alter (fun _ => MediaRecorder Inactive true (Some (length (promises s))) true)
                 r (recorders s)) s),
     []).
Proof.
  intros Hrec Hm. destruct s as [v en os rec chunks recs proms].
  simpl in Hrec, Hm. subst rec.
  unfold stopRecording, newPromise, recorder_stop, settle.
  run. simpl.
  rewrite list_lookup_alter_eq, Hm. simpl.
  rewrite !list_alter_alter_eq.
  rewrite (list_alter_ext
    (set_stopQueued true ∘ set_state Inactive ∘ set_onstop (Some (length proms)))
    (fun _ => MediaRecorder Inactive true (Some (length proms)) true)
    recs recs r); [reflexivity | | reflexivity].
  intros m Hm'. rewrite Hm in Hm'. injection Hm' as <-. reflexivity.
Qed.

Lemma dispatchStop_spec (s : t) (r p : nat) (o o' : Visualizer.options) :
  visualizer s = Some o' ->
  originalSettings s = Some (saved_of o) ->
  recorders s !! r = Some (MediaRecorder Inactive true (Some p) true) ->
  dispatchStop r s =
    (Ret tt,
     Make (Some (Visualizer.Options
                   (Visualizer.colorIntensity o') (Visualizer.edgeFalloff o')
                   (Visualizer.transitionSpeed o') (Visualizer.visualizationMode o)
                   (Visualizer.colorSaturation o) (Visualizer.edgeEmphasis o)))
          false (Some (saved_of o)) (recorder s) (recordedChunks s)
          (alter (set_stopQueued false) r (recorders s))
          (alter (fun old => match old with
                             | Pending => Resolved (recordedChunks s)
                             | _ => old
                             end) p (promises s)),
     [Call "disable"]).
Proof.
  intros Hv Hos Hm. destruct s as [v en os rec chunks recs proms].
  simpl in Hv, Hos, Hm. subst v os.
  unfold dispatchStop, onstopHandler, disable, settle.
  run. simpl. rewrite Hm. simpl. reflexivity.
Qed.

(** ** A whole session *)

(** The state and the trace at the end of a session, in full. *)
Lemma session_spec (c : canvasElement) (a : option audioContext)
    (during final : list chunk) (s : t) (o : Visualizer.options) :
  visualizer s = Some o ->
  exists chunks : list chunk,
    session c a during final s =
      (Ret (length (promises s)),
       Make (Some o) false (Some (saved_of o)) (Some (length (recorders s))) chunks
            (recorders s
               ++ [MediaRecorder Inactive true (Some (length (promises s))) false])
            (promises s ++ [Resolved chunks]),
       Call "enable" :: CaptureStream 60 :: map AddTrack (audioTracks a)
         ++ [Call "disable"]).
Proof.
  intros Hv.
  pose proof (startRecording_spec c a s o Hv) as H1.
  set (s1 := Make (Some (recordingOptions o)) true (Some (saved_of o))
               (Some (length (recorders s))) []
               (recorders s ++ [MediaRecorder Recording true None false])
               (promises s)) in H1.
  destruct (deliveries_spec (length (recorders s)) during s1) as [chunks2 H2].
  pose proof (stopRecording_spec (set_recordedChunks chunks2 s1) (length (recorders s))
                eq_refl (lookup_new _ _)) as H3.
  set (s3 := set_promises _ _) in H3.
  destruct (deliveries_spec (length (recorders s)) final s3) as [chunks4 H4].
  pose proof (dispatchStop_spec (set_recordedChunks chunks4 s3) (length (recorders s))
                (length (promises s)) o (recordingOptions o) eq_refl eq_refl) as H5.
  simpl in H5. rewrite alter_new in H5. specialize (H5 (lookup_new _ _)).
  rewrite !alter_new in H5. simpl in H5.
  exists chunks4. unfold session.
  erewrite bind_Ret; [| exact H1 |].
  2: { erewrite bind_Ret; [| reflexivity |].
       2: { erewrite bind_Ret; [| exact H2 |].
            2: { erewrite bind_Ret; [| exact H3 |].
                 2: { erewrite bind_Ret; [| exact H4 |].
                      2: { erewrite bind_Ret; [| exact H5 | reflexivity].
                           reflexivity. }
                      reflexivity. }
                 reflexivity. }
            reflexivity. }
       reflexivity. }
  simpl. rewrite ?app_nil_r. destruct o; reflexivity.
Qed.

(** Sessions one after another, each with its own audio context and
    deliveries of data. *)
Definition sessions (l : list (option audioContext * (list chunk * list chunk))) : M t unit :=
  forEach (fun x => session Canvas (fst x) (fst (snd x)) (snd (snd x)) ;;; ret tt) l.

(** However many sessions alternate, the options end as they began. *)
Lemma sessions_restore_options
    (l : list (option audioContext * (list chunk * list chunk)))
    (s : t) (o : Visualizer.options) :
  visualizer s = Some o ->
  outcome_of (sessions l s) = Ret tt
  /\ visualizer (state_of (sessions l s)) = Some o.
Proof.
  revert s. induction l as [| [a [during final]] l IH]; intros s Hv.
  - split; [reflexivity | exact Hv].
  - destruct (session_spec Canvas a during final s o Hv) as [chunks Hs].
    match type of Hs with _ = (_, ?st, ?tr) => set (s1 := st) in *; set (tr1 := tr) in * end.
    assert (Hr : sessions ((a, (during, final)) :: l) s =
                 match sessions l s1 with
                 | (out, s2, tr2) => (out, s2, (tr1 ++ []) ++ tr2)
                 end).
    { change (sessions ((a, (during, final)) :: l) s)
        with (bind (session Canvas a during final ;;; ret tt) (fun _ => sessions l) s).
      unfold bind at 1.
      rewrite (bind_Ret _ _ _ _ _ _ _ _ _ Hs eq_refl). reflexivity. }
    rewrite Hr. destruct (IH s1 eq_refl) as [Hout Hvis].
    destruct (sessions l s1) as [[out s2] tr2]. split; assumption.
Qed.

(** C1, as amended.  Over a visualizer, when the promise returned by
    [stopRecording] resolves at the end of a session, [disable()] has been
    called exactly once since the session's [startRecording], the
    visualizer's options (its colour saturation, visualization mode and edge
    emphasis among them) are what they were just before [startRecording],
    and [originalSettings] still holds the values saved at the start: it is
    not cleared. *)
Theorem session_restores_options (c : canvasElement) (a : option audioContext)
    (during final : list chunk) (s : t) (o : Visualizer.options) :
  visualizer s = Some o ->
  let res := session c a during final s in
  let s' := state_of res in
  exists (p : nat) (b : blob),
    outcome_of res = Ret p
    /\ promises s' !! p = Some (Resolved b)
    /\ calls "disable" (trace_of res) = 1%nat
    /\ visualizer s' = Some o
    /\ Visualizer.recordingBag <$> visualizer s' = Some (Visualizer.recordingBag o)
    /\ originalSettings s' = Some (saved_of o)
    /\ isEnabled s' = false.
Proof.
  intros Hv. cbv zeta.
  destruct (session_spec c a during final s o Hv) as [chunks Hs].
  rewrite Hs. exists (length (promises s)), chunks.
  unfold outcome_of, state_of, trace_of. cbn [fst snd].
  split; [reflexivity |]. split; [apply lookup_new |]. split.
  - rewrite !calls_cons, calls_app, calls_AddTrack. reflexivity.
  - repeat split; reflexivity.
Qed.

Lemma session_restores_options_witness :
  let res := session Canvas None [5; 0] [7] (constructor (Some studioOptions)) in
  exists (p : nat) (b : blob),
    outcome_of res = Ret p
    /\ promises (state_of res) !! p = Some (Resolved b)
    /\ calls "disable" (trace_of res) = 1%nat
    /\ visualizer (state_of res) = Some studioOptions
    /\ Visualizer.recordingBag <$> visualizer (state_of res)
       = Some (Visualizer.recordingBag studioOptions)
    /\ originalSettings (state_of res) = Some (saved_of studioOptions)
    /\ isEnabled (state_of res) = false.
Proof.
  exact (session_restores_options Canvas None [5; 0] [7]
           (constructor (Some studioOptions)) studioOptions eq_refl).
Defined.

(** C1 as stated fails: the promise of the session resolves, with the two
    non-empty chunks, and [originalSettings] is not cleared. *)
Lemma originalSettings_not_cleared :
  let res := session Canvas None [5; 0] [7] (constructor (Some studioOptions)) in
  outcome_of res = Ret 0%nat
  /\ promises (state_of res) !! 0%nat = Some (Resolved [5; 7])
  /\ originalSettings (state_of res)
     = Some (Saved (JNum 1) (JStr "spectrum") (JNum (1 # 2)))
  /\ originalSettings (state_of res) <> None.
Proof.
  vm_compute. repeat split; discriminate.
Qed.

(** ** Starting while a session is active *)

(** C6, as amended.  [startRecording] does not look at the active recorder:
    called over a visualizer while a recording is in progress it returns
    true, saves the current options over [originalSettings] and applies the
    recording values again, empties [recordedChunks], and puts a new,
    started recorder in place of the active one, which keeps recording. *)
Theorem startRecording_while_recording (c : canvasElement) (a : option audioContext)
    (s : t) (o : Visualizer.options) (r : nat) (m : mediaRecorder) :
  visualizer s = Some o ->
  recorder s = Some r ->
  recorders s !! r = Some m ->
  state m = Recording ->
  let res := startRecording (Some c) a s in
  let s' := state_of res in
  outcome_of res = Ret true
  /\ originalSettings s' = Some (saved_of o)
  /\ visualizer s' = Some (recordingOptions o)
  /\ recordedChunks s' = []
  /\ recorder s' = Some (length (recorders s))
  /\ recorder s' <> recorder s
  /\ recorders s' !! length (recorders s)
     = Some (MediaRecorder Recording true None false)
  /\ recorders s' !! r = Some m.
Proof.
  intros Hv Hrec Hm Hstate. cbv zeta.
  rewrite (startRecording_spec c a s o Hv).
  unfold outcome_of, state_of. simpl.
  repeat split; try reflexivity.
  - rewrite Hrec. intros Heq. injection Heq as Heq.
    apply lookup_lt_Some in Hm. lia.
  - apply lookup_new.
  - apply lookup_old. exact Hm.
Qed.

Lemma startRecording_while_recording_witness :
  let s1 := state_of (startRecording (Some Canvas) None (constructor (Some studioOptions))) in
  outcome_of (startRecording (Some Canvas) None s1) = Ret true
  /\ originalSettings (state_of (startRecording (Some Canvas) None s1))
     = Some (saved_of (recordingOptions studioOptions)).
Proof.
  pose proof (startRecording_while_recording Canvas None
    (state_of (startRecording (Some Canvas) None (constructor (Some studioOptions))))
    (recordingOptions studioOptions) 0%nat
    (MediaRecorder Recording true None false)
    eq_refl eq_refl eq_refl eq_refl) as H.
  exact (conj (proj1 H) (proj1 (proj2 H))).
Defined.

(** C6 as stated fails: the second [startRecording] is not rejected, it
    returns true, and it changes the saved settings, the recorded chunks'
    owner and the active recorder. *)
Lemma second_startRecording_accepted :
  let s0 := constructor (Some studioOptions) in
  let s1 := state_of (startRecording (Some Canvas) None s0) in
  let res := startRecording (Some Canvas) None s1 in
  outcome_of res = Ret true
  /\ originalSettings s1 = Some (Saved (JNum 1) (JStr "spectrum") (JNum (1 # 2)))
  /\ originalSettings (state_of res)
     = Some (Saved (JNum (13 # 10)) (JStr "backlight") (JNum (9 # 10)))
  /\ recorder s1 = Some 0%nat
  /\ recorder (state_of res) = Some 1%nat
  /\ state_of res <> s1.
Proof.
  vm_compute. repeat split; discriminate.
Qed.

End RecordingProperties.


(** * Further properties of BacklightSystem *)

Module BacklightSystemExtras.

Import BacklightSystem BacklightSystemProperties.

(** ** Modes *)

(** X1.  [setMode] is idempotent on the controller: setting the same mode
    twice in a row leaves the state that setting it once leaves, for every
    mode string. *)
Theorem setMode_idempotent (mode : string) (s : t) :
  state_of ((setMode mode ;;; setMode mode) s) = state_of (setMode mode s).
Proof.
  destruct s as [v en m em sat sm sp sys ez ps pvm].
  unfold setMode, attemptDirectConnection, scanForBacklightSystems. run.
  destruct (String.eqb mode "adaptive"); [reflexivity |].
  destruct (String.eqb mode "direct"); [reflexivity |].
  destruct (String.eqb mode "ambilight"); reflexivity.
Qed.

(** X2.  [setMode] does not reach the renderer.  It leaves the
    visualizer's options, the snapshot and the enabled flag alone, so after
    [toggle(true)] a change of mode leaves the renderer's colour intensity
    and edge falloff at the saturation and emphasis the controller had when
    it was enabled, whatever tuning the new mode sets. *)
Theorem setMode_leaves_renderer (mode : string) (s : t) (o : Visualizer.options) :
  visualizer s = Some o ->
  let s1 := state_of (toggle true s) in
  let s2 := state_of (setMode mode s1) in
  visualizer s2 = visualizer s1
  /\ previousSettings s2 = previousSettings s1
  /\ isEnabled s2 = true
  /\ option_field Visualizer.colorIntensity s2 = Some (JNum (colorSaturation s))
  /\ option_field Visualizer.edgeFalloff s2 = Some (JNum (edgeEmphasis s)).
Proof.
  intros Hv. destruct s as [v en m em sat sm sp sys ez ps pvm].
  simpl in Hv. subst v.
  unfold toggle, applyOptimizedSettings, enableEdgeEmphasisMode, setMode,
    attemptDirectConnection, scanForBacklightSystems, option_field.
  run. simpl.
  destruct (String.eqb m "adaptive"); simpl;
    destruct (String.eqb mode "adaptive"); simpl; try (repeat split; reflexivity);
    destruct (String.eqb mode "direct"); simpl; try (repeat split; reflexivity);
    destruct (String.eqb mode "ambilight"); simpl; repeat split; reflexivity.
Qed.

Lemma setMode_leaves_renderer_witness :
  let s1 := state_of (toggle true (constructor (Some spectrumOptions))) in
  let s2 := state_of (setMode "ambilight" s1) in
  colorSaturation s2 = (14 # 10)%Q
  /\ option_field Visualizer.colorIntensity s2 = Some (JNum (12 # 10)).
Proof.
  split; [reflexivity |].
  exact (proj1 (proj2 (proj2 (proj2
    (setMode_leaves_renderer "ambilight" (constructor (Some spectrumOptions))
       spectrumOptions eq_refl))))).
Defined.

(** X3.  [restoreStandardSettings] is idempotent: a second restore in a row
    changes nothing any more, with or without a snapshot or a visualizer. *)
Theorem restoreStandardSettings_idempotent (s : t) :
  state_of ((restoreStandardSettings ;;; restoreStandardSettings) s)
  = state_of (restoreStandardSettings s).
Proof.
  destruct s as [[o |] en m em sat sm sp sys ez [p |] pvm];
    unfold restoreStandardSettings; run; simpl; try reflexivity.
  destruct (truthy pvm) eqn:Ht; simpl; [reflexivity |].
  rewrite Ht. reflexivity.
Qed.

(** ** Connecting to devices *)

Definition attemptLine (d : descriptor) : event :=
  ConsoleLog ("Attempting to connect to " +:+ d_type d +:+ " at " +:+ d_ipAddress d).

(** The lines logged after a successful match. *)
Definition setupLines (d : descriptor) : list event :=
  (if String.eqb (d_type d) "Govee" then [ConsoleLog "Setting up Govee connection"]
   else if String.eqb (d_type d) "Philips Hue"
        then [ConsoleLog "Setting up Philips Hue connection"]
   else if String.eqb (d_type d) "WLED" then [ConsoleLog "Setting up WLED connection"]
   else [])
  ++ [ConsoleLog ("Connected to " +:+ d_type d)].

Lemma connectToSystem_spec (d : descriptor) (s : t) :
  connectToSystem d s =
    match list_find (fun x => name x = d_type d) (supportedSystems s) with
    | Some (i, x) =>
        (Ret tt,
         set_supportedSystems (<[i := set_connected true x]> (supportedSystems s)) s,
         attemptLine d :: setupLines d)
    | None => (Ret tt, s, [attemptLine d])
    end.
Proof.
  unfold connectToSystem, setupGoveeConnection, setupPhilipsHueConnection,
    setupWLEDConnection, attemptLine, setupLines.
  run.
  destruct (list_find (fun x => name x = d_type d) (supportedSystems s))
    as [[i x] |]; [| reflexivity].
  destruct (String.eqb (d_type d) "Govee"); [reflexivity |].
  destruct (String.eqb (d_type d) "Philips Hue"); [reflexivity |].
  destruct (String.eqb (d_type d) "WLED"); reflexivity.
Qed.

(** X4.  Connecting a device whose type is not among the supported
    systems changes nothing: the attempt is logged and that is all. *)
Theorem connectToSystem_unsupported (d : descriptor) (s : t) :
  Forall (fun x => name x <> d_type d) (supportedSystems s) ->
  connectToSystem d s = (Ret tt, s, [attemptLine d]).
Proof.
  intros Hnone. rewrite connectToSystem_spec.
  assert (Hfind : list_find (fun x => name x = d_type d) (supportedSystems s) = None)
    by (apply list_find_None; exact Hnone).
  rewrite Hfind. reflexivity.
Qed.

Lemma connectToSystem_unsupported_witness :
  connectToSystem (Descriptor "Nanoleaf" "n1" "192.168.1.7") (constructor None)
  = (Ret tt, constructor None,
     [ConsoleLog "Attempting to connect to Nanoleaf at 192.168.1.7"]).
Proof.
  apply (connectToSystem_unsupported (Descriptor "Nanoleaf" "n1" "192.168.1.7")).
  repeat constructor; discriminate.
Defined.

(** X5.  Connecting a device of a supported type marks the first entry of
    that name as connected and changes no other entry and no other field;
    the controller then logs the vendor's setup line (none for Hyperion)
    and the connection. *)
Theorem connectToSystem_marks_first (d : descriptor) (s : t) (i : nat) (x : system) :
  supportedSystems s !! i = Some x ->
  name x = d_type d ->
  (forall j y, supportedSystems s !! j = Some y -> (j < i)%nat -> name y <> d_type d) ->
  connectToSystem d s =
    (Ret tt,
     set_supportedSystems (<[i := set_connected true x]> (supportedSystems s)) s,
     attemptLine d :: setupLines d).
Proof.
  intros Hi Hname Hfirst. rewrite connectToSystem_spec.
  assert (Hfind : list_find (fun x => name x = d_type d) (supportedSystems s)
                  = Some (i, x)).
  { apply list_find_Some. split; [exact Hi | split; [exact Hname | exact Hfirst]]. }
  rewrite Hfind. reflexivity.
Qed.

Lemma connectToSystem_marks_first_witness :
  supportedSystems
    (state_of (connectToSystem (Descriptor "WLED" "wled1" "192.168.1.200")
                 (constructor None)))
  = [ System "Govee" false (Some EmptyString) None;
      System "Philips Hue" false (Some EmptyString) None;
      System "WLED" true None (Some EmptyString);
      System "Hyperion" false None (Some EmptyString) ].
Proof.
  rewrite (connectToSystem_marks_first (Descriptor "WLED" "wled1" "192.168.1.200")
             (constructor None) 2 (System "WLED" false None (Some EmptyString))
             eq_refl eq_refl).
  - reflexivity.
  - intros [| [| j]] y Hy Hj; [| | lia]; injection Hy as <-; discriminate.
Defined.

(** One list of systems continues another: the same entries in the same
    places, with the same names and credentials, none that was connected
    now disconnected. *)
Definition continues (l l' : list system) : Prop :=
  length l' = length l
  /\ forall i x, l !! i = Some x ->
       exists x', l' !! i = Some x' /\ name x' = name x /\ apiKey x' = apiKey x
                  /\ ipAddress x' = ipAddress x
                  /\ (connected x = true -> connected x' = true).

Lemma continues_refl (l : list system) : continues l l.
Proof. split; [reflexivity |]. intros i x Hx. exists x. auto. Qed.

Lemma continues_trans (l1 l2 l3 : list system) :
  continues l1 l2 -> continues l2 l3 -> continues l1 l3.
Proof.
  intros [Hlen1 H1] [Hlen2 H2]. split; [congruence |].
  intros i x Hx. destruct (H1 i x Hx) as (x' & Hx' & Hn & Ha & Hip & Hc).
  destruct (H2 i x' Hx') as (x'' & Hx'' & Hn' & Ha' & Hip' & Hc').
  exists x''. repeat split; try congruence. auto.
Qed.

Lemma connectToSystem_continues (d : descriptor) (s : t) :
  continues (supportedSystems s) (supportedSystems (state_of (connectToSystem d s))).
Proof.
  rewrite connectToSystem_spec.
  destruct (list_find (fun x => name x = d_type d) (supportedSystems s))
    as [[i x] |] eqn:Hfind; [| apply continues_refl].
  apply list_find_Some in Hfind as (Hi & _ & _).
  unfold state_of. simpl. split; [apply length_insert |].
  intros j y Hy. destruct (decide (j = i)) as [-> | Hne].
  - exists (set_connected true x). rewrite Hi in Hy. injection Hy as <-.
    rewrite list_lookup_insert_eq by (eapply lookup_lt_Some; exact Hi).
    repeat split; reflexivity.
  - exists y. rewrite list_lookup_insert_ne by congruence. auto.
Qed.

(** ** Methods that only read *)

#[local] Hint Resolve keeps_ret keeps_gets keeps_emit keeps_throw keeps_lift
  keeps_forEach : keeps.

(** The state as a whole. *)
Definition whole (s : t) : t := s.

Lemma keeps_of_unchanged {X A} (f : t -> X) (m : M t A) :
  keeps whole m -> keeps f m.
Proof. intros H s. specialize (H s). unfold whole in H. rewrite H. reflexivity. Qed.

Lemma forEach_pure {A} (g : A -> M t unit) (h : A -> list event) (l : list A) (s : t) :
  (forall x, g x s = (Ret tt, s, h x)) ->
  forEach g l s = (Ret tt, s, flat_map h l).
Proof.
  intros Hg. induction l as [| x l IH]; [reflexivity |].
  cbn [forEach flat_map]. unfold bind at 1. rewrite Hg, IH. reflexivity.
Qed.

Lemma formatDataForGovee_unchanged : keeps whole formatDataForGovee.
Proof. unfold formatDataForGovee. keeps_tac. Qed.

Lemma sendColorDataToConnectedSystems_unchanged :
  keeps whole sendColorDataToConnectedSystems.
Proof.
  unfold sendColorDataToConnectedSystems, sendToGovee, sendToPhilipsHue,
    sendToWLED, formatDataForGovee.
  keeps_tac.
Qed.

(** The line a connected system's branch logs. *)
Definition sendLines (x : system) : list event :=
  if String.eqb (name x) "Govee" then [ConsoleLog "Sending color data to Govee"]
  else if String.eqb (name x) "Philips Hue"
       then [ConsoleLog "Sending color data to Philips Hue"]
  else if String.eqb (name x) "WLED" then [ConsoleLog "Sending color data to WLED"]
  else [].

Lemma sendColorDataToConnectedSystems_lines (s : t) (c : color) :
  top (edgeZones s) !! (length (top (edgeZones s)) / 2)%nat = Some (Some c) ->
  sendColorDataToConnectedSystems s =
    (Ret tt, s,
     flat_map sendLines (filter (fun x => connected x = true) (supportedSystems s))).
Proof.
  intros Hmid. unfold sendColorDataToConnectedSystems, bind at 1, gets at 1.
  rewrite (forEach_pure _ sendLines).
  - rewrite app_nil_l. reflexivity.
  - intros x. unfold sendLines, sendToGovee, sendToPhilipsHue, sendToWLED.
    destruct (String.eqb (name x) "Govee").
    + unfold bind at 1. unfold emit at 1. unfold bind at 1.
      unfold formatDataForGovee, bind at 1, gets at 1.
      unfold color in *. rewrite Hmid. destruct c as [[r g] b]. reflexivity.
    + destruct (String.eqb (name x) "Philips Hue"); [reflexivity |].
      destruct (String.eqb (name x) "WLED"); reflexivity.
Qed.

(** X6.  When the middle slot of the top edge holds a colour, a dispatch
    leaves the controller as it is and does not throw; it writes one line
    for each connected Govee, Philips Hue or WLED system, in the order of
    [supportedSystems], and nothing for a connected Hyperion or for a
    system that is not connected. *)
Theorem sendColorDataToConnectedSystems_spec (s : t) (c : color) :
  top (edgeZones s) !! (length (top (edgeZones s)) / 2)%nat = Some (Some c) ->
  sendColorDataToConnectedSystems s =
    (Ret tt, s,
     flat_map sendLines (filter (fun x => connected x = true) (supportedSystems s))).
Proof.
  exact (sendColorDataToConnectedSystems_lines s c).
Qed.

(** A controller after Hyperion, WLED and Govee were connected, in that
    order. *)
Definition threeConnected : t :=
  state_of ((connectToSystem (Descriptor "Hyperion" "h1" "10.0.0.9") ;;;
             connectToSystem (Descriptor "WLED" "wled1" "192.168.1.200") ;;;
             connectToSystem (Descriptor "Govee" "H6199" "192.168.1.100"))
            (constructor None)).

Lemma sendColorDataToConnectedSystems_spec_witness :
  trace_of (sendColorDataToConnectedSystems threeConnected)
  = [ConsoleLog "Sending color data to Govee"; ConsoleLog "Sending color data to WLED"].
Proof.
  rewrite (sendColorDataToConnectedSystems_spec threeConnected
             (Some 0, Some 0, Some 0) eq_refl).
  reflexivity.
Defined.

(** X7.  With no system connected a dispatch does nothing at all, whatever
    the zone arrays hold (an empty top edge included). *)
Theorem sendColorDataToConnectedSystems_nobody (s : t) :
  Forall (fun x => connected x = false) (supportedSystems s) ->
  sendColorDataToConnectedSystems s = (Ret tt, s, []).
Proof.
  intros Hnone. unfold sendColorDataToConnectedSystems, bind at 1, gets at 1.
  assert (Hfilter : filter (fun x => connected x = true) (supportedSystems s) = []).
  { induction Hnone as [| x l Hx _ IH]; [reflexivity |].
    rewrite filter_cons_False by congruence. exact IH. }
  rewrite Hfilter. reflexivity.
Qed.

Lemma sendColorDataToConnectedSystems_nobody_witness :
  let s := set_edgeZones (Zones [] [] [] []) (constructor None) in
  sendColorDataToConnectedSystems s = (Ret tt, s, []).
Proof.
  apply sendColorDataToConnectedSystems_nobody. repeat constructor.
Defined.

(** ** Sampling *)

Section Sampling.

Variable fl : Q -> Q.

Lemma sampleLoop_from_start (pixel : nat -> nat -> color) (z : zone) :
  sampleLoop pixel 0 z
  = map (fun j => Some (pixel j (length z))) (seq 0 (length z)).
Proof.
  apply list_eq. intros j.
  destruct (decide (j < length z)%nat) as [Hj | Hj].
  - rewrite lookup_sampleLoop by exact Hj.
    rewrite decide_False by lia.
    rewrite list_lookup_fmap, lookup_seq_lt by exact Hj. reflexivity.
  - rewrite !lookup_ge_None_2; [reflexivity | |].
    + rewrite length_map, length_seq. lia.
    + rewrite length_sampleLoop. lia.
Qed.

Lemma sampleEdgeColors_zones
    (ctx : context) (width height : Z) (data : list Z) (s : t) :
  getImageData ctx 0 0 width height = Ret data ->
  let e := edgeZones s in
  edgeZones (state_of (sampleEdgeColors fl ctx width height s)) =
    Zones
      (map (fun j => Some (pixelAt data
              ((along fl j (length (top e)) width + 2 * width) * 4)))
           (seq 0 (length (top e))))
      (map (fun j => Some (pixelAt data
              ((width - 3 + along fl j (length (right e)) height * width) * 4)))
           (seq 0 (length (right e))))
      (map (fun j => Some (pixelAt data
              ((along fl j (length (bottom e)) width + (height - 3) * width) * 4)))
           (seq 0 (length (bottom e))))
      (map (fun j => Some (pixelAt data
              ((2 + along fl j (length (left e)) height * width) * 4)))
           (seq 0 (length (left e)))).
Proof.
  intros Hget. cbv zeta. rewrite sampleEdgeColors_spec, Hget.
  unfold state_of, sampled. simpl. rewrite !sampleLoop_from_start. reflexivity.
Qed.

(** X8.  A sampling pass that gets the frame's pixels overwrites every
    slot of every edge with the pixel at the slot's own sample point: slot
    [j] of [n] of the top edge reads row 2 at column [floor(j / n * width)],
    the bottom edge row [height - 3], the left edge column 2 at row
    [floor(j / n * height)], the right edge column [width - 3]. *)
Theorem sampleEdgeColors_overwrites
    (ctx : context) (width height : Z) (data : list Z) (s : t) :
  getImageData ctx 0 0 width height = Ret data ->
  let e := edgeZones s in
  edgeZones (state_of (sampleEdgeColors fl ctx width height s)) =
    Zones
      (map (fun j => Some (pixelAt data
              ((along fl j (length (top e)) width + 2 * width) * 4)))
           (seq 0 (length (top e))))
      (map (fun j => Some (pixelAt data
              ((width - 3 + along fl j (length (right e)) height * width) * 4)))
           (seq 0 (length (right e))))
      (map (fun j => Some (pixelAt data
              ((along fl j (length (bottom e)) width + (height - 3) * width) * 4)))
           (seq 0 (length (bottom e))))
      (map (fun j => Some (pixelAt data
              ((2 + along fl j (length (left e)) height * width) * 4)))
           (seq 0 (length (left e)))).
Proof.
  exact (sampleEdgeColors_zones ctx width height data s).
Qed.

(** X9.  No stale value survives a sampling pass that gets the frame's
    pixels: two controllers whose zone arrays have the same lengths hold the
    same zone colours after sampling the same frame, whatever the arrays
    held before. *)
Theorem sampleEdgeColors_forgets
    (ctx : context) (width height : Z) (data : list Z) (s s' : t) :
  getImageData ctx 0 0 width height = Ret data ->
  lengths s = lengths s' ->
  edgeZones (state_of (sampleEdgeColors fl ctx width height s))
  = edgeZones (state_of (sampleEdgeColors fl ctx width height s')).
Proof.
  intros Hget Hlen.
  rewrite (sampleEdgeColors_zones ctx width height data s Hget).
  rewrite (sampleEdgeColors_zones ctx width height data s' Hget).
  unfold lengths in Hlen. injection Hlen as Ht Hb Hl Hr.
  cbv zeta. rewrite Ht, Hb, Hl, Hr. reflexivity.
Qed.

End Sampling.

Lemma sampleEdgeColors_overwrites_witness :
  top (edgeZones (state_of
    (sampleEdgeColors (fun q => q) (canvasContext 8 8 gradient) 8 8 (constructor None))))
  !! 15%nat = Some (Some (Some 92, Some 93, Some 94)).
Proof.
  rewrite (sampleEdgeColors_overwrites (fun q => q) (canvasContext 8 8 gradient) 8 8
             (canvasRect 8 8 gradient 0 0 8 8) (constructor None) eq_refl).
  reflexivity.
Defined.

Lemma sampleEdgeColors_forgets_witness :
  let ctx := canvasContext 8 8 gradient in
  edgeZones (state_of (sampleEdgeColors (fun q => q) ctx 8 8 (constructor None)))
  = edgeZones (state_of (sampleEdgeColors (fun q => q) ctx 8 8
      (state_of (sampleEdgeColors (fun q => q) (canvasContext 8 8 []) 8 8
                   (constructor None))))).
Proof.
  apply (sampleEdgeColors_forgets (fun q => q) (canvasContext 8 8 gradient) 8 8
           (canvasRect 8 8 gradient 0 0 8 8)); reflexivity.
Defined.

(** ** Whole frames *)

Section WholeFrames.

Variable fl : Q -> Q.

Lemma getAverageColorString_returns (colorArray : zone) (alpha : Q) (s : t) :
  exists c, getAverageColorString fl colorArray alpha s = (Ret c, s, []).
Proof.
  unfold getAverageColorString.
  destruct (totals fl colorArray (Num 0, Num 0, Num 0)) as [[totalR totalG] totalB].
  eexists. reflexivity.
Qed.

Lemma applyEdgeEmphasis_returns (ctx : context) (width height : Z) (s : t) :
  exists tr, applyEdgeEmphasis fl ctx width height s = (Ret tt, s, tr).
Proof.
  destruct (getAverageColorString_returns (top (edgeZones s)) (1 # 2) s) as [c1 H1].
  destruct (getAverageColorString_returns (bottom (edgeZones s)) (1 # 2) s) as [c2 H2].
  destruct (getAverageColorString_returns (left (edgeZones s)) (1 # 2) s) as [c3 H3].
  destruct (getAverageColorString_returns (right (edgeZones s)) (1 # 2) s) as [c4 H4].
  unfold applyEdgeEmphasis.
  cbv [bind gets emit ret]. rewrite H1, H2, H3, H4. eexists. reflexivity.
Qed.

(** The outcome of [processFrame] on any controller reached from the
    constructor, with the drawing calls recorded as the events they are. *)
Lemma processFrame_outcome
    (v : option Visualizer.options) (ops : list op) (ctx : context) (width height : Z) :
  let s := fold_left (fun s o => perform fl o s) ops (constructor v) in
  outcome_of (processFrame fl ctx width height s) =
    if isEnabled s then
      match getImageData ctx 0 0 width height with
      | Ret _ => Ret tt
      | Throw e => Throw e
      end
    else Ret tt.
Proof.
  cbv zeta.
  pose proof (run_lengths fl ops (constructor v) eq_refl) as Hlen.
  set (s := fold_left _ ops (constructor v)) in *.
  unfold processFrame, bind at 1, gets at 1.
  destruct (isEnabled s) eqn:Hen; cbn [negb]; [| reflexivity].
  unfold bind at 1. rewrite sampleEdgeColors_spec.
  destruct (getImageData ctx 0 0 width height) as [data | e]; [| reflexivity].
  set (s1 := set_edgeZones _ s).
  assert (Hmid : exists c,
    top (edgeZones s1) !! (length (top (edgeZones s1)) / 2)%nat = Some (Some c)).
  { unfold lengths, initialLengths in Hlen. injection Hlen as Ht _ _ _.
    subst s1. cbn [edgeZones set_edgeZones sampled top].
    rewrite length_sampleLoop, Ht.
    rewrite lookup_sampleLoop by (rewrite Ht; cbn; lia).
    eexists. reflexivity. }
  destruct Hmid as [c Hmid].
  pose proof (sendColorDataToConnectedSystems_lines s1 c Hmid) as Hsend.
  destruct (applyEdgeEmphasis_returns ctx width height s1) as [tr Hdraw].
  cbv [bind gets ret].
  destruct (String.eqb (backlightMode s1) "direct");
    [rewrite Hsend |];
    (destruct (String.eqb (backlightMode s1) "adaptive"
               || String.eqb (backlightMode s1) "ambilight");
     [rewrite Hdraw |]); reflexivity.
Qed.

(** X10.  On any controller reached from the constructor by any
    operations, a frame processed in direct mode fails only if the canvas
    refuses the frame's pixels: [processFrame] throws exactly what
    [getImageData] throws and otherwise returns.  Whatever systems are
    connected and whatever the frame holds, the dispatch does not throw;
    the TypeError of [formatDataForGovee] on a missing slot cannot occur. *)
Theorem processFrame_direct_fails_only_on_canvas
    (v : option Visualizer.options) (ops : list op) (ctx : context) (width height : Z) :
  let s := fold_left (fun s o => perform fl o s) ops (constructor v) in
  isEnabled s = true ->
  backlightMode s = "direct" ->
  outcome_of (processFrame fl ctx width height s) =
    match getImageData ctx 0 0 width height with
    | Ret _ => Ret tt
    | Throw e => Throw e
    end.
Proof.
  cbv zeta. intros Hen _.
  rewrite (processFrame_outcome v ops ctx width height), Hen. reflexivity.
Qed.

(** X11.  [setMode] takes any string, and in a mode that is none of
    'adaptive', 'direct' and 'ambilight' an enabled [processFrame] does
    nothing but sample: no dispatch, no drawing. *)
Theorem processFrame_unrecognised_mode (ctx : context) (width height : Z) (s : t) :
  isEnabled s = true ->
  String.eqb (backlightMode s) "adaptive" = false ->
  String.eqb (backlightMode s) "direct" = false ->
  String.eqb (backlightMode s) "ambilight" = false ->
  processFrame fl ctx width height s = sampleEdgeColors fl ctx width height s.
Proof.
  intros Hen Ha Hd Hl.
  unfold processFrame, bind at 1, gets at 1. rewrite Hen. cbn [negb].
  unfold bind at 1. rewrite sampleEdgeColors_spec.
  destruct (getImageData ctx 0 0 width height) as [data | e]; [| reflexivity].
  cbv [bind gets ret].
  change (backlightMode (set_edgeZones (sampled fl width height data (edgeZones s)) s))
    with (backlightMode s).
  rewrite Hd. cbv beta iota.
  change (backlightMode (set_edgeZones (sampled fl width height data (edgeZones s)) s))
    with (backlightMode s).
  rewrite Ha, Hl. reflexivity.
Qed.

(** ** The list of systems *)

Lemma keeps_systems_of_zones_methods (o : op) (s : t) :
  match o with
  | ConnectToSystem _ | OnScanResolved => True
  | _ => supportedSystems (perform fl o s) = supportedSystems s
  end.
Proof.
  destruct o; simpl; try exact I; try reflexivity.
  - revert s. change (keeps supportedSystems (toggle enable)).
    unfold toggle, applyOptimizedSettings, restoreStandardSettings,
      enableEdgeEmphasisMode. keeps_tac.
  - revert s. change (keeps supportedSystems (setMode mode)).
    unfold setMode, attemptDirectConnection, scanForBacklightSystems. keeps_tac.
  - revert s. change (keeps supportedSystems applyOptimizedSettings).
    unfold applyOptimizedSettings, enableEdgeEmphasisMode. keeps_tac.
  - revert s. change (keeps supportedSystems restoreStandardSettings).
    unfold restoreStandardSettings. keeps_tac.
  - revert s. change (keeps supportedSystems enableEdgeEmphasisMode).
    unfold enableEdgeEmphasisMode. keeps_tac.
  - revert s. change (keeps supportedSystems (processFrame fl ctx width height)).
    unfold processFrame.
    apply keeps_bind; [apply keeps_gets | intros enabled].
    destruct (negb enabled); [apply keeps_ret |].
    apply keeps_bind.
    { intros s. rewrite sampleEdgeColors_spec.
      destruct (getImageData ctx 0 0 width height); reflexivity. }
    intros _. apply keeps_bind; [apply keeps_gets | intros mode].
    apply keeps_bind.
    { destruct (String.eqb mode "direct"); [| apply keeps_ret].
      apply keeps_of_unchanged, sendColorDataToConnectedSystems_unchanged. }
    intros _. apply keeps_bind; [apply keeps_gets | intros mode'].
    destruct (String.eqb mode' "adaptive" || String.eqb mode' "ambilight");
      [| apply keeps_ret].
    intros s. destruct (applyEdgeEmphasis_returns ctx width height s) as [tr ->].
    reflexivity.
  - rewrite sampleEdgeColors_spec.
    destruct (getImageData ctx 0 0 width height); reflexivity.
  - apply (keeps_of_unchanged supportedSystems), sendColorDataToConnectedSystems_unchanged.
  - apply (keeps_of_unchanged supportedSystems), formatDataForGovee_unchanged.
  - destruct (applyEdgeEmphasis_returns ctx width height s) as [tr ->]. reflexivity.
  - destruct (getAverageColorString_returns colorArray alpha s) as [c ->]. reflexivity.
Qed.

Lemma perform_continues (o : op) (s : t) :
  continues (supportedSystems s) (supportedSystems (perform fl o s)).
Proof.
  pose proof (keeps_systems_of_zones_methods o s) as H.
  destruct o; try (rewrite H; apply continues_refl).
  - (* the scan's callback *)
    simpl. unfold onScanResolved, discovered. cbn [forEach].
    unfold bind at 1. unfold emit at 1. unfold bind at 1.
    rewrite connectToSystem_spec.
    pose proof (connectToSystem_continues
                  (Descriptor "Govee" "H6199" "192.168.1.100") s) as Hc.
    rewrite connectToSystem_spec in Hc.
    destruct (list_find _ (supportedSystems s)) as [[i x] |]; exact Hc.
  - simpl. apply connectToSystem_continues.
Qed.

(** X12.  No operation of the controller adds, removes, renames or
    re-addresses an entry of [supportedSystems], and none marks a connected
    system as disconnected: along every sequence of operations from the
    constructor the list still has its four entries, Govee, Philips Hue,
    WLED and Hyperion, and whatever was connected stays connected. *)
Theorem supportedSystems_only_connect :
  (forall o s, continues (supportedSystems s) (supportedSystems (perform fl o s)))
  /\ (forall v ops,
        map name (supportedSystems
                    (fold_left (fun s o => perform fl o s) ops (constructor v)))
        = ["Govee"; "Philips Hue"; "WLED"; "Hyperion"])
  /\ (forall ops s i x,
        supportedSystems s !! i = Some x -> connected x = true ->
        exists x', supportedSystems (fold_left (fun s o => perform fl o s) ops s) !! i
                   = Some x' /\ connected x' = true).
Proof.
  assert (Hrun : forall ops s,
    continues (supportedSystems s)
              (supportedSystems (fold_left (fun s o => perform fl o s) ops s))).
  { induction ops as [| o ops IH]; intros s; simpl; [apply continues_refl |].
    eapply continues_trans; [apply perform_continues | apply IH]. }
  split; [exact perform_continues | split].
  - intros v ops. destruct (Hrun ops (constructor v)) as [Hlen Hc].
    apply list_eq. intros i. rewrite list_lookup_fmap.
    destruct (supportedSystems (constructor v) !! i) as [x |] eqn:Hx.
    + destruct (Hc i x Hx) as (x' & -> & Hn & _). simpl. rewrite Hn.
      change (Some (name x) = (name <$> supportedSystems (constructor v)) !! i).
      rewrite list_lookup_fmap, Hx. reflexivity.
    + apply lookup_ge_None in Hx.
      rewrite (lookup_ge_None_2 (supportedSystems _)) by lia.
      simpl. symmetry. apply lookup_ge_None_2. simpl in *. lia.
  - intros ops s i x Hx Hconn. destruct (Hrun ops s) as [_ Hc].
    destruct (Hc i x Hx) as (x' & Hx' & _ & _ & _ & Hk). exists x'. auto.
Qed.

End WholeFrames.

Lemma processFrame_direct_fails_only_on_canvas_witness :
  outcome_of (processFrame (fun q => q) (canvasContext 8 8 gradient) 8 8
    (fold_left (fun s o => perform (fun q => q) o s)
       [Toggle true; SetMode "direct"; OnScanResolved] (constructor None)))
  = Ret tt.
Proof.
  exact (processFrame_direct_fails_only_on_canvas (fun q => q) None
           [Toggle true; SetMode "direct"; OnScanResolved]
           (canvasContext 8 8 gradient) 8 8 eq_refl eq_refl).
Defined.

Lemma processFrame_unrecognised_mode_witness :
  let s := state_of ((toggle true ;;; setMode "off") (constructor None)) in
  trace_of (processFrame (fun q => q) (canvasContext 8 8 gradient) 8 8 s)
  = [GetImageData 0 0 8 8].
Proof.
  lazy zeta.
  rewrite (processFrame_unrecognised_mode (fun q => q) (canvasContext 8 8 gradient) 8 8
             (state_of ((toggle true ;;; setMode "off") (constructor None)))
             eq_refl eq_refl eq_refl eq_refl).
  reflexivity.
Defined.

(** ** When the aggregated colour is not a number *)

(** A filled slot whose red (green, blue) channel is undefined. *)
Definition undefined_red (slot : option color) : Prop :=
  match slot with Some (None, _, _) => True | _ => False end.
Definition undefined_green (slot : option color) : Prop :=
  match slot with Some (_, None, _) => True | _ => False end.
Definition undefined_blue (slot : option color) : Prop :=
  match slot with Some (_, _, None) => True | _ => False end.

Section NotANumber.

Variable fl : Q -> Q.

Lemma num_add_NaN (a : num) (c : channel) :
  num_add fl a (num_of_channel c) = NaN <-> a = NaN \/ c = None.
Proof.
  destruct a as [x |], c as [z |]; simpl; split; intros H;
    try reflexivity; try discriminate; auto;
    destruct H as [H | H]; discriminate.
Qed.

Lemma totals_NaN (colorArray : zone) (accR accG accB : num) :
  match totals fl colorArray (accR, accG, accB) with
  | (totalR, totalG, totalB) =>
      (totalR = NaN <-> accR = NaN \/ Exists undefined_red colorArray)
      /\ (totalG = NaN <-> accG = NaN \/ Exists undefined_green colorArray)
      /\ (totalB = NaN <-> accB = NaN \/ Exists undefined_blue colorArray)
  end.
Proof.
  revert accR accG accB.
  induction colorArray as [| slot rest IH]; intros accR accG accB.
  - simpl. repeat split; intros H; auto; destruct H as [H | H]; auto; inversion H.
  - destruct slot as [[[c0 c1] c2] |]; cbn [totals].
    + specialize (IH (num_add fl accR (num_of_channel c0))
                     (num_add fl accG (num_of_channel c1))
                     (num_add fl accB (num_of_channel c2))).
      destruct (totals fl rest _) as [[totalR totalG] totalB].
      destruct IH as (HR & HG & HB).
      rewrite HR, HG, HB, !num_add_NaN, !Exists_cons.
      repeat split; intros H;
        repeat match goal with
        | H : _ \/ _ |- _ => destruct H as [H | H]
        end; subst; simpl; auto;
        destruct c0, c1, c2; simpl in *; auto; try contradiction; try discriminate.
    + specialize (IH accR accG accB).
      destruct (totals fl rest _) as [[totalR totalG] totalB].
      destruct IH as (HR & HG & HB).
      rewrite HR, HG, HB, !Exists_cons.
      repeat split; intros H;
        repeat match goal with
        | H : _ \/ _ |- _ => destruct H as [H | H]
        end; simpl in *; auto; contradiction.
Qed.

Lemma saturated_NaN (total : num) (len : nat) (saturation : Q) :
  math_min_255 (math_floor (num_mul fl (math_floor (num_div_length fl total len))
                                    saturation)) = NaN
  <-> total = NaN \/ len = 0%nat.
Proof.
  destruct total as [x |], len as [| n]; simpl; split; intros H; auto;
    try discriminate.
  - destruct (Qle_bool 255 _) in H; discriminate.
  - destruct H; [discriminate | lia].
Qed.

Lemma getAverageColorString_channels (colorArray : zone) (alpha : Q) (s : t) :
  exists satR satG satB : num,
    getAverageColorString fl colorArray alpha s
      = (Ret (Rgba satR satG satB alpha), s, [])
    /\ (satR = NaN <-> colorArray = [] \/ Exists undefined_red colorArray)
    /\ (satG = NaN <-> colorArray = [] \/ Exists undefined_green colorArray)
    /\ (satB = NaN <-> colorArray = [] \/ Exists undefined_blue colorArray).
Proof.
  pose proof (totals_NaN colorArray (Num 0) (Num 0) (Num 0)) as Htot.
  unfold getAverageColorString.
  destruct (totals fl colorArray (Num 0, Num 0, Num 0)) as [[totalR totalG] totalB].
  destruct Htot as (HR & HG & HB).
  eexists _, _, _. split; [reflexivity |].
  assert (Hlen : length colorArray = 0%nat <-> colorArray = [])
    by (destruct colorArray; simpl; split; intros H; try reflexivity; discriminate).
  rewrite !saturated_NaN, HR, HG, HB, Hlen.
  repeat split; intros H;
    repeat match goal with
    | H : _ \/ _ |- _ => destruct H as [H | H]
    end; auto; discriminate.
Qed.


(** Rounding gives zero on zero. *)
Hypothesis fl_zero : forall x : Q, (x == 0)%Q -> (fl x == 0)%Q.

Lemma along_first (len : nat) (extent : Z) : along fl 0 len extent = 0.
Proof using fl_zero.
  unfold along.
  assert (H1 : (fl (inject_Z (Z.of_nat 0) / inject_Z (Z.of_nat len)) == 0)%Q).
  { apply fl_zero. simpl. unfold Qdiv. apply Qmult_0_l. }
  assert (H2 : (fl (fl (inject_Z (Z.of_nat 0) / inject_Z (Z.of_nat len))
                    * inject_Z extent) == 0)%Q).
  { apply fl_zero. rewrite H1. apply Qmult_0_l. }
  rewrite H2. reflexivity.
Qed.

(** X14.  Frames less than three pixels high or wide give colours that are
    not numbers.  When the canvas hands out the pixels of a frame of
    height 1 or 2, the first slot of the bottom edge is read three rows
    above the frame, at a negative index, and the aggregated colour of the
    bottom edge is [rgba(NaN, NaN, NaN, alpha)]; for a width of 1 or 2 the
    same happens to the right edge. *)
Theorem small_frame_aggregates_NaN
    (ctx : context) (width height : Z) (data : list Z) (alpha : Q) (s : t) :
  getImageData ctx 0 0 width height = Ret data ->
  0 < width -> 0 < height ->
  let s1 := state_of (sampleEdgeColors fl ctx width height s) in
  (height < 3 -> bottom (edgeZones s) <> [] ->
   getAverageColorString fl (bottom (edgeZones s1)) alpha s1
     = (Ret (Rgba NaN NaN NaN alpha), s1, []))
  /\ (width < 3 -> right (edgeZones s) <> [] ->
      getAverageColorString fl (right (edgeZones s1)) alpha s1
        = (Ret (Rgba NaN NaN NaN alpha), s1, [])).
Proof using fl_zero.
  intros Hget Hw Hh. cbv zeta.
  assert (Hneg : forall k, k < 0 -> pixelAt data (k * 4) = (None, None, None)).
  { intros k Hk. unfold pixelAt, dataAt.
    rewrite !(proj2 (Z.leb_gt _ _)) by lia. reflexivity. }
  assert (Hagg : forall z : zone,
    Exists (fun slot => slot = Some (None, None, None)) z ->
    forall s0, getAverageColorString fl z alpha s0
               = (Ret (Rgba NaN NaN NaN alpha), s0, [])).
  { intros z Hz s0.
    destruct (getAverageColorString_channels z alpha s0)
      as (r & g & b & -> & Hr & Hg & Hb).
    assert (r = NaN) as ->
      by (apply Hr; right; eapply Exists_impl; [exact Hz | intros ? ->; exact I]).
    assert (g = NaN) as ->
      by (apply Hg; right; eapply Exists_impl; [exact Hz | intros ? ->; exact I]).
    assert (b = NaN) as ->
      by (apply Hb; right; eapply Exists_impl; [exact Hz | intros ? ->; exact I]).
    reflexivity. }
  rewrite (sampleEdgeColors_zones fl ctx width height data s Hget).
  split; intros Hsmall Hne; apply Hagg; cbn [bottom right].
  - destruct (bottom (edgeZones s)) as [| slot rest]; [congruence |].
    cbn [length seq map]. apply Exists_cons_hd.
    rewrite along_first, Hneg by nia. reflexivity.
  - destruct (right (edgeZones s)) as [| slot rest]; [congruence |].
    cbn [length seq map]. apply Exists_cons_hd.
    rewrite along_first, Hneg by nia. reflexivity.
Qed.

End NotANumber.

Lemma small_frame_aggregates_NaN_witness :
  let ctx := canvasContext 2 2 (map Z.of_nat (seq 0 16)) in
  let s1 := state_of (sampleEdgeColors (fun q => q) ctx 2 2 (constructor None)) in
  getAverageColorString (fun q => q) (bottom (edgeZones s1)) (1 # 2) s1
    = (Ret (Rgba NaN NaN NaN (1 # 2)), s1, [])
  /\ getAverageColorString (fun q => q) (right (edgeZones s1)) (1 # 2) s1
     = (Ret (Rgba NaN NaN NaN (1 # 2)), s1, []).
Proof.
  pose proof (small_frame_aggregates_NaN (fun q => q) (fun x Hx => Hx)
                (canvasContext 2 2 (map Z.of_nat (seq 0 16))) 2 2
                (canvasRect 2 2 (map Z.of_nat (seq 0 16)) 0 0 2 2) (1 # 2)
                (constructor None) eq_refl eq_refl eq_refl) as [Hb Hr].
  split.
  - apply Hb; [reflexivity | discriminate].
  - apply Hr; [reflexivity | discriminate].
Defined.

(** ** The order of the zones does not matter *)

(** The bytes of a slot, channel by channel, and their sums over an array. *)
Definition redOf (slot : option color) : Z :=
  match slot with Some (Some r, _, _) => r | _ => 0 end.
Definition greenOf (slot : option color) : Z :=
  match slot with Some (_, Some g, _) => g | _ => 0 end.
Definition blueOf (slot : option color) : Z :=
  match slot with Some (_, _, Some b) => b | _ => 0 end.

Definition sumOf (f : option color -> Z) (colorArray : zone) : Z :=
  foldr (fun slot acc => f slot + acc) 0 colorArray.

Lemma sumOf_Permutation (f : option color -> Z) (l l' : zone) :
  Permutation l l' -> sumOf f l = sumOf f l'.
Proof.
  induction 1 as [| x l l' _ IH | x y l | l l' l'' _ IH1 _ IH2]; simpl; lia.
Qed.

Section OrderIndependence.

Variable fl : Q -> Q.

(** Rounding is a function of the real number it rounds, and integers up
    to 2^53 are doubles. *)
Hypothesis fl_proper : forall x y : Q, (x == y)%Q -> (fl x == fl y)%Q.
Hypothesis fl_integer :
  forall n : Z, 0 <= n <= 2 ^ 53 -> (fl (inject_Z n) == inject_Z n)%Q.

Lemma num_add_exact (acc : Q) (n z : Z) :
  (acc == inject_Z n)%Q -> 0 <= n -> 0 <= z -> n + z <= 2 ^ 53 ->
  exists acc', num_add fl (Num acc) (num_of_channel (Some z)) = Num acc'
               /\ (acc' == inject_Z (n + z))%Q.
Proof using fl_proper fl_integer.
  intros Hacc Hn Hz Hb. cbn [num_add num_of_channel].
  eexists. split; [reflexivity |].
  transitivity (fl (inject_Z (n + z))).
  - apply fl_proper. rewrite Hacc, inject_Z_plus. reflexivity.
  - apply fl_integer. lia.
Qed.

Lemma totals_exact (colorArray : zone) :
  Forall byte_valued colorArray ->
  forall (accR accG accB : Q) (nR nG nB : Z),
  (accR == inject_Z nR)%Q -> (accG == inject_Z nG)%Q -> (accB == inject_Z nB)%Q ->
  0 <= nR -> 0 <= nG -> 0 <= nB ->
  nR + 255 * Z.of_nat (length colorArray) <= 2 ^ 53 ->
  nG + 255 * Z.of_nat (length colorArray) <= 2 ^ 53 ->
  nB + 255 * Z.of_nat (length colorArray) <= 2 ^ 53 ->
  exists totalR totalG totalB : Q,
    totals fl colorArray (Num accR, Num accG, Num accB)
      = (Num totalR, Num totalG, Num totalB)
    /\ (totalR == inject_Z (nR + sumOf redOf colorArray))%Q
    /\ (totalG == inject_Z (nG + sumOf greenOf colorArray))%Q
    /\ (totalB == inject_Z (nB + sumOf blueOf colorArray))%Q.
Proof using fl_proper fl_integer.
  induction 1 as [| slot rest Hslot _ IH];
    intros accR accG accB nR nG nB HR HG HB HnR HnG HnB HbR HbG HbB.
  - exists accR, accG, accB. simpl. rewrite !Z.add_0_r. auto.
  - destruct slot as [[[[r |] [g |]] [b |]] |]; simpl in Hslot; try contradiction.
    destruct Hslot as ((Hr0 & Hr1) & (Hg0 & Hg1) & (Hb0 & Hb1)).
    rewrite length_cons, Nat2Z.inj_succ in HbR, HbG, HbB.
    destruct (num_add_exact accR nR r HR HnR Hr0 ltac:(lia)) as (aR & EqR & HaR).
    destruct (num_add_exact accG nG g HG HnG Hg0 ltac:(lia)) as (aG & EqG & HaG).
    destruct (num_add_exact accB nB b HB HnB Hb0 ltac:(lia)) as (aB & EqB & HaB).
    cbn [totals]. rewrite EqR, EqG, EqB.
    destruct (IH aR aG aB (nR + r) (nG + g) (nB + b) HaR HaG HaB
                ltac:(lia) ltac:(lia) ltac:(lia) ltac:(lia) ltac:(lia) ltac:(lia))
      as (tR & tG & tB & Eq & HtR & HtG & HtB).
    exists tR, tG, tB. split; [exact Eq |].
    cbn [sumOf foldr redOf greenOf blueOf]. fold (sumOf redOf rest).
    fold (sumOf greenOf rest). fold (sumOf blueOf rest).
    rewrite !Z.add_assoc. auto.
Qed.

(** From the total on, a channel depends on the total's value only. *)
Lemma saturated_proper (total total' : Q) (len : nat) (saturation : Q) :
  (total == total')%Q ->
  math_floor (num_div_length fl (Num total) len)
  = math_floor (num_div_length fl (Num total') len).
Proof using fl_proper.
  intros Heq. destruct len as [| n]; [reflexivity |]. simpl.
  do 2 f_equal. apply Qfloor_comp. apply fl_proper. rewrite Heq. reflexivity.
Qed.

(** X15.  The aggregated colour does not depend on the order of the
    zones: for byte-valued arrays short enough for their channel sums to
    stay below 2^53, a permutation of the array gives the same colour. *)
Theorem getAverageColorString_order_independent
    (colorArray colorArray' : zone) (alpha : Q) (s : t) :
  Permutation colorArray colorArray' ->
  Forall byte_valued colorArray ->
  255 * Z.of_nat (length colorArray) <= 2 ^ 53 ->
  getAverageColorString fl colorArray alpha s
  = getAverageColorString fl colorArray' alpha s.
Proof using fl_proper fl_integer.
  intros Hperm Hall Hlen.
  assert (Hall' : Forall byte_valued colorArray')
    by (eapply Permutation_Forall; eassumption).
  pose proof (Permutation_length Hperm) as Hl.
  destruct (totals_exact colorArray Hall 0 0 0 0 0 0) as (tR & tG & tB & Eq & HR & HG & HB);
    try reflexivity; try lia.
  destruct (totals_exact colorArray' Hall' 0 0 0 0 0 0)
    as (tR' & tG' & tB' & Eq' & HR' & HG' & HB');
    try reflexivity; try lia.
  unfold getAverageColorString. rewrite Eq, Eq', <- Hl.
  rewrite <- (sumOf_Permutation redOf _ _ Hperm) in HR'.
  rewrite <- (sumOf_Permutation greenOf _ _ Hperm) in HG'.
  rewrite <- (sumOf_Permutation blueOf _ _ Hperm) in HB'.
  rewrite (saturated_proper tR tR' _ 0) by (rewrite HR, HR'; reflexivity).
  rewrite (saturated_proper tG tG' _ 0) by (rewrite HG, HG'; reflexivity).
  rewrite (saturated_proper tB tB' _ 0) by (rewrite HB, HB'; reflexivity).
  reflexivity.
Qed.

End OrderIndependence.

Lemma getAverageColorString_order_independent_witness :
  getAverageColorString (fun q => q)
    [Some (Some 255, Some 10, Some 0); Some (Some 3, Some 20, Some 9)]
    1 (constructor None)
  = getAverageColorString (fun q => q)
    [Some (Some 3, Some 20, Some 9); Some (Some 255, Some 10, Some 0)]
    1 (constructor None).
Proof.
  apply (getAverageColorString_order_independent (fun q => q)).
  - intros x y Hxy. exact Hxy.
  - intros n Hn. reflexivity.
  - apply perm_swap.
  - repeat constructor; simpl; lia.
  - vm_compute. discriminate.
Defined.

End BacklightSystemExtras.


(** * Further properties of BacklightRecordingOptimizer *)

Module RecordingExtras.

Import BacklightRecordingOptimizer RecordingProperties.

(** ** enable and disable *)

Lemma enable_spec (s : t) (o : Visualizer.options) :
  visualizer s = Some o ->
  enable s =
    (Ret true,
     set_isEnabled true
       (set_visualizer (Some (recordingOptions o))
          (set_originalSettings (Some (saved_of o)) s)),
     [Call "enable"]).
Proof.
  intros Hv. destruct s as [v en os rec chunks recs proms]. simpl in Hv. subst v.
  unfold enable. run. reflexivity.
Qed.

Lemma disable_spec (s : t) (o : Visualizer.options) (sv : saved) :
  visualizer s = Some o ->
  originalSettings s = Some sv ->
  disable s =
    (Ret true,
     set_isEnabled false
       (set_visualizer (Some (Visualizer.Options
            (Visualizer.colorIntensity o) (Visualizer.edgeFalloff o)
            (Visualizer.transitionSpeed o) (os_visualizationMode sv)
            (os_colorSaturation sv) (os_edgeEmphasis sv))) s),
     [Call "disable"]).
Proof.
  intros Hv Hos. destruct s as [v en os rec chunks recs proms].
  simpl in Hv, Hos. subst v os. unfold disable. run. reflexivity.
Qed.

(** X16.  [enable()] followed by [disable()] gives the visualizer back
    every option as it was, and both calls report success; the saved values
    stay on record. *)
Theorem enable_disable_round_trip (s : t) (o : Visualizer.options) :
  visualizer s = Some o ->
  let r1 := enable s in
  let r2 := disable (state_of r1) in
  outcome_of r1 = Ret true
  /\ outcome_of r2 = Ret true
  /\ visualizer (state_of r2) = Some o
  /\ isEnabled (state_of r2) = false
  /\ originalSettings (state_of r2) = Some (saved_of o).
Proof.
  intros Hv. cbv zeta. rewrite (enable_spec s o Hv).
  erewrite disable_spec by reflexivity.
  destruct o. repeat split; reflexivity.
Qed.

Lemma enable_disable_round_trip_witness :
  visualizer (state_of (disable (state_of (enable (constructor (Some studioOptions))))))
  = Some studioOptions.
Proof.
  exact (proj1 (proj2 (proj2
    (enable_disable_round_trip (constructor (Some studioOptions)) studioOptions
       eq_refl)))).
Defined.

(** X17.  A second [enable()] before the [disable()] loses the original
    options: it saves the recording values over them, so the [disable()]
    that follows leaves saturation 1.3, mode 'backlight' and emphasis 0.9
    in place, whatever the visualizer had. *)
Theorem enable_twice_loses_original (s : t) (o : Visualizer.options) :
  visualizer s = Some o ->
  let s3 := state_of ((enable ;;; enable ;;; disable) s) in
  Visualizer.recordingBag <$> visualizer s3
    = Some (JNum (13 # 10), JStr "backlight", JNum (9 # 10))
  /\ originalSettings s3
     = Some (Saved (JNum (13 # 10)) (JStr "backlight") (JNum (9 # 10))).
Proof.
  intros Hv. destruct s as [v en os rec chunks recs proms]. simpl in Hv. subst v.
  unfold enable, disable. run. split; reflexivity.
Qed.

Lemma enable_twice_loses_original_witness :
  Visualizer.recordingBag <$>
    visualizer (state_of ((enable ;;; enable ;;; disable)
                            (constructor (Some studioOptions))))
  = Some (JNum (13 # 10), JStr "backlight", JNum (9 # 10)).
Proof.
  exact (proj1 (enable_twice_loses_original (constructor (Some studioOptions))
                  studioOptions eq_refl)).
Defined.

(** X18.  With nothing to work on the two methods refuse and change
    nothing: [enable()] without a visualizer returns false, and so does
    [disable()] without a visualizer or before anything was saved. *)
Theorem enable_disable_refuse (s : t) :
  (visualizer s = None -> enable s = (Ret false, s, [Call "enable"]))
  /\ (visualizer s = None \/ originalSettings s = None ->
      disable s = (Ret false, s, [Call "disable"])).
Proof.
  destruct s as [v en os rec chunks recs proms]. simpl. split.
  - intros ->. reflexivity.
  - intros [-> | ->]; [reflexivity |]. destruct v; reflexivity.
Qed.

Lemma enable_disable_refuse_witness :
  enable (constructor None) = (Ret false, constructor None, [Call "enable"])
  /\ disable (constructor (Some studioOptions))
     = (Ret false, constructor (Some studioOptions), [Call "disable"]).
Proof.
  split.
  - exact (proj1 (enable_disable_refuse (constructor None)) eq_refl).
  - exact (proj2 (enable_disable_refuse (constructor (Some studioOptions)))
             (or_intror eq_refl)).
Defined.

(** ** stopRecording with nothing to stop *)

(** X19.  [stopRecording()] on an optimizer that never started a recording
    returns a promise that is already rejected with 'No recording in
    progress'; it does not call [disable()] and changes no field. *)
Theorem stopRecording_without_recorder (s : t) :
  recorder s = None ->
  stopRecording s =
    (Ret (length (promises s)),
     set_promises (promises s ++ [Rejected (Error "No recording in progress")]) s,
     []).
Proof.
  intros Hrec. destruct s as [v en os rec chunks recs proms]. simpl in Hrec. subst rec.
  unfold stopRecording, newPromise, settle. run. simpl.
  rewrite alter_new. reflexivity.
Qed.

Lemma stopRecording_without_recorder_witness :
  promises (state_of (stopRecording (constructor (Some studioOptions))))
  = [Rejected (Error "No recording in progress")].
Proof.
  rewrite (stopRecording_without_recorder (constructor (Some studioOptions)) eq_refl).
  reflexivity.
Defined.

(** ** What a recording contains *)

Definition nonEmpty (sizes : list chunk) : list chunk :=
  filter (fun size => 0 < size) sizes.

Lemma set_recordedChunks_same (s : t) : set_recordedChunks (recordedChunks s) s = s.
Proof. destruct s; reflexivity. Qed.

Lemma deliveries_exact (r : nat) (m : mediaRecorder) (sizes : list chunk) (s : t) :
  recorders s !! r = Some m ->
  ondataavailable m = true ->
  forEach (dispatchDataAvailable r) sizes s
    = (Ret tt, set_recordedChunks (recordedChunks s ++ nonEmpty sizes) s, []).
Proof.
  intros Hm Hon. revert s Hm.
  induction sizes as [| size l IH]; intros s Hm.
  - unfold nonEmpty. rewrite filter_nil, app_nil_r, set_recordedChunks_same.
    reflexivity.
  - cbn [forEach]. unfold bind at 1.
    assert (Hstep : dispatchDataAvailable r size s =
      (Ret tt,
       set_recordedChunks (recordedChunks s ++ nonEmpty [size]) s, [])).
    { unfold dispatchDataAvailable, ondataavailableHandler, nonEmpty.
      cbv [bind gets modify ret]. rewrite Hm, Hon.
      destruct (Z.ltb_spec 0 size) as [Hpos | Hnpos].
      - rewrite filter_cons_True by exact Hpos. reflexivity.
      - rewrite filter_cons_False by lia.
        rewrite ?filter_nil. destruct s as [v en os rec chunks recs proms].
        unfold set_recordedChunks. cbn. repeat f_equal. symmetry. apply app_nil_r. }
    rewrite Hstep, IH by exact Hm.
    destruct s as [v en os rec chunks recs proms]. unfold nonEmpty. simpl.
    change (size :: l) with ([size] ++ l).
    rewrite filter_app, app_assoc. reflexivity.
Qed.

(** X20.  The recording that a session's promise resolves with consists of
    exactly the chunks of positive size that the browser delivered between
    [startRecording] and the [stop] event, in the order of delivery;
    whatever had been recorded before the session is not part of it. *)
Theorem session_recording (c : canvasElement) (a : option audioContext)
    (during final : list chunk) (s : t) (o : Visualizer.options) :
  visualizer s = Some o ->
  let res := session c a during final s in
  outcome_of res = Ret (length (promises s))
  /\ promises (state_of res) !! length (promises s)
     = Some (Resolved (nonEmpty (during ++ final)))
  /\ recordedChunks (state_of res) = nonEmpty (during ++ final).
Proof.
  intros Hv. cbv zeta.
  pose proof (startRecording_spec c a s o Hv) as H1.
  set (s1 := Make (Some (recordingOptions o)) true (Some (saved_of o))
               (Some (length (recorders s))) []
               (recorders s ++ [MediaRecorder Recording true None false])
               (promises s)) in H1.
  pose proof (deliveries_exact (length (recorders s)) _ during s1
                (lookup_new _ _) eq_refl) as H2.
  cbn [recordedChunks s1 app] in H2.
  pose proof (stopRecording_spec (set_recordedChunks (nonEmpty during) s1)
                (length (recorders s)) eq_refl (lookup_new _ _)) as H3.
  set (s3 := set_promises _ _) in H3.
  assert (Hm3 : recorders s3 !! length (recorders s)
                = Some (MediaRecorder Inactive true (Some (length (promises s))) true)).
  { subst s3. cbn [recorders set_promises set_recorders set_recordedChunks s1 promises].
    rewrite alter_new. apply lookup_new. }
  pose proof (deliveries_exact (length (recorders s)) _ final s3 Hm3 eq_refl) as H4.
  pose proof (dispatchStop_spec
                (set_recordedChunks (recordedChunks s3 ++ nonEmpty final) s3)
                (length (recorders s)) (length (promises s)) o (recordingOptions o)
                eq_refl eq_refl Hm3) as H5.
  assert (Hses : session c a during final s =
    (Ret (length (promises s)),
     state_of (dispatchStop (length (recorders s))
                 (set_recordedChunks (recordedChunks s3 ++ nonEmpty final) s3)),
     (Call "enable" :: CaptureStream 60 :: map AddTrack (audioTracks a))
       ++ [] ++ [] ++ [] ++ [] ++ [Call "disable"] ++ [])).
  { unfold session.
    erewrite bind_Ret; [reflexivity | exact H1 |].
    erewrite bind_Ret; [reflexivity | reflexivity |].
    erewrite bind_Ret; [reflexivity | exact H2 |].
    erewrite bind_Ret; [reflexivity | exact H3 |].
    erewrite bind_Ret; [reflexivity | exact H4 |].
    erewrite bind_Ret; [reflexivity | exact H5 | rewrite H5; reflexivity]. }
  rewrite Hses, H5. unfold outcome_of, state_of. cbn [fst snd].
  assert (Hchunks : recordedChunks s3 ++ nonEmpty final = nonEmpty (during ++ final)).
  { subst s3. unfold nonEmpty. rewrite filter_app. reflexivity. }
  cbn [promises recordedChunks set_recordedChunks].
  rewrite Hchunks. split; [reflexivity | split; [| reflexivity]].
  subst s3. cbn [promises set_promises set_recordedChunks set_recorders s1].
  rewrite alter_new. apply lookup_new.
Qed.

Lemma session_recording_witness :
  promises (state_of (session Canvas None [5; 0] [7; 0; 2]
    (state_of (session Canvas None [9] [] (constructor (Some studioOptions))))))
  !! 1%nat
  = Some (Resolved [5; 7; 2]).
Proof.
  exact (proj1 (proj2 (session_recording Canvas None [5; 0] [7; 0; 2]
    (state_of (session Canvas None [9] [] (constructor (Some studioOptions))))
    studioOptions eq_refl))).
Defined.

(** X21.  Two recordings started one over the other are not kept apart:
    the first recorder keeps its data handler, and a chunk it delivers
    after the second [startRecording] goes into the chunks of the second
    recording. *)
Theorem orphaned_recorder_feeds_new_recording
    (c : canvasElement) (a a' : option audioContext) (s : t) (o : Visualizer.options)
    (size : chunk) :
  visualizer s = Some o ->
  0 < size ->
  let first := length (recorders s) in
  let s2 := state_of ((startRecording (Some c) a ;;; startRecording (Some c) a') s) in
  recorder s2 = Some (S first)
  /\ recordedChunks s2 = []
  /\ recordedChunks (state_of (dispatchDataAvailable first size s2)) = [size].
Proof.
  intros Hv Hsize. cbv zeta.
  pose proof (startRecording_spec c a s o Hv) as H1.
  set (s1 := Make _ _ _ _ _ _ _) in H1.
  pose proof (startRecording_spec c a' s1 (recordingOptions o) eq_refl) as H2.
  erewrite bind_Ret; [| exact H1 | exact H2].
  unfold state_of. cbn [fst snd]. subst s1.
  cbn [recorder recordedChunks recorders]. rewrite length_app. cbn [length].
  split; [f_equal; lia | split; [reflexivity |]].
  unfold dispatchDataAvailable, ondataavailableHandler.
  cbv [bind gets modify ret]. cbn [recorders].
  rewrite (lookup_old _ _ (MediaRecorder Recording true None false))
    by apply lookup_new.
  cbn [ondataavailable]. rewrite (proj2 (Z.ltb_lt 0 size) Hsize). reflexivity.
Qed.

Lemma orphaned_recorder_feeds_new_recording_witness :
  let s2 := state_of ((startRecording (Some Canvas) None ;;; startRecording (Some Canvas) None)
                        (constructor (Some studioOptions))) in
  recordedChunks (state_of (dispatchDataAvailable 0 4 s2)) = [4].
Proof.
  exact (proj2 (proj2 (orphaned_recorder_feeds_new_recording Canvas None None
    (constructor (Some studioOptions)) studioOptions 4 eq_refl eq_refl))).
Defined.

End RecordingExtras.


(** * Properties of the configuration dialog's applyConfig *)

Module ConfigDialogProperties.

Import BacklightSystem BacklightSystemProperties BacklightConfigDialog.

Definition enabledLine (enable : bool) : event :=
  ConsoleLog (if enable then "Backlight enhancement enabled"
              else "Backlight enhancement disabled").

(** [toggle] in terms of the method it delegates to. *)
Lemma toggle_unfold (enable : bool) (s : t) :
  toggle enable s =
    match (if enable then applyOptimizedSettings else restoreStandardSettings)
            (set_isEnabled enable s) with
    | (Ret _, s1, tr) => (Ret (isEnabled s1), s1, enabledLine enable :: tr)
    | (Throw e, s1, tr) => (Throw e, s1, enabledLine enable :: tr)
    end.
Proof.
  unfold toggle, enabledLine. cbv [bind modify gets emit].
  change (isEnabled (set_isEnabled enable s)) with enable.
  destruct enable.
  - destruct (applyOptimizedSettings (set_isEnabled true s)) as [[[[] | e] s1] tr];
      cbn; rewrite ?app_nil_r; reflexivity.
  - destruct (restoreStandardSettings (set_isEnabled false s)) as [[[[] | e] s1] tr];
      cbn; rewrite ?app_nil_r; reflexivity.
Qed.

Lemma applyOptimizedSettings_returns (s : t) :
  exists s1, applyOptimizedSettings s = (Ret tt, s1, [])
             /\ isEnabled s1 = isEnabled s.
Proof.
  destruct (visualizer s) as [o |] eqn:Hv.
  - rewrite (applyOptimizedSettings_spec s o Hv). eexists. split; [reflexivity |].
    destruct (String.eqb (backlightMode s) "adaptive"); reflexivity.
  - exists s. destruct s as [v en m em sat sm sp sys ez ps pvm].
    simpl in Hv. subst v. split; reflexivity.
Qed.

Lemma restoreStandardSettings_returns (s : t) :
  exists s1, restoreStandardSettings s = (Ret tt, s1, [])
             /\ isEnabled s1 = isEnabled s.
Proof.
  destruct (visualizer s) as [o |] eqn:Hv; [destruct (previousSettings s) as [p |] eqn:Hp |].
  - rewrite (restoreStandardSettings_spec s o p Hv Hp). eexists. split; [reflexivity |].
    destruct (truthy (previousVisualizationMode s)); reflexivity.
  - rewrite (restoreStandardSettings_without_snapshot s Hp). exists s. auto.
  - rewrite (restoreStandardSettings_without_visualizer s Hv). exists s. auto.
Qed.

Lemma toggle_returns (enable : bool) (s : t) :
  exists s1 tr, toggle enable s = (Ret enable, s1, tr) /\ isEnabled s1 = enable.
Proof.
  rewrite toggle_unfold. destruct enable.
  - destruct (applyOptimizedSettings_returns (set_isEnabled true s)) as (s1 & -> & Hen).
    exists s1. eexists. rewrite Hen. split; reflexivity.
  - destruct (restoreStandardSettings_returns (set_isEnabled false s)) as (s1 & -> & Hen).
    exists s1. eexists. rewrite Hen. split; reflexivity.
Qed.

Lemma setMode_spec (mode : string) (s : t) :
  exists emphasis saturation smoothing tr,
    setMode mode s =
      (Ret tt, set_tuning emphasis saturation smoothing (set_backlightMode mode s), tr).
Proof.
  destruct s as [v en m em sat sm sp sys ez ps pvm].
  unfold setMode, attemptDirectConnection, scanForBacklightSystems.
  cbv [bind modify gets emit ret].
  destruct (String.eqb mode "adaptive"); [do 4 eexists; reflexivity |].
  destruct (String.eqb mode "direct"); [exists em, sat, sm; eexists; reflexivity |].
  destruct (String.eqb mode "ambilight"); [do 4 eexists; reflexivity |].
  exists em, sat, sm. eexists. reflexivity.
Qed.

(** What [applyConfig] leaves, given what [toggle] left. *)
Lemma applyConfigTo_spec (c : config) (s : t) :
  exists s1 tr1 tr,
    toggle (enabled c) s = (Ret (enabled c), s1, tr1)
    /\ applyConfigTo c s =
       (Ret tt,
        Make (visualizer s1) (isEnabled s1) (mode c) (edgeEmphasis c) (colorSaturation c)
             (smoothingFactor c) (transitionSpeed c) (supportedSystems s1) (edgeZones s1)
             (previousSettings s1) (previousVisualizationMode s1),
        tr).
Proof.
  destruct (toggle_returns (enabled c) s) as (s1 & tr1 & Ht & _).
  destruct (setMode_spec (mode c) s1) as (em & sat & sm & tr2 & Hm).
  exists s1, tr1. eexists. split; [exact Ht |].
  unfold applyConfigTo.
  erewrite RecordingProperties.bind_Ret; [reflexivity | exact Ht |].
  erewrite RecordingProperties.bind_Ret; [reflexivity | exact Hm |].
  destruct s1 as [v en m em1 sat1 sm1 sp sys ez ps pvm].
  cbv [bind modify]. cbn. reflexivity.
Qed.

(** X22.  After [applyConfig] the controller is enabled or disabled as the
    configuration says and carries the configuration's mode, emphasis,
    saturation, smoothing and transition speed: the tuning that [setMode]
    sets for the mode is overwritten by the configuration's.  The call does
    not throw. *)
Theorem applyConfig_sets_tuning (c : config) (s : t) :
  let r := applyConfigTo c s in
  outcome_of r = Ret tt
  /\ isEnabled (state_of r) = enabled c
  /\ backlightMode (state_of r) = mode c
  /\ BacklightSystem.edgeEmphasis (state_of r) = edgeEmphasis c
  /\ BacklightSystem.colorSaturation (state_of r) = colorSaturation c
  /\ BacklightSystem.smoothingFactor (state_of r) = smoothingFactor c
  /\ BacklightSystem.transitionSpeed (state_of r) = transitionSpeed c.
Proof.
  cbv zeta. destruct (applyConfigTo_spec c s) as (s1 & tr1 & tr & Ht & ->).
  destruct (toggle_returns (enabled c) s) as (s1' & tr1' & Ht' & Hen).
  rewrite Ht in Ht'. injection Ht' as <- <-.
  unfold outcome_of, state_of. cbn [fst snd isEnabled backlightMode
    BacklightSystem.edgeEmphasis BacklightSystem.colorSaturation
    BacklightSystem.smoothingFactor BacklightSystem.transitionSpeed].
  repeat split; try reflexivity. exact Hen.
Qed.

Lemma state_of_bind {A B} (m : M t A) (k : A -> M t B) (s : t) (a : A) :
  outcome_of (m s) = Ret a ->
  state_of (bind m k s) = state_of (k a (state_of (m s))).
Proof.
  unfold bind, outcome_of, state_of. destruct (m s) as [[[a' | e] s1] tr1]; simpl.
  - intros [= ->]. destruct (k a s1) as [[r s2] tr2]. reflexivity.
  - discriminate.
Qed.

(** What survives of [toggle]'s work in the state [applyConfig] leaves. *)
Lemma applyConfigTo_fields (c : config) (s : t) :
  outcome_of (applyConfigTo c s) = Ret tt
  /\ visualizer (state_of (applyConfigTo c s))
     = visualizer (state_of (toggle (enabled c) s))
  /\ previousSettings (state_of (applyConfigTo c s))
     = previousSettings (state_of (toggle (enabled c) s))
  /\ BacklightSystem.colorSaturation (state_of (applyConfigTo c s)) = colorSaturation c
  /\ BacklightSystem.edgeEmphasis (state_of (applyConfigTo c s)) = edgeEmphasis c
  /\ BacklightSystem.transitionSpeed (state_of (applyConfigTo c s)) = transitionSpeed c.
Proof.
  destruct (applyConfigTo_spec c s) as (s1 & tr1 & tr & Ht & ->). rewrite Ht.
  repeat split; reflexivity.
Qed.

Lemma toggle_true_fields (s : t) (o : Visualizer.options) :
  visualizer s = Some o ->
  exists vm,
    visualizer (state_of (toggle true s))
      = Some (Visualizer.Options
                (JNum (BacklightSystem.colorSaturation s))
                (JNum (BacklightSystem.edgeEmphasis s))
                (JStr (BacklightSystem.transitionSpeed s)) vm
                (Visualizer.colorSaturation o) (Visualizer.edgeEmphasis o))
    /\ previousSettings (state_of (toggle true s)) = Some (snapshot_of o).
Proof.
  intros Hv. rewrite toggle_unfold.
  rewrite (applyOptimizedSettings_spec (set_isEnabled true s) o)
    by (destruct s; exact Hv).
  change (backlightMode (set_isEnabled true s)) with (backlightMode s).
  destruct (String.eqb (backlightMode s) "adaptive"); eexists;
    destruct s; split; reflexivity.
Qed.

Lemma toggle_false_fields (s : t) (o : Visualizer.options) (p : snapshot) :
  visualizer s = Some o ->
  previousSettings s = Some p ->
  exists vm,
    visualizer (state_of (toggle false s))
      = Some (Visualizer.Options (ps_colorIntensity p) (ps_edgeFalloff p)
                (ps_transitionSpeed p) vm
                (Visualizer.colorSaturation o) (Visualizer.edgeEmphasis o)).
Proof.
  intros Hv Hp. rewrite toggle_unfold.
  rewrite (restoreStandardSettings_spec (set_isEnabled false s) o p)
    by (destruct s; assumption).
  change (previousVisualizationMode (set_isEnabled false s))
    with (previousVisualizationMode s).
  destruct (truthy (previousVisualizationMode s)); eexists; reflexivity.
Qed.

(** X23.  A configuration reaches the renderer one Apply late.  With the
    enabled box checked, [applyConfig] hands the renderer the saturation,
    emphasis and transition speed that the controller had before the call,
    not those of the configuration being applied, because it writes the
    configuration into the controller only after [toggle] has copied the
    controller's values to the renderer. *)
Theorem applyConfig_renderer_lags (c : config) (s : t) (o : Visualizer.options) :
  enabled c = true ->
  visualizer s = Some o ->
  let s' := state_of (applyConfigTo c s) in
  option_field Visualizer.colorIntensity s' = Some (JNum (BacklightSystem.colorSaturation s))
  /\ option_field Visualizer.edgeFalloff s' = Some (JNum (BacklightSystem.edgeEmphasis s))
  /\ option_field Visualizer.transitionSpeed s'
     = Some (JStr (BacklightSystem.transitionSpeed s)).
Proof.
  intros Hen Hv. cbv zeta.
  destruct (applyConfigTo_fields c s) as (_ & Hvis & _).
  destruct (toggle_true_fields s o Hv) as (vm & Ht & _).
  unfold option_field. rewrite Hvis, Hen, Ht. repeat split; reflexivity.
Qed.

Lemma applyConfig_renderer_lags_witness :
  let c := Config true "ambilight" (9 # 10) (15 # 10) (1 # 10) "fast" true false true in
  option_field Visualizer.colorIntensity
    (state_of (applyConfigTo c (constructor (Some spectrumOptions))))
  = Some (JNum (12 # 10)).
Proof.
  exact (proj1 (applyConfig_renderer_lags
    (Config true "ambilight" (9 # 10) (15 # 10) (1 # 10) "fast" true false true)
    (constructor (Some spectrumOptions)) spectrumOptions eq_refl eq_refl)).
Defined.

(** X24.  Pressing Apply twice with the enabled box checked and then once
    with it cleared does not give the renderer its own parameters back: it
    ends with the controller's saturation, emphasis and transition speed
    from before the first Apply, whatever its colour intensity, edge
    falloff and transition speed were. *)
Theorem applyConfig_twice_then_disable (c1 c2 c3 : config) (s : t) (o : Visualizer.options) :
  enabled c1 = true -> enabled c2 = true -> enabled c3 = false ->
  visualizer s = Some o ->
  let s' := state_of ((applyConfigTo c1 ;;; applyConfigTo c2 ;;; applyConfigTo c3) s) in
  option_field Visualizer.colorIntensity s' = Some (JNum (BacklightSystem.colorSaturation s))
  /\ option_field Visualizer.edgeFalloff s' = Some (JNum (BacklightSystem.edgeEmphasis s))
  /\ option_field Visualizer.transitionSpeed s'
     = Some (JStr (BacklightSystem.transitionSpeed s)).
Proof.
  intros H1 H2 H3 Hv. cbv zeta.
  destruct (applyConfigTo_fields c1 s) as (Hout1 & Hvis1 & _).
  rewrite (state_of_bind _ _ s tt Hout1).
  set (sA := state_of (applyConfigTo c1 s)) in *.
  destruct (toggle_true_fields s o Hv) as (vmA & HtA & _).
  rewrite H1, HtA in Hvis1.
  destruct (applyConfigTo_fields c2 sA) as (Hout2 & Hvis2 & Hps2 & _).
  rewrite (state_of_bind _ _ sA tt Hout2).
  set (sB := state_of (applyConfigTo c2 sA)) in *.
  destruct (toggle_true_fields sA _ Hvis1) as (vmB & HtB & HpB).
  rewrite H2, HtB in Hvis2. rewrite H2, HpB in Hps2.
  destruct (applyConfigTo_fields c3 sB) as (_ & Hvis3 & _).
  destruct (toggle_false_fields sB _ _ Hvis2 Hps2) as (vmC & HtC).
  unfold option_field. rewrite Hvis3, H3, HtC. repeat split; reflexivity.
Qed.

Lemma applyConfig_twice_then_disable_witness :
  let on := Config true "ambilight" (9 # 10) (15 # 10) (1 # 10) "fast" true false true in
  let off := Config false "ambilight" (9 # 10) (15 # 10) (1 # 10) "fast" true false true in
  option_field Visualizer.colorIntensity
    (state_of ((applyConfigTo on ;;; applyConfigTo on ;;; applyConfigTo off)
                 (constructor (Some unsetOptions))))
  = Some (JNum (12 # 10)).
Proof.
  exact (proj1 (applyConfig_twice_then_disable
    (Config true "ambilight" (9 # 10) (15 # 10) (1 # 10) "fast" true false true)
    (Config true "ambilight" (9 # 10) (15 # 10) (1 # 10) "fast" true false true)
    (Config false "ambilight" (9 # 10) (15 # 10) (1 # 10) "fast" true false true)
    (constructor (Some unsetOptions)) unsetOptions eq_refl eq_refl eq_refl eq_refl)).
Defined.

End ConfigDialogProperties.


(** * Properties of BacklightVisualizer *)

Module BacklightVisualizerProperties.

Import BacklightVisualizer.

(** ** The edge points only grow *)

Section EdgePoints.

Variable fl : Q -> Q.

(** [p'] holds the points of [p] and, after them, [nt], [nr], [nb] and
    [nl] more on the four edges. *)
Definition grown (nt nr nb nl : nat) (p p' : edgePoints) : Prop :=
  exists kt kr kb kl,
    p' = EdgePoints (top p ++ kt) (right p ++ kr) (bottom p ++ kb) (left p ++ kl)
    /\ length kt = nt /\ length kr = nr /\ length kb = nb /\ length kl = nl.

Lemma grown_refl (p : edgePoints) : grown 0 0 0 0 p p.
Proof.
  exists [], [], [], []. rewrite !app_nil_r. destruct p. auto.
Qed.

Lemma grown_trans (a b c d a' b' c' d' : nat) (p q r : edgePoints) :
  grown a b c d p q -> grown a' b' c' d' q r ->
  grown (a + a') (b + b') (c + c') (d + d') p r.
Proof.
  intros (kt & kr & kb & kl & -> & <- & <- & <- & <-)
         (kt' & kr' & kb' & kl' & -> & <- & <- & <- & <-).
  exists (kt ++ kt'), (kr ++ kr'), (kb ++ kb'), (kl ++ kl').
  cbn [top right bottom left]. rewrite <- !app_assoc, !length_app. auto.
Qed.

Lemma grown_push_top x p : grown 1 0 0 0 p (push_top x p).
Proof. exists [x], [], [], []. unfold push_top. rewrite !app_nil_r. auto. Qed.
Lemma grown_push_right x p : grown 0 1 0 0 p (push_right x p).
Proof. exists [], [x], [], []. unfold push_right. rewrite !app_nil_r. auto. Qed.
Lemma grown_push_bottom x p : grown 0 0 1 0 p (push_bottom x p).
Proof. exists [], [], [x], []. unfold push_bottom. rewrite !app_nil_r. auto. Qed.
Lemma grown_push_left x p : grown 0 0 0 1 p (push_left x p).
Proof. exists [], [], [], [x]. unfold push_left. rewrite !app_nil_r. auto. Qed.

(** What band [i] adds at the sides, and at most at the top and bottom. *)
Definition sideLeft (i : nat) : nat := if (i <? 4)%nat then 1 else 0.
Definition sideRight (i : nat) : nat :=
  if (i <? 4)%nat then 0 else if (12 <=? i)%nat then 1 else 0.
Definition mayTop (i : nat) : nat := if (i mod 4 =? 0)%nat then 1 else 0.
Definition mayBottom (i : nat) : nat := if (i mod 4 =? 2)%nat then 1 else 0.

Lemma drawBar_grows (frequencyData : list Z) (width height i : nat)
    (s : t) (calls : list call) :
  exists nt nb,
    grown nt (sideRight i) nb (sideLeft i) (points s)
      (points (fst (drawBar fl frequencyData width height i (s, calls))))
    /\ (nt <= mayTop i)%nat /\ (nb <= mayBottom i)%nat
    /\ visualizerOptions (fst (drawBar fl frequencyData width height i (s, calls)))
       = visualizerOptions s
    /\ length (snd (drawBar fl frequencyData width height i (s, calls)))
       = (length calls + 2)%nat.
Proof.
  unfold drawBar, sideLeft, sideRight, mayTop, mayBottom.
  cbv zeta. cbn [fst snd points set_points visualizerOptions].
  assert (Hlen : forall (l : list call) (x y : call),
            length (l ++ [x; y]) = (length l + 2)%nat)
    by (intros l x y; rewrite length_app; reflexivity).
  destruct (i <? 4)%nat; [| destruct (12 <=? i)%nat];
    (destruct (greater _ _);
     [destruct (i mod 4 =? 0)%nat eqn:H0; destruct (i mod 4 =? 2)%nat eqn:H2 |]);
    try (apply Nat.eqb_eq in H0, H2; lia);
    unfold push_top, push_right, push_bottom, push_left;
    cbn [top right bottom left];
    lazymatch goal with
    | |- exists nt nb, grown _ _ _ _ _ (EdgePoints ?a ?b ?c ?d) /\ _ =>
        let suffix l := lazymatch l with
                        | _ ++ ?k => k
                        | _ => constr:(@nil edgePoint)
                        end in
        let kt := suffix a in let kr := suffix b in
        let kb := suffix c in let kl := suffix d in
        exists (length kt), (length kb); split;
        [ exists kt, kr, kb, kl; rewrite ?app_nil_r; repeat split; reflexivity
        | cbn [length];
          repeat split; try apply Hlen; try reflexivity; lia ]
    | |- exists nt nb, grown _ _ _ _ _ (points s) /\ _ =>
        exists 0%nat, 0%nat; split;
        [ apply grown_refl | repeat split; try apply Hlen; lia ]
    end.
Qed.

Definition total (f : nat -> nat) (l : list nat) : nat :=
  foldr (fun i acc => (f i + acc)%nat) 0%nat l.

Lemma drawBars_grow (frequencyData : list Z) (width height : nat) (l : list nat)
    (s : t) (calls : list call) :
  let res := fold_left (fun acc i => drawBar fl frequencyData width height i acc)
               l (s, calls) in
  exists nt nb,
    grown nt (total sideRight l) nb (total sideLeft l) (points s) (points (fst res))
    /\ (nt <= total mayTop l)%nat /\ (nb <= total mayBottom l)%nat
    /\ visualizerOptions (fst res) = visualizerOptions s
    /\ length (snd res) = (length calls + 2 * length l)%nat.
Proof.
  cbv zeta. revert s calls. induction l as [| i l IH]; intros s calls.
  - exists 0%nat, 0%nat. cbn. split; [apply grown_refl |].
    repeat split; lia.
  - cbn [fold_left total foldr length].
    destruct (drawBar_grows frequencyData width height i s calls)
      as (nt1 & nb1 & Hg1 & Ht1 & Hb1 & Ho1 & Hc1).
    destruct (drawBar fl frequencyData width height i (s, calls)) as [s1 calls1].
    cbn [fst snd] in *.
    destruct (IH s1 calls1) as (nt2 & nb2 & Hg2 & Ht2 & Hb2 & Ho2 & Hc2).
    exists (nt1 + nt2)%nat, (nb1 + nb2)%nat.
    split; [exact (grown_trans _ _ _ _ _ _ _ _ _ _ _ Hg1 Hg2) |].
    fold (total mayTop l). fold (total mayBottom l).
    repeat split; try lia. congruence.
Qed.

Lemma drawCenterVisualization_grows
    (frequencyData timeData : list Z) (width height : nat) (s : t) :
  let res := drawCenterVisualization fl frequencyData timeData width height s in
  exists nt nb,
    grown nt 4 nb 4 (points s) (points (fst res))
    /\ (nt <= 4)%nat /\ (nb <= 4)%nat
    /\ visualizerOptions (fst res) = visualizerOptions s
    /\ length (snd res) = 32%nat.
Proof.
  exact (drawBars_grow frequencyData width height (seq 0 16) s []).
Qed.

(** X25.  One pass of [drawCenterVisualization] keeps every edge point
    there is and appends to them: exactly four on the left edge (bands 0 to
    3) and four on the right (bands 12 to 15), whatever the audio data, and
    at most four each at the top and the bottom.  It issues one fill style
    and one rectangle per band and leaves the options alone. *)
Theorem drawCenterVisualization_appends
    (frequencyData timeData : list Z) (width height : nat) (s : t) :
  let res := drawCenterVisualization fl frequencyData timeData width height s in
  exists nt nb,
    grown nt 4 nb 4 (points s) (points (fst res))
    /\ (nt <= 4)%nat /\ (nb <= 4)%nat
    /\ visualizerOptions (fst res) = visualizerOptions s
    /\ length (snd res) = 32%nat.
Proof.
  exact (drawCenterVisualization_grows frequencyData timeData width height s).
Qed.

(** A frame is its audio data and the canvas size at the time. *)
Definition drawFrame (s : t) (frame : list Z * (nat * nat)) : t :=
  fst (drawCenterVisualization fl (fst frame) [] (fst (snd frame)) (snd (snd frame)) s).

Definition drawn (frames : list (list Z * (nat * nat))) (s : t) : t :=
  fold_left drawFrame frames s.

Lemma drawFrame_lengths (s : t) (frame : list Z * (nat * nat)) :
  length (left (points (drawFrame s frame))) = (length (left (points s)) + 4)%nat
  /\ length (right (points (drawFrame s frame))) = (length (right (points s)) + 4)%nat.
Proof.
  unfold drawFrame.
  destruct (drawCenterVisualization_grows (fst frame) [] (fst (snd frame)) (snd (snd frame)) s)
    as (nt & nb & (kt & kr & kb & kl & Hp & _ & Hr & _ & Hl) & _).
  cbv zeta in Hp. rewrite Hp. cbn [left right]. rewrite !length_app, Hr, Hl. lia.
Qed.

Lemma fold_left_measure {A B : Type} (f : A -> B -> A) (m : A -> nat) (k : nat)
    (Hf : forall a b, m (f a b) = (m a + k)%nat) (l : list B) (a : A) :
  m (fold_left f l a) = (m a + k * length l)%nat.
Proof.
  revert a. induction l as [| b l IH]; intros a; cbn [fold_left length]; [lia |].
  rewrite IH, Hf. lia.
Qed.

(** X26.  Nothing ever empties [edgePoints]: after [n] frames a new
    visualizer holds exactly [4 n] points on the left edge and [4 n] on the
    right, so the lists grow with every frame drawn. *)
Theorem edgePoints_grow_with_frames
    (frames : list (list Z * (nat * nat))) (options : options) :
  let s := drawn frames (constructor options) in
  length (left (points s)) = (4 * length frames)%nat
  /\ length (right (points s)) = (4 * length frames)%nat.
Proof.
  cbv zeta. unfold drawn. split.
  - rewrite (fold_left_measure drawFrame (fun s => length (left (points s))) 4
               (fun a b => proj1 (drawFrame_lengths a b))).
    reflexivity.
  - rewrite (fold_left_measure drawFrame (fun s => length (right (points s))) 4
               (fun a b => proj2 (drawFrame_lengths a b))).
    reflexivity.
Qed.

End EdgePoints.

(** *** The mirror pass *)

(** The index of channel [k] of the pixel in row [y], column [c]. *)
Definition cell (w y c k : nat) : nat := ((y * w + c) * 4 + k)%nat.

(** The two indices one assignment of the loop body averages. *)
Definition pairOf (w : nat) (a : nat * nat * nat) : nat * nat :=
  (cell w (fst (fst a)) (snd (fst a)) (snd a),
   cell w (fst (fst a)) (w - 1 - snd (fst a)) (snd a)).

Definition pixelTriples (y x : nat) : list (nat * nat * nat) :=
  [(y, x, 0%nat); (y, x, 1%nat); (y, x, 2%nat)].

Definition rowTriples (w y : nat) : list (nat * nat * nat) :=
  columns w ≫= pixelTriples y.

(** Row, column and channel of every assignment, in the order of the loops. *)
Definition triples (w h : nat) : list (nat * nat * nat) :=
  seq 0 h ≫= rowTriples w.

Definition averageAll (ps : list (nat * nat)) (data : list Z) : list Z :=
  fold_left (fun data p => averagePair data (fst p) (snd p)) ps data.

Definition apart (p q : nat * nat) : Prop :=
  fst p <> fst q /\ fst p <> snd q /\ snd p <> fst q /\ snd p <> snd q.

Lemma averageAll_cons (p : nat * nat) (ps : list (nat * nat)) (data : list Z) :
  averageAll (p :: ps) data = averageAll ps (averagePair data (fst p) (snd p)).
Proof. reflexivity. Qed.

Lemma averageAll_app (ps qs : list (nat * nat)) (data : list Z) :
  averageAll (ps ++ qs) data = averageAll qs (averageAll ps data).
Proof. apply fold_left_app. Qed.

Lemma mirrorPixel_averageAll (w : nat) (data : list Z) (y x : nat) :
  mirrorPixel w data y x = averageAll (pairOf w <$> pixelTriples y x) data.
Proof.
  unfold mirrorPixel, averageAll, pixelTriples, pairOf, cell.
  cbn [fmap list_fmap fold_left fst snd]. rewrite !Nat.add_0_r. reflexivity.
Qed.

Lemma mirrorRow_averageAll (w : nat) (data : list Z) (y : nat) :
  mirrorRow w data y = averageAll (pairOf w <$> rowTriples w y) data.
Proof.
  unfold mirrorRow, rowTriples. generalize (columns w) as l. intros l. revert data.
  induction l as [| x l IH]; intros data; [reflexivity |].
  cbn [fold_left]. rewrite bind_cons, fmap_app, averageAll_app.
  rewrite <- mirrorPixel_averageAll. apply IH.
Qed.

Lemma mirrorPixels_averageAll (w h : nat) (data : list Z) :
  mirrorPixels w h data = averageAll (pairOf w <$> triples w h) data.
Proof.
  unfold mirrorPixels, triples. generalize (seq 0 h) as l. intros l. revert data.
  induction l as [| y l IH]; intros data; [reflexivity |].
  cbn [fold_left]. rewrite bind_cons, fmap_app, averageAll_app.
  rewrite <- mirrorRow_averageAll. apply IH.
Qed.

Lemma averagePair_length (data : list Z) (l r : nat) :
  length (averagePair data l r) = length data.
Proof. unfold averagePair. cbv zeta. rewrite !length_insert. reflexivity. Qed.

Lemma averagePair_other (data : list Z) (l r i : nat) :
  i <> l -> i <> r -> averagePair data l r !! i = data !! i.
Proof.
  intros Hl Hr. unfold averagePair. cbv zeta.
  rewrite !list_lookup_insert_ne by congruence. reflexivity.
Qed.

Lemma averagePair_left (data : list Z) (l r : nat) :
  (l < length data)%nat ->
  averagePair data l r !! l = Some (pairValue data l r).
Proof.
  intros Hl. unfold averagePair. cbv zeta.
  apply list_lookup_insert_eq. rewrite length_insert. exact Hl.
Qed.

Lemma averagePair_right (data : list Z) (l r : nat) :
  (r < length data)%nat ->
  averagePair data l r !! r = Some (pairValue data l r).
Proof.
  intros Hr. unfold averagePair. cbv zeta.
  destruct (decide (l = r)) as [-> | Hne].
  - apply list_lookup_insert_eq. rewrite length_insert. exact Hr.
  - rewrite list_lookup_insert_ne by exact Hne.
    apply list_lookup_insert_eq. exact Hr.
Qed.

Lemma averageAll_length (ps : list (nat * nat)) (data : list Z) :
  length (averageAll ps data) = length data.
Proof.
  revert data. induction ps as [| p ps IH]; intros data; [reflexivity |].
  rewrite averageAll_cons.
  rewrite IH. apply averagePair_length.
Qed.

Lemma averageAll_other (ps : list (nat * nat)) (data : list Z) (i : nat) :
  (forall p, p ∈ ps -> i <> fst p /\ i <> snd p) ->
  averageAll ps data !! i = data !! i.
Proof.
  revert data. induction ps as [| p ps IH]; intros data Hps; [reflexivity |].
  rewrite averageAll_cons.
  rewrite IH by (intros q Hq; apply Hps; right; exact Hq).
  destruct (Hps p) as [Hl Hr]; [left |]. apply averagePair_other; assumption.
Qed.

Lemma pairValue_other (data data' : list Z) (l r : nat) :
  data' !! l = data !! l -> data' !! r = data !! r ->
  pairValue data' l r = pairValue data l r.
Proof. intros Hl Hr. unfold pairValue. rewrite Hl, Hr. reflexivity. Qed.

(** Assignments that share no index do not disturb one another: each pair
    ends with the average of the values it had at the start. *)
Lemma averageAll_pair {K : Type} (f : K -> nat * nat) (ks : list K)
    (data : list Z) (key : K) :
  NoDup ks ->
  (forall a b, a ∈ ks -> b ∈ ks -> a <> b -> apart (f a) (f b)) ->
  key ∈ ks ->
  (fst (f key) < length data)%nat -> (snd (f key) < length data)%nat ->
  averageAll (f <$> ks) data !! fst (f key)
    = Some (pairValue data (fst (f key)) (snd (f key)))
  /\ averageAll (f <$> ks) data !! snd (f key)
     = Some (pairValue data (fst (f key)) (snd (f key))).
Proof.
  revert data. induction ks as [| a ks IH]; intros data Hnd Hap Hin Hl Hr.
  - inversion Hin.
  - apply NoDup_cons in Hnd as [Hnotin Hnd].
    rewrite fmap_cons, averageAll_cons.
    apply elem_of_cons in Hin as [-> | Hin'].
    + assert (Hrest : forall i, (i = fst (f a) \/ i = snd (f a)) ->
                forall p, p ∈ f <$> ks -> i <> fst p /\ i <> snd p).
      { intros i Hi p Hp. apply list_elem_of_fmap in Hp as (b & -> & Hb).
        assert (Hab : a <> b) by (intros ->; exact (Hnotin Hb)).
        destruct (Hap a b) as (H1 & H2 & H3 & H4);
          [left | right; exact Hb | exact Hab |].
        destruct Hi as [-> | ->]; split; assumption. }
      rewrite !averageAll_other by (apply Hrest; auto).
      split; [apply averagePair_left | apply averagePair_right]; assumption.
    + assert (Hne : key <> a) by (intros ->; exact (Hnotin Hin')).
      destruct (Hap key a) as (H1 & H2 & H3 & H4);
        [right; exact Hin' | left | exact Hne |].
      destruct (IH (averagePair data (fst (f a)) (snd (f a)))) as [IHl IHr].
      * exact Hnd.
      * intros b c Hb Hc. apply Hap; right; assumption.
      * exact Hin'.
      * rewrite averagePair_length. exact Hl.
      * rewrite averagePair_length. exact Hr.
      * rewrite IHl, IHr.
        rewrite (pairValue_other data) by (apply averagePair_other; assumption).
        split; reflexivity.
Qed.

Lemma cell_inj (w y c k y' c' k' : nat) :
  (c < w)%nat -> (c' < w)%nat -> (k < 4)%nat -> (k' < 4)%nat ->
  cell w y c k = cell w y' c' k' -> y = y' /\ c = c' /\ k = k'.
Proof.
  unfold cell. intros Hc Hc' Hk Hk' Heq.
  assert (Hk2 : k = k') by lia.
  assert (Hp : (y * w + c = y' * w + c')%nat) by lia.
  assert (Hy : y = y').
  { destruct (lt_eq_lt_dec y y') as [[Hlt | Heq'] | Hgt]; [| exact Heq' |].
    - assert ((y + 1) * w <= y' * w)%nat by (apply Nat.mul_le_mono_r; lia). lia.
    - assert ((y' + 1) * w <= y * w)%nat by (apply Nat.mul_le_mono_r; lia). lia. }
  subst. repeat split; lia.
Qed.

Lemma elem_of_triples (w h : nat) (a : nat * nat * nat) :
  a ∈ triples w h
  <-> (fst (fst a) < h)%nat /\ (2 * snd (fst a) < w)%nat /\ (snd a < 3)%nat.
Proof.
  destruct a as [[y x] k]. cbn [fst snd]. unfold triples, rowTriples, pixelTriples, columns.
  rewrite list_elem_of_bind. split.
  - intros (y' & Hrow & Hy). apply elem_of_seq in Hy.
    apply list_elem_of_bind in Hrow as (x' & Hpix & Hx).
    apply list_elem_of_filter in Hx as [Hx _].
    repeat (apply elem_of_cons in Hpix as [Hpix | Hpix];
            [inversion Hpix; subst; lia |]).
    inversion Hpix.
  - intros (Hy & Hx & Hk). exists y. split; [| apply elem_of_seq; lia].
    apply list_elem_of_bind. exists x. split.
    + assert (Hcases : k = 0%nat \/ k = 1%nat \/ k = 2%nat) by lia.
      destruct Hcases as [-> | [-> | ->]]; repeat constructor.
    + apply list_elem_of_filter. split; [exact Hx | apply elem_of_seq; lia].
Qed.

Lemma NoDup_triples (w h : nat) : NoDup (triples w h).
Proof.
  unfold triples. apply NoDup_bind; [| | apply NoDup_seq].
  - intros y1 y2 a _ _ H1 H2. unfold rowTriples, pixelTriples in H1, H2.
    apply list_elem_of_bind in H1 as (x1 & H1 & _).
    apply list_elem_of_bind in H2 as (x2 & H2 & _).
    repeat (apply elem_of_cons in H1 as [H1 | H1]; [| try (inversion H1; fail)]);
    repeat (apply elem_of_cons in H2 as [H2 | H2]; [| try (inversion H2; fail)]);
    try (inversion H1; fail); try (inversion H2; fail); congruence.
  - intros y _. unfold rowTriples. apply NoDup_bind.
    + intros x1 x2 a _ _ H1 H2. unfold pixelTriples in H1, H2.
      repeat (apply elem_of_cons in H1 as [H1 | H1]; [| try (inversion H1; fail)]);
      repeat (apply elem_of_cons in H2 as [H2 | H2]; [| try (inversion H2; fail)]);
      try (inversion H1; fail); try (inversion H2; fail); congruence.
    + intros x _. unfold pixelTriples.
      repeat (apply NoDup_cons; split;
              [rewrite ?elem_of_cons, elem_of_nil; intuition congruence |]).
      apply NoDup_nil_2.
    + unfold columns. apply NoDup_filter, NoDup_seq.
Qed.

Lemma pairOf_apart (w h : nat) (a b : nat * nat * nat) :
  a ∈ triples w h -> b ∈ triples w h -> a <> b -> apart (pairOf w a) (pairOf w b).
Proof.
  intros Ha Hb Hne. apply elem_of_triples in Ha as (_ & Hxa & Hka).
  apply elem_of_triples in Hb as (_ & Hxb & Hkb).
  destruct a as [[y x] k], b as [[y' x'] k']. cbn [fst snd] in *.
  unfold apart, pairOf. cbn [fst snd].
  repeat split; intros Heq; apply cell_inj in Heq as (-> & Hx & ->);
    try lia; apply Hne; repeat f_equal; lia.
Qed.

Lemma pairValue_comm (data : list Z) (l r : nat) :
  pairValue data l r = pairValue data r l.
Proof.
  unfold pairValue. destruct (data !! l), (data !! r); try reflexivity.
  rewrite Z.add_comm. reflexivity.
Qed.

Lemma cell_bound (w h y c k : nat) :
  (y < h)%nat -> (c < w)%nat -> (k < 4)%nat -> (cell w y c k < 4 * w * h)%nat.
Proof.
  intros Hy Hc Hk. unfold cell.
  assert ((y + 1) * w <= h * w)%nat by (apply Nat.mul_le_mono_r; lia). lia.
Qed.

(** Every colour channel of every pixel ends as the average of its first
    value and the first value of its mirror image. *)
Lemma mirrorPixels_colour (w h : nat) (data : list Z) (y x k : nat) :
  length data = (4 * w * h)%nat -> (y < h)%nat -> (x < w)%nat -> (k < 3)%nat ->
  mirrorPixels w h data !! cell w y x k
  = Some (pairValue data (cell w y x k) (cell w y (w - 1 - x) k)).
Proof.
  intros Hlen Hy Hx Hk. rewrite mirrorPixels_averageAll.
  destruct (decide (2 * x < w)%nat) as [Hleft | Hright].
  - destruct (averageAll_pair (pairOf w) (triples w h) data (y, x, k)) as [Hl _].
    + apply NoDup_triples.
    + apply pairOf_apart.
    + apply elem_of_triples. cbn [fst snd]. lia.
    + unfold pairOf. cbn [fst snd]. rewrite Hlen. apply cell_bound; lia.
    + unfold pairOf. cbn [fst snd]. rewrite Hlen. apply cell_bound; lia.
    + exact Hl.
  - destruct (averageAll_pair (pairOf w) (triples w h) data (y, (w - 1 - x)%nat, k))
      as [_ Hr].
    + apply NoDup_triples.
    + apply pairOf_apart.
    + apply elem_of_triples. cbn [fst snd]. lia.
    + unfold pairOf. cbn [fst snd]. rewrite Hlen. apply cell_bound; lia.
    + unfold pairOf. cbn [fst snd]. rewrite Hlen. apply cell_bound; lia.
    + change (snd (pairOf w (y, (w - 1 - x)%nat, k)))
        with (cell w y (w - 1 - (w - 1 - x)) k) in Hr.
      change (fst (pairOf w (y, (w - 1 - x)%nat, k)))
        with (cell w y (w - 1 - x) k) in Hr.
      replace (w - 1 - (w - 1 - x))%nat with x in Hr by lia.
      rewrite Hr. rewrite pairValue_comm. reflexivity.
Qed.

Lemma mirrorPixels_alpha (w h : nat) (data : list Z) (p : nat) :
  mirrorPixels w h data !! (p * 4 + 3)%nat = data !! (p * 4 + 3)%nat.
Proof.
  rewrite mirrorPixels_averageAll. apply averageAll_other.
  intros q Hq. apply list_elem_of_fmap in Hq as (a & -> & Ha).
  apply elem_of_triples in Ha as (_ & _ & Hk).
  unfold pairOf, cell. cbn [fst snd]. lia.
Qed.

Lemma mirrorPixels_length (w h : nat) (data : list Z) :
  length (mirrorPixels w h data) = length data.
Proof. rewrite mirrorPixels_averageAll. apply averageAll_length. Qed.

Lemma pairValue_range (data : list Z) (l r : nat) :
  0 <= pairValue data l r <= 255.
Proof.
  unfold pairValue, clamp. destruct (data !! l), (data !! r); lia.
Qed.

Lemma mirrorPixels_idempotent (w h : nat) (data : list Z) :
  length data = (4 * w * h)%nat ->
  mirrorPixels w h (mirrorPixels w h data) = mirrorPixels w h data.
Proof.
  intros Hlen. apply list_eq. intros i.
  destruct (decide (i < length data)%nat) as [Hi | Hi].
  - pose proof (Nat.div_mod_eq i 4) as Hdiv.
    pose proof (Nat.mod_upper_bound i 4 ltac:(lia)) as Hk.
    set (k := (i mod 4)%nat) in *. set (p := (i / 4)%nat) in *.
    destruct (decide (k = 3%nat)) as [Hk3 | Hk3].
    + replace i with (p * 4 + 3)%nat by lia. apply mirrorPixels_alpha.
    + assert (Hw : w <> 0%nat) by (intros ->; lia).
      pose proof (Nat.div_mod_eq p w) as Hdiv'.
      pose proof (Nat.mod_upper_bound p w Hw) as Hx.
      set (x := (p mod w)%nat) in *. set (y := (p / w)%nat) in *.
      assert (Hy : (y < h)%nat).
      { destruct (decide (y < h)%nat) as [Hy | Hy]; [exact Hy |].
        assert (h * w <= y * w)%nat by (apply Nat.mul_le_mono_r; lia). lia. }
      assert (Hcell : i = cell w y x k) by (unfold cell; lia).
      rewrite Hcell.
      rewrite (mirrorPixels_colour w h (mirrorPixels w h data))
        by (rewrite ?mirrorPixels_length; auto; lia).
      rewrite (mirrorPixels_colour w h data) by (auto; lia).
      f_equal. unfold pairValue at 1.
      rewrite (mirrorPixels_colour w h data) by (auto; lia).
      rewrite (mirrorPixels_colour w h data) by (auto; lia).
      replace (w - 1 - (w - 1 - x))%nat with x by lia.
      rewrite (pairValue_comm data (cell w y (w - 1 - x) k)).
      pose proof (pairValue_range data (cell w y x k) (cell w y (w - 1 - x) k)) as Hv.
      set (v := pairValue data (cell w y x k) (cell w y (w - 1 - x) k)) in *.
      replace (v + v) with (v * 2) by lia. rewrite Z.div_mul by lia.
      unfold clamp. lia.
  - rewrite !(proj2 (lookup_ge_None _ _)); [reflexivity | |];
      rewrite ?mirrorPixels_length; lia.
Qed.

(** X27.  On a frame of [width] by [height] pixels, [applyMirrorEffect]
    hands [putImageData] a picture in which every colour channel of every
    pixel and of its mirror image in the same row both hold the floor of the
    mean of the two values they had: the loops never average a value that
    an earlier iteration has already replaced. *)
Theorem applyMirrorEffect_averages (ctx : context) (width height : nat)
    (data : list Z) (y x k : nat) (a b : Z) :
  getImageData ctx 0 0 (Z.of_nat width) (Z.of_nat height) = Ret data ->
  length data = (4 * width * height)%nat ->
  (y < height)%nat -> (x < width)%nat -> (k < 3)%nat ->
  data !! cell width y x k = Some a ->
  data !! cell width y (width - 1 - x) k = Some b ->
  0 <= a <= 255 -> 0 <= b <= 255 ->
  exists out,
    applyMirrorEffect ctx width height = Ret out
    /\ out !! cell width y x k = Some ((a + b) / 2)
    /\ out !! cell width y (width - 1 - x) k = Some ((a + b) / 2).
Proof.
  intros Hget Hlen Hy Hx Hk Ha Hb Hra Hrb.
  exists (mirrorPixels width height data).
  unfold applyMirrorEffect. rewrite Hget. split; [reflexivity |].
  assert (Hv : pairValue data (cell width y x k) (cell width y (width - 1 - x) k)
               = (a + b) / 2).
  { unfold pairValue. rewrite Ha, Hb. unfold clamp.
    assert (0 <= (a + b) / 2) by (apply Z.div_pos; lia).
    assert ((a + b) / 2 < 256) by (apply Z.div_lt_upper_bound; lia).
    lia. }
  split.
  - rewrite mirrorPixels_colour by assumption. rewrite Hv. reflexivity.
  - rewrite mirrorPixels_colour by (assumption || lia).
    replace (width - 1 - (width - 1 - x))%nat with x by lia.
    rewrite pairValue_comm, Hv. reflexivity.
Qed.

Lemma applyMirrorEffect_averages_witness :
  exists out,
    applyMirrorEffect (canvasContext 2 1 [10; 20; 30; 255; 51; 60; 70; 128]) 2 1 = Ret out
    /\ out !! cell 2 0 0 0 = Some ((10 + 51) / 2)
    /\ out !! cell 2 0 (2 - 1 - 0) 0 = Some ((10 + 51) / 2).
Proof.
  apply (applyMirrorEffect_averages
           (canvasContext 2 1 [10; 20; 30; 255; 51; 60; 70; 128]) 2 1
           [10; 20; 30; 255; 51; 60; 70; 128] 0 0 0 10 51);
    try reflexivity; lia.
Defined.

(** X28.  [applyMirrorEffect] never writes an alpha channel and keeps the
    length of the pixel array, whatever the frame size and whatever array
    the context returned. *)
Theorem applyMirrorEffect_keeps_alpha (ctx : context) (width height : nat)
    (data : list Z) :
  getImageData ctx 0 0 (Z.of_nat width) (Z.of_nat height) = Ret data ->
  exists out,
    applyMirrorEffect ctx width height = Ret out
    /\ length out = length data
    /\ forall p : nat, out !! (p * 4 + 3)%nat = data !! (p * 4 + 3)%nat.
Proof.
  intros Hget. exists (mirrorPixels width height data).
  unfold applyMirrorEffect. rewrite Hget.
  split; [reflexivity |]. split; [apply mirrorPixels_length |].
  intros p. apply mirrorPixels_alpha.
Qed.

Lemma applyMirrorEffect_keeps_alpha_witness :
  exists out,
    applyMirrorEffect (canvasContext 2 1 [10; 20; 30; 255; 51; 60; 70; 128]) 2 1 = Ret out
    /\ length out = length [10; 20; 30; 255; 51; 60; 70; 128]
    /\ forall p : nat,
         out !! (p * 4 + 3)%nat = [10; 20; 30; 255; 51; 60; 70; 128] !! (p * 4 + 3)%nat.
Proof.
  apply (applyMirrorEffect_keeps_alpha
           (canvasContext 2 1 [10; 20; 30; 255; 51; 60; 70; 128]) 2 1
           [10; 20; 30; 255; 51; 60; 70; 128]).
  reflexivity.
Defined.

(** X29.  Mirroring is idempotent: when the picture [applyMirrorEffect] has
    put back is read again and mirrored a second time, the second pass puts
    back the same picture. *)
Theorem applyMirrorEffect_idempotent (ctx ctx' : context) (width height : nat)
    (data out : list Z) :
  getImageData ctx 0 0 (Z.of_nat width) (Z.of_nat height) = Ret data ->
  length data = (4 * width * height)%nat ->
  applyMirrorEffect ctx width height = Ret out ->
  getImageData ctx' 0 0 (Z.of_nat width) (Z.of_nat height) = Ret out ->
  applyMirrorEffect ctx' width height = Ret out.
Proof.
  intros Hget Hlen Hout Hget'. unfold applyMirrorEffect in *.
  rewrite Hget in Hout. injection Hout as <-. rewrite Hget'.
  rewrite mirrorPixels_idempotent by exact Hlen. reflexivity.
Qed.

Lemma applyMirrorEffect_idempotent_witness :
  applyMirrorEffect (canvasContext 2 1 [30; 40; 50; 255; 30; 40; 50; 128]) 2 1
  = Ret [30; 40; 50; 255; 30; 40; 50; 128].
Proof.
  apply (applyMirrorEffect_idempotent
           (canvasContext 2 1 [10; 20; 30; 255; 51; 60; 70; 128])
           (canvasContext 2 1 [30; 40; 50; 255; 30; 40; 50; 128]) 2 1
           [10; 20; 30; 255; 51; 60; 70; 128]);
    reflexivity.
Defined.

End BacklightVisualizerProperties.
